(** * A shallow embedding of [music_recommender.py]

    The recommender keeps a catalogue of songs (a pandas DataFrame read from a
    CSV file), a matrix of standardised audio features, and answers four
    kinds of request: recommendations for a named song, and random samples
    filtered by mood, genre, popularity or a list of keywords. It also
    searches the catalogue, lists its genres and reads Spotify's answer for
    a song. The two endpoints ([sagemaker_endpoint.py], [lambda_function.py])
    rank the catalogue against the features of a request, from the files
    [prepare_model.py] saves, [app.py] turns the label selected in its
    genre box into the genre it filters by, and [add_songs.py] appends the
    results of a Spotify search to the CSV file.

    Conventions of the embedding
    - a DataFrame is a list of labelled rows, the label being the row's
      position in the catalogue as loaded ([RangeIndex]);
    - Python [int] is [Z], a CSV number is a rational [Q];
    - a [str] is a [string] whose characters are the code points below 256;
    - the two numerical library calls of the module, the standard scaler and
      the cosine similarity, are computed exactly: a standardised value and a
      similarity score are numbers of the shape [a / sqrt r] with [a], [r]
      rational, and are kept in that shape (record [sqrt_quot]);
    - pandas' [str.contains] reads its pattern as a regular expression;
      the model follows it for patterns without operators, where it is the
      substring test (see [literal_search]);
    - [difflib.get_close_matches] is a parameter of the model, and the
      generator behind [np.random.choice] is an explicit state.

    Two layers
    - The model above is exact: every text cell is a string, the scores are
      exact numbers and the sort is stable. What is proved of it holds of
      the program where the program agrees with it: on catalogues without
      missing text cells, and up to the rounding of the scores.
    - [Runtime] is [get_recommendations], [predict_fn] and
      [lambda_handler] without these idealisations: a text cell may be a
      missing value, and the dtype pandas gives a column, the scaler, the
      cosine similarity and the sort are parameters, of which the
      statements assume only what the libraries promise. [Binary64]
      computes the scaler and the cosine similarity in binary64, and the
      exact numbers are one more instance of the parameters. *)

From Stdlib Require Import List String Ascii Bool Arith ZArith QArith Lia Lra Psatz.
From Stdlib Require Import Permutation Sorted Reals Qreals DecimalString.
From Stdlib Require PrimFloat Uint63.
Import ListNotations.

Local Open Scope Z_scope.

(** ** Strings: [str.lower], [str.strip], [in] *)

Module Str.

(** [c.isspace()] for a code point below 256. *)
Definition is_space (c : ascii) : bool :=
  let n := nat_of_ascii c in
  ((9 <=? n) && (n <=? 13) || (28 <=? n) && (n <=? 32) || (n =? 133) || (n =? 160))%nat.

(** [c.lower()] for a code point below 256: A-Z, and the accented capitals
    192..222 except the multiplication sign 215. *)
Definition lower_char (c : ascii) : ascii :=
  let n := nat_of_ascii c in
  if ((65 <=? n) && (n <=? 90) || (192 <=? n) && (n <=? 222) && negb (n =? 215))%nat
  then ascii_of_nat (n + 32) else c.

(** [s.lower()] *)
Fixpoint lower (s : string) : string :=
  match s with
  | EmptyString => EmptyString
  | String c s' => String (lower_char c) (lower s')
  end.

(** [s.lstrip()] *)
Fixpoint lstrip (s : string) : string :=
  match s with
  | EmptyString => EmptyString
  | String c s' => if is_space c then lstrip s' else s
  end.

(** [rstrip] drops a character when it is a space and everything after it
    has been dropped. *)
Fixpoint rstrip (s : string) : string :=
  match s with
  | EmptyString => EmptyString
  | String c s' =>
      match rstrip s' with
      | EmptyString => if is_space c then EmptyString else String c EmptyString
      | r => String c r
      end
  end.

(** [s.strip()] *)
Definition strip (s : string) : string := rstrip (lstrip s).

(** [pat in s]: [pat] occurs in [s] as a contiguous substring. *)
Fixpoint contains (pat s : string) : bool :=
  String.prefix pat s
  || match s with
     | EmptyString => false
     | String _ s' => contains pat s'
     end.

(** The characters the [re] module reads as operators. pandas' [str.contains]
    compiles its argument as a regular expression; a pattern without these
    characters matches exactly where it occurs as a substring. *)
Definition regex_special (c : ascii) : bool :=
  existsb (Ascii.eqb c)
    (list_ascii_of_string ".^$*+?{}[]\|()").

(** The pattern has no operator: it stands for itself. *)
Fixpoint regex_literal (s : string) : bool :=
  match s with
  | EmptyString => true
  | String c s' => negb (regex_special c) && regex_literal s'
  end.

(** The string is empty or made of white space. *)
Fixpoint whitespace_only (s : string) : bool :=
  match s with
  | EmptyString => true
  | String c s' => is_space c && whitespace_only s'
  end.

End Str.

(** ** The catalogue *)

(** One CSV row, with the columns [__init__] requires. *)
Record Song := mkSong {
  track_name : string;
  track_artist : string;
  track_album_name : string;
  track_popularity : Z;
  playlist_genre : string;
  duration_ms : Z;
  energy : Q;
  tempo : Q;
  danceability : Q;
  loudness : Q;
  liveness : Q;
  valence : Q;
  speechiness : Q;
  acousticness : Q
}.

(** A DataFrame: rows with their index labels. Filtering keeps the labels,
    [iloc] is positional. *)
Definition DataFrame := list (nat * Song).

(** [enumerate(l, n)] *)
Fixpoint enumerate_from {A} (n : nat) (l : list A) : list (nat * A) :=
  match l with
  | [] => []
  | x :: l' => (n, x) :: enumerate_from (S n) l'
  end.

(** [pd.read_csv]: row [i] of the file gets label [i]. *)
Definition read_csv (rows : list Song) : DataFrame := enumerate_from 0 rows.

(** [df[mask]] for a row-wise boolean mask. *)
Definition select (p : Song -> bool) (df : DataFrame) : DataFrame :=
  filter (fun r => p (snd r)) df.

(** [df.index] *)
Definition index (df : DataFrame) : list nat := map fst df.

(** [self.data]: the catalogue as loaded. *)
Definition data (rows : list Song) : DataFrame := read_csv rows.

(** ** Exact numbers of the shape [a / sqrt r] *)

(** [mkSQ a r] stands for the real number [a / sqrt r], with [0 < r]. *)
Record sqrt_quot := mkSQ { num : Q; rad : Q }.

(** The map [x |-> x * |x|] is strictly increasing, so two such numbers
    compare as their images [a * |a| / r], which are rational. *)
Definition signed_square (x : sqrt_quot) : Q :=
  if Qle_bool 0 (num x) then num x * num x / rad x else - (num x * num x) / rad x.

(** [x <= y], as real numbers. *)
Definition score_leb (x y : sqrt_quot) : bool :=
  Qle_bool (signed_square x) (signed_square y).

(** Equality of the two real numbers. *)
Definition score_eqb (x y : sqrt_quot) : bool :=
  Qeq_bool (signed_square x) (signed_square y).

(** ** [StandardScaler] *)

(** [np.sum] *)
Definition qsum (l : list Q) : Q := fold_right Qplus 0%Q l.

(** [np.mean] *)
Definition mean (l : list Q) : Q := (qsum l / inject_Z (Z.of_nat (List.length l)))%Q.

(** [np.var]: the population variance. *)
Definition variance (l : list Q) : Q :=
  let m := mean l in mean (map (fun x => (x - m) * (x - m))%Q l).

(** sklearn's [_handle_zeros_in_scale]: a zero scale is replaced by one. *)
Definition handle_zeros (x : Q) : Q := if Qeq_bool x 0 then 1%Q else x.

(** [self.features] *)
Definition features (s : Song) : list Q :=
  [energy s; tempo s; danceability s; loudness s;
   liveness s; valence s; speechiness s; acousticness s].

(** [len(self.features)] *)
Definition n_features : nat := 8.

(** [X[:, c]] *)
Definition column (X : list (list Q)) (c : nat) : list Q :=
  map (fun row => nth c row 0%Q) X.

(** [[f(a, b) for a, b in zip(l, m)]] *)
Fixpoint zip_with {A B C} (f : A -> B -> C) (l : list A) (m : list B) : list C :=
  match l, m with
  | a :: l', b :: m' => f a b :: zip_with f l' m'
  | _, _ => []
  end.

(** The fitted scaler: [mean_] and the square of [scale_], per column. *)
Record ScalerState := mkScaler { mean_ : list Q; scale_sq : list Q }.

(** [StandardScaler.fit] *)
Definition fit (X : list (list Q)) : ScalerState :=
  let cols := map (column X) (seq 0 n_features) in
  {| mean_ := map mean cols;
     scale_sq := map (fun col => handle_zeros (variance col)) cols |}.

(** [(x - mean_) / scale_], kept as the numerators [x - mean_]: the entry
    in column [c] is [centred / sqrt (scale_sq c)]. *)
Definition transform (st : ScalerState) (X : list (list Q)) : list (list Q) :=
  map (fun row => zip_with Qminus row (mean_ st)) X.

(** The standardised value in row [i], column [c], as a number. *)
Definition standardized (st : ScalerState) (Xc : list (list Q)) (i c : nat) : sqrt_quot :=
  mkSQ (nth c (nth i Xc []) 0%Q) (nth c (scale_sq st) 1%Q).

(** [_prepare_data]: [self.scaler.fit_transform(self.data[self.features])]. *)
Definition scaler (rows : list Song) : ScalerState := fit (map features rows).

(** [self.song_features], as numerators: see [transform]. *)
Definition song_features (rows : list Song) : list (list Q) :=
  transform (scaler rows) (map features rows).

(** ** [cosine_similarity] *)

(** The dot product of two standardised rows given by their numerators:
    the product of the entries of column [c] is [a * b / scale_sq c]. *)
Fixpoint dot (s2 u v : list Q) : Q :=
  match s2, u, v with
  | r :: s2', a :: u', b :: v' => (a * b / r + dot s2' u' v')%Q
  | _, _, _ => 0%Q
  end.

(** sklearn's [normalize] divides each row by its Euclidean norm, a zero
    norm being replaced by one; the similarity is the dot product of the two
    normalised rows, that is [u.v / sqrt (|u|^2 * |v|^2)]. *)
Definition cosine (s2 u v : list Q) : sqrt_quot :=
  mkSQ (dot s2 u v) (handle_zeros (dot s2 u u) * handle_zeros (dot s2 v v)).

(** [cosine_similarity([u], Y)[0]] *)
Definition cosine_similarity (s2 u : list Q) (Y : list (list Q)) : list sqrt_quot :=
  map (cosine s2 u) Y.

(** ** [np.argsort] and slicing *)

(** Insertion of an index before the first index whose score is not
    smaller: the order of equal scores is kept. *)
Fixpoint insert_sorted (x : nat * sqrt_quot) (l : list (nat * sqrt_quot))
  : list (nat * sqrt_quot) :=
  match l with
  | [] => [x]
  | y :: l' => if score_leb (snd x) (snd y) then x :: l else y :: insert_sorted x l'
  end.

(** [np.argsort(a)]: the indices of [a] in ascending order of value. numpy
    promises no order among equal values; its scalar quicksort sorts an
    array of up to 17 entries by insertion, which keeps equal values in
    index order, and the model sorts every array that way. Only the
    statements that speak of the order of equal scores depend on it. *)
Definition argsort (a : list sqrt_quot) : list nat :=
  map fst (fold_right insert_sorted [] (enumerate_from 0 a)).

(** Python's reading of a slice bound against a length. *)
Definition slice_bound (len i : Z) : Z :=
  if i <? 0 then Z.max 0 (i + len) else Z.min i len.

(** [l[start:stop]] *)
Definition slice {A} (l : list A) (start stop : Z) : list A :=
  let n := Z.of_nat (List.length l) in
  let lo := slice_bound n start in
  let hi := slice_bound n stop in
  firstn (Z.to_nat (hi - lo)) (skipn (Z.to_nat lo) l).

(** [np.argsort(scores)[-k-1:-1][::-1]] *)
Definition top_indices (scores : list sqrt_quot) (k : Z) : list nat :=
  rev (slice (argsort scores) (- k - 1) (- 1)).

(** ** Result records *)

(** The dictionary built for a song; the key ['track_name'] is [title]. *)
Record SongInfo := mkInfo {
  title : string;
  artist : string;
  album : string;
  popularity : Z;
  genre : string;
  duration : Z
}.

(** The dictionary of a row: the duration is converted to seconds by
    [int(song['duration_ms']) // 1000]. *)
Definition song_info (s : Song) : SongInfo :=
  {| title := track_name s;
     artist := track_artist s;
     album := track_album_name s;
     popularity := track_popularity s;
     genre := playlist_genre s;
     duration := duration_ms s / 1000 |}.

(** A recommendation of [get_recommendations] carries its score as well. *)
Record Recommendation := mkRec { rec_song : SongInfo; similarity_score : sqrt_quot }.

(** What [get_recommendations] returns: ['error': False] with the
    recommendations and the input song, or ['error': True] with a message
    and suggestions. *)
Inductive Result :=
| Recommendations (recommendations : list Recommendation) (input_song : SongInfo)
| ErrorResult (message : string) (suggestions : list string).

(** ** Exceptions *)

(** A computation that returns or raises; the exception is kept as the text
    [str(e)] the handlers print. *)
Inductive exc (A : Type) :=
| Ok (a : A)
| Raise (e : string).
Arguments Ok {A} a.
Arguments Raise {A} e.

(** Sequencing: an exception ends the computation. *)
Definition bind {A B} (x : exc A) (f : A -> exc B) : exc B :=
  match x with
  | Ok a => f a
  | Raise e => Raise e
  end.

Notation "x <- e ;; f" := (bind e (fun x => f))
  (at level 61, e at next level, right associativity).

(** The text of an [IndexError]. *)
Definition index_error : string := "index out of bounds".

(** [df.iloc[i]] and [a[i]]: an indexing that raises [IndexError] out of
    range. *)
Definition at_index {A} (l : list A) (i : nat) : exc A :=
  match nth_error l i with
  | Some a => Ok a
  | None => Raise index_error
  end.

(** [[f(x) for x in l]], stopping at the first exception. *)
Fixpoint for_each {A B} (f : A -> exc B) (l : list A) : exc (list B) :=
  match l with
  | [] => Ok []
  | a :: l' => b <- f a ;; bs <- for_each f l' ;; Ok (b :: bs)
  end.

(** ** [get_recommendations] *)

Section Recommend.

(** [get_close_matches(word, possibilities, n=5, cutoff=0.6)] of [difflib]. *)
Variable get_close_matches : string -> list string -> list string.

(** The three row masks of the search, on the lower-cased columns. *)
Definition title_is (q : string) (s : Song) : bool :=
  String.eqb (Str.lower (track_name s)) q.
Definition title_contains (q : string) (s : Song) : bool :=
  Str.contains q (Str.lower (track_name s)).
Definition artist_contains (q : string) (s : Song) : bool :=
  Str.contains q (Str.lower (track_artist s)).

(** The loop over the close matches: [song_idx] ends as the rows of the
    first match that names a title, or empty. *)
Fixpoint first_resolving (df : DataFrame) (similar_songs : list string) : list nat :=
  match similar_songs with
  | [] => []
  | similar_song :: rest =>
      match index (select (title_is similar_song) df) with
      | [] => first_resolving df rest
      | song_idx => song_idx
      end
  end.

(** The search cascade (lines 250-275): the final [song_idx], and
    [similar_songs] when the fuzzy step ran. [song_name] is already in
    lower case and stripped. *)
Definition resolve (df : DataFrame) (song_name : string) : list nat * list string :=
  match index (select (title_is song_name) df) with
  | (_ :: _) as song_idx => (song_idx, [])
  | [] =>
    match index (select (title_contains song_name) df) with
    | (_ :: _) as song_idx => (song_idx, [])
    | [] =>
      match index (select (artist_contains song_name) df) with
      | (_ :: _) as song_idx => (song_idx, [])
      | [] =>
        let all_songs := map (fun r => Str.lower (track_name (snd r))) df in
        let similar_songs := get_close_matches song_name all_songs in
        (first_resolving df similar_songs, similar_songs)
      end
    end
  end.

(** The message of line 281. *)
Definition not_found_message (song_name : string) : string :=
  ("Song '" ++ song_name ++ "' not found. Did you mean:")%string.

(** The rows the loop of lines 296-312 appends a dictionary for: those of
    [top_indices], in that order, whose popularity reaches the floor. *)
Definition recommended_rows (df : DataFrame) (scores : list sqrt_quot)
    (num_recommendations min_popularity : Z) : exc (list (nat * Song)) :=
  songs <- for_each (fun idx => row <- at_index df idx ;; Ok (idx, snd row))
             (top_indices scores num_recommendations) ;;
  Ok (filter (fun r => min_popularity <=? track_popularity (snd r)) songs).

(** The dictionary of lines 304-312, with [similarity_scores[idx]]. *)
Definition make_recommendation (scores : list sqrt_quot) (r : nat * Song) : exc Recommendation :=
  score <- at_index scores (fst r) ;;
  Ok {| rec_song := song_info (snd r); similarity_score := score |}.

(** Lines 285-334, for a resolved [song_idx]. *)
Definition recommend (rows : list Song) (song_idx : nat)
    (num_recommendations min_popularity : Z) : exc (list Recommendation * SongInfo) :=
  found_song <- at_index (data rows) song_idx ;;
  query <- at_index (song_features rows) song_idx ;;
  let similarity_scores :=
    cosine_similarity (scale_sq (scaler rows)) query (song_features rows) in
  kept <- recommended_rows (data rows) similarity_scores num_recommendations min_popularity ;;
  recommendations <- for_each (make_recommendation similarity_scores) kept ;;
  Ok (recommendations, song_info (snd found_song)).

(** The method: the query is normalised and resolved; the handler of line
    335 turns an exception into an error record without suggestions. *)
Definition get_recommendations (rows : list Song) (song_name : string)
    (num_recommendations min_popularity : Z) : Result :=
  let song_name := Str.strip (Str.lower song_name) in
  let '(song_idx, similar_songs) := resolve (data rows) song_name in
  match song_idx with
  | [] => ErrorResult (not_found_message song_name) (firstn 3 similar_songs)
  | song_idx :: _ =>
      match recommend rows song_idx num_recommendations min_popularity with
      | Ok (recommendations, input_song) => Recommendations recommendations input_song
      | Raise e => ErrorResult ("Error getting recommendations: " ++ e)%string []
      end
  end.

End Recommend.

(** ** [np.random]: the generator and sampling without replacement *)

(** The state of the global generator: the numbers it will draw, in order. *)
Definition RandomState := nat -> nat.

(** [rk_interval(max)]: a draw in [0..max], consuming the head of the state. *)
Definition rk_interval (max : nat) (st : RandomState) : nat * RandomState :=
  (st O mod S max, fun i => st (S i))%nat.

(** [l[i] = x], for [i] in range. *)
Fixpoint update {A} (l : list A) (i : nat) (x : A) : list A :=
  match l, i with
  | [], _ => []
  | _ :: t, O => x :: t
  | h :: t, S i' => h :: update t i' x
  end.

(** [x[i], x[j] = x[j], x[i]] *)
Definition swap {A} (l : list A) (i j : nat) : list A :=
  match nth_error l i, nth_error l j with
  | Some a, Some b => update (update l i b) j a
  | _, _ => l
  end.

(** The loop of [shuffle]: [for i in reversed(range(1, n))], the counter
    being [i]; each turn swaps [x[i]] with [x[j]] for a drawn [j <= i]. *)
Fixpoint shuffle_from (i : nat) (x : list nat) (st : RandomState) : list nat * RandomState :=
  match i with
  | O => (x, st)
  | S i' =>
      let (j, st') := rk_interval i st in
      shuffle_from i' (swap x i j) st'
  end.

(** [np.random.permutation(n)]: [arange(n)], shuffled. *)
Definition permutation (n : nat) (st : RandomState) : list nat * RandomState :=
  shuffle_from (Nat.pred n) (seq 0 n) st.

(** [np.random.choice(pop_size, size, replace=False)] *)
Definition choice (pop_size size : Z) (st : RandomState) : exc (list nat) * RandomState :=
  if (pop_size <=? 0) && negb (size =? 0) then
    (Raise "a must be greater than 0 unless no samples are taken", st)
  else if pop_size <? size then
    (Raise "Cannot take a larger sample than population when 'replace=False'", st)
  else if size <? 0 then
    (Raise "negative dimensions are not allowed", st)
  else
    let (idx, st') := permutation (Z.to_nat pop_size) st in
    (Ok (firstn (Z.to_nat size) idx), st').

(** [len(l)] *)
Definition len {A} (l : list A) : Z := Z.of_nat (List.length l).

(** The sampling shared by the four exploratory operations:
    [random_indices = np.random.choice(len(df), min(n, len(df)), replace=False)]
    followed by [df.iloc[idx]] for each drawn [idx]. *)
Definition sample (df : DataFrame) (n : Z) (st : RandomState)
  : exc (list (nat * Song)) * RandomState :=
  let (random_indices, st') := choice (len df) (Z.min n (len df)) st in
  (idxs <- random_indices ;; for_each (at_index df) idxs, st').

(** The dictionaries built for the sampled rows. *)
Definition song_dicts (picked : list (nat * Song)) : list SongInfo :=
  map (fun r => song_info (snd r)) picked.

(** ** [get_mood_based_recommendations] *)

(** [(df[feature] >= min_val) & (df[feature] <= max_val)] on one row. *)
Definition in_range (f : Song -> Q) (lo hi : Q) (s : Song) : bool :=
  Qle_bool lo (f s) && Qle_bool (f s) hi.

(** [mood_filters]: per mood, the features with their closed ranges. *)
Definition mood_filters (mood : string) : option (list ((Song -> Q) * (Q * Q))) :=
  if String.eqb mood "happy" then Some [(valence, (0.7, 1.0)); (energy, (0.6, 1.0))]%Q
  else if String.eqb mood "sad" then Some [(valence, (0.0, 0.3)); (energy, (0.0, 0.4))]%Q
  else if String.eqb mood "energetic" then Some [(energy, (0.8, 1.0)); (tempo, (120, 200))]%Q
  else if String.eqb mood "calm" then Some [(energy, (0.0, 0.3)); (acousticness, (0.7, 1.0))]%Q
  else None.

(** The loop over [filters.items()]. *)
Definition apply_filters (filters : list ((Song -> Q) * (Q * Q))) (df : DataFrame) : DataFrame :=
  fold_left (fun filtered_data flt =>
               select (in_range (fst flt) (fst (snd flt)) (snd (snd flt))) filtered_data)
            filters df.

(** The result is [None] (Python's), a list of dictionaries, or an
    exception that the method does not catch. *)
Definition get_mood_based_recommendations (rows : list Song) (mood : string)
    (num_recommendations : Z) (st : RandomState)
  : exc (option (list SongInfo)) * RandomState :=
  match mood_filters (Str.lower mood) with
  | None => (Ok None, st)
  | Some filters =>
      let filtered_data := apply_filters filters (data rows) in
      if len filtered_data =? 0 then (Ok None, st)
      else
        let (picked, st') := sample filtered_data num_recommendations st in
        (songs <- picked ;; Ok (Some (song_dicts songs)), st')
  end.

(** ** [get_genre_recommendations] *)

(** [Series.unique()]: the distinct values in order of first appearance. *)
Fixpoint unique (l : list string) : list string :=
  match l with
  | [] => []
  | x :: l' => x :: filter (fun y => negb (String.eqb x y)) (unique l')
  end.

(** The genre is matched exactly without regard to case, or else as a
    substring; the result is as for moods. *)
Definition get_genre_recommendations (rows : list Song) (genre : string)
    (num_recommendations : Z) (st : RandomState)
  : exc (option (list SongInfo)) * RandomState :=
  let genre := Str.lower genre in
  let genres := unique (map (fun r => playlist_genre (snd r)) (data rows)) in
  let matching_genres :=
    match filter (fun g => String.eqb (Str.lower g) genre) genres with
    | [] => filter (fun g => Str.contains genre (Str.lower g)) genres
    | m => m
    end in
  match matching_genres with
  | [] => (Ok None, st)
  | _ =>
      let genre_data :=
        select (fun s => existsb (String.eqb (playlist_genre s)) matching_genres) (data rows) in
      if len genre_data =? 0 then (Ok None, st)
      else
        let (picked, st') := sample genre_data num_recommendations st in
        (songs <- picked ;; Ok (Some (song_dicts songs)), st')
  end.

(** ** [get_random_songs] *)

(** The record returned by the handler of line 233. *)
Definition error_song : SongInfo :=
  {| title := "Error loading songs";
     artist := "System Error";
     album := "Please try again";
     popularity := 0;
     genre := "Unknown";
     duration := 0 |}.

(** The rows left by the two optional filters. [genre] is [None] or a
    string; the empty string is falsy and filters nothing. *)
Definition random_songs_filter (rows : list Song) (min_popularity : Z)
    (genre : option string) : DataFrame :=
  let filtered_data := data rows in
  let filtered_data :=
    if 0 <? min_popularity
    then select (fun s => min_popularity <=? track_popularity s) filtered_data
    else filtered_data in
  match genre with
  | Some (String _ _ as g) =>
      select (fun s => String.eqb (Str.lower (playlist_genre s)) (Str.lower g)) filtered_data
  | _ => filtered_data
  end.

(** An exception of the sampling ends in the handler, which returns the
    error record alone. *)
Definition get_random_songs (rows : list Song) (num_songs min_popularity : Z)
    (genre : option string) (st : RandomState) : list SongInfo * RandomState :=
  let filtered_data := random_songs_filter rows min_popularity genre in
  let (picked, st') := sample filtered_data num_songs st in
  match picked with
  | Ok songs => (song_dicts songs, st')
  | Raise _ => ([error_song], st')
  end.

(** ** [get_indian_music_recommendations] *)

(** The keywords of lines 370-375. *)
Definition indian_indicators : list string :=
  ["rahman"; "arijit"; "shreya"; "sonu"; "kumar"; "khan"; "kapoor";
   "bollywood"; "tollywood"; "kollywood"; "mollywood";
   "hindi"; "tamil"; "telugu"; "malayalam"; "bengali"; "punjabi";
   "kannada"; "marathi"; "gujarati"; "bhojpuri"]%string.

(** [str.contains('|'.join(indian_indicators))]: one of the keywords occurs. *)
Definition contains_indicator (s : string) : bool :=
  existsb (fun kw => Str.contains kw (Str.lower s)) indian_indicators.

(** [indian_mask]: a keyword in the artist, title or album, or "indian" in
    the genre. *)
Definition indian_mask (s : Song) : bool :=
  contains_indicator (track_artist s)
  || contains_indicator (track_name s)
  || contains_indicator (track_album_name s)
  || Str.contains "indian" (Str.lower (playlist_genre s)).

(** The rows sampled from, when the method gets that far. *)
Definition indian_songs_filter (rows : list Song) (min_popularity : Z) : DataFrame :=
  let indian_songs := select indian_mask (data rows) in
  if 0 <? min_popularity
  then select (fun s => min_popularity <=? track_popularity s) indian_songs
  else indian_songs.

(** Every exception is caught and turned into [None]. *)
Definition get_indian_music_recommendations (rows : list Song)
    (num_recommendations min_popularity : Z) (st : RandomState)
  : option (list SongInfo) * RandomState :=
  if len (select indian_mask (data rows)) =? 0 then (None, st)
  else
    let (picked, st') :=
      sample (indian_songs_filter rows min_popularity) num_recommendations st in
    match picked with
    | Ok songs => (Some (song_dicts songs), st')
    | Raise _ => (None, st')
    end.

(** ** [search_songs] *)

(** The mask on the album column. *)
Definition album_contains (q : string) (s : Song) : bool :=
  Str.contains q (Str.lower (track_album_name s)).

(** Two rows hold the same value in every column. The rows of the model
    have the fourteen columns [__init__] requires, and these are the
    columns compared. *)
Definition same_values (s t : Song) : bool :=
  String.eqb (track_name s) (track_name t)
  && String.eqb (track_artist s) (track_artist t)
  && String.eqb (track_album_name s) (track_album_name t)
  && (track_popularity s =? track_popularity t)
  && String.eqb (playlist_genre s) (playlist_genre t)
  && (duration_ms s =? duration_ms t)
  && forallb (fun f => Qeq_bool (f s) (f t))
       [energy; tempo; danceability; loudness; liveness; valence; speechiness; acousticness].

(** [df.drop_duplicates()]: a row is dropped when an earlier row holds the
    same values; the labels play no part, and the first of the equal rows
    stays where it is. *)
Fixpoint drop_duplicates (df : DataFrame) : DataFrame :=
  match df with
  | [] => []
  | r :: df' =>
      r :: filter (fun r' => negb (same_values (snd r) (snd r'))) (drop_duplicates df')
  end.

(** The matches in the three columns are concatenated, made unique and cut
    after ten rows; the result is [None] when nothing matches. The query is
    lower-cased but not stripped, and [str.contains] reads it as a regular
    expression: as for [get_recommendations], the model follows a query
    without operators. *)
Definition search_songs (rows : list Song) (query : string) : option DataFrame :=
  let query := Str.lower query in
  let title_matches := select (title_contains query) (data rows) in
  let artist_matches := select (artist_contains query) (data rows) in
  let album_matches := select (album_contains query) (data rows) in
  let all_matches := drop_duplicates (title_matches ++ artist_matches ++ album_matches) in
  if 0 <? len all_matches then Some (firstn 10 all_matches) else None.

(** ** [get_available_genres] *)

(** Insertion before the first string that is not smaller. Python orders
    [str] values by code point, as [String.leb] does. *)
Fixpoint insert_string (x : string) (l : list string) : list string :=
  match l with
  | [] => [x]
  | y :: l' => if String.leb x y then x :: l else y :: insert_string x l'
  end.

(** [sorted(l)] *)
Definition sorted (l : list string) : list string := fold_right insert_string [] l.

(** Insertion before the first entry whose count is not larger. *)
Fixpoint insert_count (x : string * nat) (l : list (string * nat)) : list (string * nat) :=
  match l with
  | [] => [x]
  | y :: l' => if (snd y <=? snd x)%nat then x :: l else y :: insert_count x l'
  end.

(** [Series.value_counts().to_dict()]: each distinct value with the number
    of rows that hold it, the most frequent first. pandas promises no order
    among equal counts; the model keeps them in order of first appearance. *)
Definition value_counts (l : list string) : list (string * nat) :=
  fold_right insert_count [] (map (fun x => (x, count_occ string_dec l x)) (unique l)).

(** The dictionary returned: the keys ['genres'] and ['counts']. *)
Record GenreInfo := mkGenreInfo { genres : list string; counts : list (string * nat) }.

Definition get_available_genres (rows : list Song) : GenreInfo :=
  let playlist_genres := map (fun r => playlist_genre (snd r)) (data rows) in
  {| genres := sorted (unique playlist_genres);
     counts := value_counts playlist_genres |}.

(** ** The endpoint: [prepare_model], [predict_fn] *)

(** The keys read from a request, in the order of [features]. *)
Definition feature_names : list string :=
  ["energy"; "tempo"; "danceability"; "loudness";
   "liveness"; "valence"; "speechiness"; "acousticness"]%string.

(** The dictionary of a request: a number under some of the keys. *)
Definition Event := string -> option Q.

(** [event[feature]], which raises [KeyError]; [str(KeyError(key))] is the
    key in quotes. *)
Definition get_feature (event : Event) (feature : string) : exc Q :=
  match event feature with
  | Some v => Ok v
  | None => Raise ("'" ++ feature ++ "'")%string
  end.

(** [[input_data[feature] for feature in features]] *)
Definition input_features (input_data : Event) : exc (list Q) :=
  for_each (get_feature input_data) feature_names.

(** [l[start:]] *)
Definition slice_from {A} (l : list A) (start : Z) : list A := slice l start (len l).

(** What [prepare_model] saves: the standardised matrix (as numerators,
    like [song_features]), the fitted scaler, and the metadata. The
    metadata file holds six columns of the catalogue, row for row; the rows
    are kept whole here. *)
Definition prepare_model (rows : list Song) : list (list Q) * ScalerState * DataFrame :=
  (song_features rows, scaler rows, data rows).

(** [predict_fn] of [sagemaker_endpoint.py]: the five rows most similar to
    the features of the request, best first, with their scores. Nothing is
    left out of the ranking. *)
Definition predict_fn (input_data : Event) (model : list (list Q) * ScalerState)
  : exc (list nat * list sqrt_quot) :=
  let (model, scaler) := model in
  song_features <- input_features input_data ;;
  let song_features_scaled := transform scaler [song_features] in
  let similarities :=
    map (fun u => cosine_similarity (scale_sq scaler) u model) song_features_scaled in
  similarities_0 <- at_index similarities 0 ;;
  let top_indices := rev (slice_from (argsort similarities_0) (- 5)) in
  top_similarities <- for_each (at_index similarities_0) top_indices ;;
  Ok (top_indices, top_similarities).

(** ** The genre filter of [app.py] *)

(** [str(n)] for a count. *)
Definition str_of_nat (n : nat) : string := NilEmpty.string_of_uint (Nat.to_uint n).

(** The label of a genre in the selection box:
    [f"{genre} ({count} songs)"]. *)
Definition genre_option (genre : string) (count : nat) : string :=
  (genre ++ " (" ++ str_of_nat count ++ " songs)")%string.

(** [s.split(" ")[0]]: the part of [s] before its first space. *)
Fixpoint first_word (s : string) : string :=
  match s with
  | EmptyString => EmptyString
  | String c s' => if Ascii.eqb c " " then EmptyString else String c (first_word s')
  end.

(** [selected_genre.split(" ")[0] if selected_genre != "All" else None] *)
Definition actual_genre (selected_genre : string) : option string :=
  if negb (String.eqb selected_genre "All") then Some (first_word selected_genre) else None.

(** ** [get_song_info]: reading a Spotify search result *)

Module Spotify.

(** A decoded JSON value. *)
#[local] Unset Elimination Schemes.
Inductive json :=
| JNull
| JBool (b : bool)
| JNum (n : Q)
| JStr (s : string)
| JList (l : list json)
| JDict (d : list (string * json)).
#[local] Set Elimination Schemes.

(** The value under a key of a dictionary. *)
Fixpoint assoc (key : string) (d : list (string * json)) : option json :=
  match d with
  | [] => None
  | (k, v) :: d' => if String.eqb k key then Some v else assoc key d'
  end.

(** [x[key]] for a string key: [KeyError] on a dictionary without the key,
    [TypeError] on any other value. *)
Definition get_item (x : json) (key : string) : exc json :=
  match x with
  | JDict d =>
      match assoc key d with
      | Some v => Ok v
      | None => Raise ("'" ++ key ++ "'")%string
      end
  | _ => Raise "TypeError"
  end.

(** [x[0]]: the first element of a list, the first character of a string,
    an exception otherwise. *)
Definition first_item (x : json) : exc json :=
  match x with
  | JList (v :: _) => Ok v
  | JList [] => Raise "list index out of range"
  | JStr (String c _) => Ok (JStr (String c EmptyString))
  | JStr EmptyString => Raise "string index out of range"
  | JDict _ => Raise "0"
  | _ => Raise "TypeError"
  end.

(** [x.get(key, default)]: only a dictionary has the method. *)
Definition get (x : json) (key : string) (default : json) : exc json :=
  match x with
  | JDict d =>
      match assoc key d with
      | Some v => Ok v
      | None => Ok default
      end
  | _ => Raise "AttributeError"
  end.

(** [bool(x)] *)
Definition truthy (x : json) : bool :=
  match x with
  | JNull => false
  | JBool b => b
  | JNum n => negb (Qeq_bool n 0)
  | JStr s => negb (String.eqb s "")
  | JList l => match l with [] => false | _ => true end
  | JDict d => match d with [] => false | _ => true end
  end.

(** The dictionary returned for a track; a missing value is [JNull]. *)
Record Info := mkInfo {
  preview_url : json;
  spotify_url : json;
  uri : json;
  album_art : json;
  duration_ms : json;
  popularity : json;
  explicit : json
}.

(** The client [self.sp]: absent, or a search that returns the decoded
    response or raises. *)
Definition Client := option (string -> exc json).

(** The method: [None] without a client, when the search finds no track,
    and whenever an exception is raised on the way. *)
Definition get_song_info (sp : Client) (track_name artist_name : string) : option Info :=
  match sp with
  | None => None
  | Some search =>
      let attempt :=
        results <- search ("track:" ++ track_name ++ " artist:" ++ artist_name)%string ;;
        tracks <- get_item results "tracks" ;;
        items <- get_item tracks "items" ;;
        if truthy items then
          track <- first_item items ;;
          preview_url <- get track "preview_url" JNull ;;
          external_urls <- get track "external_urls" (JDict []) ;;
          spotify_url <- get external_urls "spotify" JNull ;;
          uri <- get track "uri" JNull ;;
          album <- get track "album" (JDict []) ;;
          images <- get album "images" (JList [JDict []]) ;;
          image <- first_item images ;;
          album_art <- get image "url" JNull ;;
          duration_ms <- get track "duration_ms" JNull ;;
          popularity <- get track "popularity" JNull ;;
          explicit <- get track "explicit" JNull ;;
          Ok (Some (mkInfo preview_url spotify_url uri album_art duration_ms popularity explicit))
        else Ok None in
      match attempt with
      | Ok info => info
      | Raise _ => None
      end
  end.

(** The search for the song returns a response whose first item is the
    dictionary [track]. *)
Definition found (search : string -> exc json) (track_name artist_name : string)
    (track : list (string * json)) : Prop :=
  exists results tracks others,
    search ("track:" ++ track_name ++ " artist:" ++ artist_name)%string = Ok results
    /\ get_item results "tracks" = Ok tracks
    /\ get_item tracks "items" = Ok (JList (JDict track :: others)).

(** The track has no external URLs, or a dictionary of them. *)
Definition plain_urls (track : list (string * json)) : Prop :=
  assoc "external_urls" track = None
  \/ exists urls, assoc "external_urls" track = Some (JDict urls).

(** [d.get(key)] of a dictionary. *)
Definition value_of (key : string) (d : list (string * json)) : json :=
  match assoc key d with
  | Some v => v
  | None => JNull
  end.

(** A search that finds one track. *)
Definition one_track (track : list (string * json)) : string -> exc json :=
  fun _ => Ok (JDict [("tracks", JDict [("items", JList [JDict track])])]%string).

(** A track whose album has no image. *)
Definition bare_track : list (string * json) :=
  [("uri", JStr "spotify:track:1"); ("album", JDict [("images", JList [])])]%string.

End Spotify.

(** ** [add_songs.py]: adding the results of a Spotify search *)

Module AddSongs.
Import Spotify.

(** The Spotify client of the script: the search, and the audio features
    of a list of one track, each returning the decoded response or
    raising. *)
Record Client := mkClient {
  search : string -> exc json;
  audio_features : json -> exc json
}.













End AddSongs.

(** The binds of a computation that returned, taken apart. *)
Ltac split_bind H :=
  repeat match type of H with
         | bind ?x _ = Ok _ =>
             let E := fresh "E" in
             destruct x eqn:E; cbn [bind] in H; [|discriminate H]
         end.

(** ** The recommender as it runs: missing cells and library numbers *)

(** The sections above read every text cell as a string and compute the
    scores exactly. The program does neither: pandas reads some cells as
    missing values, and the scaler, the cosine similarity and the sort are
    library calls on binary64 numbers. [Runtime] is [get_recommendations],
    [predict_fn] and [lambda_handler] with the text cells as pandas holds
    them and with the library calls as parameters; [Binary64] computes the
    scaler and the cosine similarity in binary64. *)

Module Runtime.

(** The cells [pd.read_csv] reads as a missing value ([NaN]) by default. *)
Definition na_values : list string :=
  [""; "#N/A"; "#N/A N/A"; "#NA"; "-1.#IND"; "-1.#QNAN"; "-NaN"; "-nan";
   "1.#IND"; "1.#QNAN"; "<NA>"; "N/A"; "NA"; "NULL"; "NaN"; "None"; "n/a";
   "nan"; "null"]%string.

(** The cell is read as a missing value. *)
Definition missing (cell : string) : bool := existsb (String.eqb cell) na_values.

(** The value of a cell of a text column: a string, or [None] for [NaN]. *)
Definition read_text (cell : string) : option string :=
  if missing cell then None else Some cell.

(** [series.str.lower()] at one cell: a missing value stays missing. *)
Definition lowered (cell : string) : option string :=
  option_map Str.lower (read_text cell).

(** [series == q] at one cell: false at a missing value. *)
Definition equals (q : string) (v : option string) : bool :=
  match v with
  | Some t => String.eqb t q
  | None => false
  end.

(** [series.str.contains(q, na=False)] at one cell. *)
Definition contains (q : string) (v : option string) : bool :=
  match v with
  | Some t => Str.contains q t
  | None => false
  end.

(** [str(x)] for a cell of a column that is text: a missing value prints
    as ['nan']. *)
Definition str (cell : string) : string := if missing cell then "nan"%string else cell.

(** The dictionary built for a row, with [str] on its text cells. *)
Definition song_info (s : Song) : SongInfo :=
  {| title := str (track_name s);
     artist := str (track_artist s);
     album := str (track_album_name s);
     popularity := track_popularity s;
     genre := str (playlist_genre s);
     duration := duration_ms s / 1000 |}.

(** The three row masks of the search. *)
Definition title_is (q : string) (s : Song) : bool := equals q (lowered (track_name s)).
Definition title_contains (q : string) (s : Song) : bool := contains q (lowered (track_name s)).
Definition artist_contains (q : string) (s : Song) : bool := contains q (lowered (track_artist s)).

(** The loop over the close matches. *)
Fixpoint first_resolving (df : DataFrame) (similar_songs : list string) : list nat :=
  match similar_songs with
  | [] => []
  | similar_song :: rest =>
      match index (select (title_is similar_song) df) with
      | [] => first_resolving df rest
      | song_idx => song_idx
      end
  end.

(** The strings among the values of a column. *)
Definition strings (values : list (option string)) : list string :=
  flat_map (fun v => match v with Some t => [t] | None => [] end) values.

Section Libraries.

(** [pd.read_csv] reads the column as text: its cells are strings and
    missing values, and its dtype is [object]. It does not when every cell
    that is present is a number, or every one a boolean, or when none is
    present in a file with rows. *)
Variable text_column : list string -> bool.

(** A binary64 number. *)
Variable number : Type.

(** [StandardScaler().fit_transform(X)] *)
Variable fit_transform : list (list Q) -> list (list number).

(** [cosine_similarity(X, Y)], which raises [ValueError] on an entry that
    is not finite. *)
Variable cosine_similarity : list (list number) -> list (list number) -> exc (list (list number)).

(** [np.argsort(a)] *)
Variable argsort : list number -> list nat.

(** [get_close_matches(word, possibilities, n=5, cutoff=0.6)] on strings. *)
Variable get_close_matches : string -> list string -> list string.

(** [series.str], which raises [AttributeError] on a column that is not
    text. *)
Definition str_accessor (cells : list string) : exc unit :=
  if text_column cells then Ok tt
  else Raise "Can only use .str accessor with string values!".

(** [get_close_matches] of [difflib] takes the length of each possibility:
    a missing value, a [float], raises [TypeError]. *)
Definition close_matches (word : string) (possibilities : list (option string))
  : exc (list string) :=
  if forallb (fun v => match v with Some _ => true | None => false end) possibilities
  then Ok (get_close_matches word (strings possibilities))
  else Raise "object of type 'float' has no len()".

(** The search cascade (lines 250-275). *)
Definition resolve (df : DataFrame) (song_name : string) : exc (list nat * list string) :=
  titles <- str_accessor (map (fun r => track_name (snd r)) df) ;;
  match index (select (title_is song_name) df) with
  | (_ :: _) as song_idx => Ok (song_idx, [])
  | [] =>
    match index (select (title_contains song_name) df) with
    | (_ :: _) as song_idx => Ok (song_idx, [])
    | [] =>
      artists <- str_accessor (map (fun r => track_artist (snd r)) df) ;;
      match index (select (artist_contains song_name) df) with
      | (_ :: _) as song_idx => Ok (song_idx, [])
      | [] =>
        let all_songs := map (fun r => lowered (track_name (snd r))) df in
        similar_songs <- close_matches song_name all_songs ;;
        Ok (first_resolving df similar_songs, similar_songs)
      end
    end
  end.

(** A recommendation, with the score as computed. *)
Record Recommendation := mkRec { rec_song : SongInfo; similarity_score : number }.

(** What [get_recommendations] returns: ['error': False] with the
    recommendations and the input song, or ['error': True] with a message
    and suggestions. *)
Inductive Result :=
| Found (recommendations : list Recommendation) (input_song : SongInfo)
| Failed (message : string) (suggestions : list string).

(** [self.song_features], set by [_prepare_data]. *)
Definition song_features (rows : list Song) : list (list number) :=
  fit_transform (map features rows).

(** [cosine_similarity([self.song_features[song_idx]], self.song_features)[0]] *)
Definition similarity_scores (rows : list Song) (song_idx : nat) : exc (list number) :=
  query <- at_index (song_features rows) song_idx ;;
  similarities <- cosine_similarity [query] (song_features rows) ;;
  at_index similarities 0.

(** The loop of lines 296-312. *)
Fixpoint recommendations_of (df : DataFrame) (similarity_scores : list number)
    (min_popularity : Z) (top_indices : list nat) : exc (list Recommendation) :=
  match top_indices with
  | [] => Ok []
  | idx :: rest =>
      song <- at_index df idx ;;
      if min_popularity <=? track_popularity (snd song) then
        score <- at_index similarity_scores idx ;;
        recommendations <- recommendations_of df similarity_scores min_popularity rest ;;
        Ok ({| rec_song := song_info (snd song); similarity_score := score |}
            :: recommendations)
      else recommendations_of df similarity_scores min_popularity rest
  end.

(** Lines 285-334, for a resolved [song_idx]. *)
Definition recommend (rows : list Song) (song_idx : nat)
    (num_recommendations min_popularity : Z) : exc (list Recommendation * SongInfo) :=
  found_song <- at_index (data rows) song_idx ;;
  similarity_scores <- similarity_scores rows song_idx ;;
  let top_indices :=
    rev (slice (argsort similarity_scores) (- num_recommendations - 1) (- 1)) in
  recommendations <-
    recommendations_of (data rows) similarity_scores min_popularity top_indices ;;
  Ok (recommendations, song_info (snd found_song)).

(** The method, with its handler (line 335). *)
Definition get_recommendations (rows : list Song) (song_name : string)
    (num_recommendations min_popularity : Z) : Result :=
  let song_name := Str.strip (Str.lower song_name) in
  let run :=
    found <- resolve (data rows) song_name ;;
    match fst found with
    | [] => Ok (Failed (not_found_message song_name) (firstn 3 (snd found)))
    | song_idx :: _ =>
        answer <- recommend rows song_idx num_recommendations min_popularity ;;
        Ok (Found (fst answer) (snd answer))
    end in
  match run with
  | Ok result => result
  | Raise e => Failed ("Error getting recommendations: " ++ e)%string []
  end.

(** A fitted scaler, as [scaler.joblib] holds it. *)
Variable Scaler : Type.

(** [scaler.transform(X)] *)
Variable transform : Scaler -> list (list Q) -> exc (list (list number)).

(** [predict_fn] of [sagemaker_endpoint.py]. *)
Definition predict_fn (input_data : Event) (model : list (list number) * Scaler)
  : exc (list nat * list number) :=
  let (model, scaler) := model in
  song_features <- input_features input_data ;;
  song_features_scaled <- transform scaler [song_features] ;;
  similarities <- cosine_similarity song_features_scaled model ;;
  similarities_0 <- at_index similarities 0 ;;
  let top_indices := rev (slice_from (argsort similarities_0) (- 5)) in
  top_similarities <- for_each (at_index similarities_0) top_indices ;;
  Ok (top_indices, top_similarities).

(** A dictionary of the Lambda response: the cells of the text columns go
    into it as the metadata holds them, strings or missing values when the
    columns are text. *)
Record Suggestion := mkSuggestion {
  suggested_track : option string;
  suggested_artist : option string;
  suggested_album : option string;
  suggested_popularity : Z;
  suggested_genre : option string;
  suggested_score : number
}.

(** The body of the response, before [json.dumps]. *)
Inductive Body :=
| Suggestions (recommendations : list Suggestion)
| Error (error : string).

Record Response := mkResponse { statusCode : Z; body : Body }.

(** [lambda_handler] of [lambda_function.py]; [loaded] is what
    [load_model_from_s3] returns or raises, the metadata being the rows of
    the catalogue that [prepare_model] saved. Every exception ends in the
    response with status 500. *)
Definition lambda_handler (loaded : exc (list (list number) * Scaler * DataFrame))
    (event : Event) : Response :=
  let run :=
    files <- loaded ;;
    let '(model, scaler, metadata) := files in
    song_features <- input_features event ;;
    song_features_scaled <- transform scaler [song_features] ;;
    similarities <- cosine_similarity song_features_scaled model ;;
    similarities_0 <- at_index similarities 0 ;;
    let top_indices := rev (slice_from (argsort similarities_0) (- 5)) in
    top_similarities <- for_each (at_index similarities_0) top_indices ;;
    for_each (fun p =>
                song <- at_index metadata (fst p) ;;
                Ok {| suggested_track := read_text (track_name (snd song));
                      suggested_artist := read_text (track_artist (snd song));
                      suggested_album := read_text (track_album_name (snd song));
                      suggested_popularity := track_popularity (snd song);
                      suggested_genre := read_text (playlist_genre (snd song));
                      suggested_score := snd p |})
             (combine top_indices top_similarities) in
  match run with
  | Ok recommendations => {| statusCode := 200; body := Suggestions recommendations |}
  | Raise e => {| statusCode := 500; body := Error e |}
  end.

End Libraries.

Arguments rec_song {number} _.
Arguments similarity_score {number} _.
Arguments Found {number} _ _.
Arguments Failed {number} _ _.
Arguments song_features {number} _ _.
Arguments similarity_scores {number} _ _ _ _.
Arguments recommendations_of {number} _ _ _ _.
Arguments recommend {number} _ _ _ _ _ _ _.
Arguments get_recommendations _ {number} _ _ _ _ _ _ _ _.
Arguments predict_fn {number} _ _ {Scaler} _ _ _.
Arguments suggested_score {number} _.
Arguments Suggestions {number} _.
Arguments Error {number} _.
Arguments statusCode {number} _.
Arguments body {number} _.
Arguments lambda_handler {number} _ _ {Scaler} _ _ _.

End Runtime.

(** ** The scaler and the cosine similarity in binary64 *)

(** The two calls as scikit-learn 1.x computes them on float64 arrays, with
    the sums taken from left to right. *)
Module Binary64.

Definition float : Set := PrimFloat.float.

(** [float(z)] for an integer below 2^63 in absolute value. *)
Definition of_Z (z : Z) : float :=
  match z with
  | Zneg p => PrimFloat.opp (PrimFloat.of_uint63 (Uint63.of_Z (Zpos p)))
  | _ => PrimFloat.of_uint63 (Uint63.of_Z z)
  end.

(** The float read for a CSV number: the quotient of its numerator and
    denominator, rounded once. *)
Definition of_Q (q : Q) : float := PrimFloat.div (of_Z (Qnum q)) (of_Z (Zpos (Qden q))).

(** [np.finfo(np.float64).eps], 2^-52 *)
Definition eps : float := PrimFloat.div (of_Z 1) (of_Z 4503599627370496).

(** [np.isfinite]: the difference of a number with itself is zero unless
    the number is infinite or not a number. *)
Definition is_finite (x : float) : bool := PrimFloat.eqb (PrimFloat.sub x x) (of_Z 0).

(** [np.isnan] *)
Definition is_nan (x : float) : bool := negb (PrimFloat.eqb x x).

(** [np.sum] *)
Definition sum (l : list float) : float := fold_left PrimFloat.add l (of_Z 0).

(** [X[:, c]] *)
Definition column (X : list (list float)) (c : nat) : list float :=
  map (fun row => nth c row (of_Z 0)) X.

(** [_incremental_mean_and_var] on the first batch: the mean and the
    variance of a column. *)
Definition mean_and_var (col : list float) : float * float :=
  let n := of_Z (len col) in
  let new_sum := sum col in
  let T := PrimFloat.div new_sum n in
  let temp := map (fun x => PrimFloat.sub x T) col in
  let correction := sum temp in
  let new_unnormalized_variance :=
    PrimFloat.sub (sum (map (fun t => PrimFloat.mul t t) temp))
                  (PrimFloat.div (PrimFloat.mul correction correction) n) in
  (PrimFloat.div new_sum n, PrimFloat.div new_unnormalized_variance n).

(** [_is_constant_feature]: the variance is within the rounding error of
    its computation. *)
Definition is_constant_feature (var mean n_samples : float) : bool :=
  let upper_bound :=
    PrimFloat.add (PrimFloat.mul (PrimFloat.mul n_samples eps) var)
      (let e := PrimFloat.mul (PrimFloat.mul n_samples mean) eps in PrimFloat.mul e e) in
  PrimFloat.leb var upper_bound.

(** The fitted scaler: [mean_] and [scale_], per column. *)
Record Scaler := mkScaler { mean_ : list float; scale_ : list float }.

(** [StandardScaler.fit]: the scale of a column is the square root of its
    variance, and one for a constant column ([_handle_zeros_in_scale]). *)
Definition fit (X : list (list float)) : Scaler :=
  let n_samples := of_Z (len X) in
  let stats := map (fun c => mean_and_var (column X c)) (seq 0 n_features) in
  {| mean_ := map fst stats;
     scale_ := map (fun mv => if is_constant_feature (snd mv) (fst mv) n_samples
                              then of_Z 1 else PrimFloat.sqrt (snd mv)) stats |}.

(** [X -= mean_; X /= scale_] *)
Definition transform_rows (st : Scaler) (X : list (list float)) : list (list float) :=
  map (fun row => zip_with PrimFloat.div (zip_with PrimFloat.sub row (mean_ st)) (scale_ st)) X.

(** [StandardScaler().fit_transform(X)] *)
Definition fit_transform (X : list (list Q)) : list (list float) :=
  let X := map (map of_Q) X in transform_rows (fit X) X.

(** The text of the [ValueError] raised for an entry that is not finite. *)
Definition not_finite : string :=
  "Input contains infinity or a value too large for dtype('float64').".

(** [scaler.transform(X)], which refuses an infinite entry. *)
Definition transform (st : Scaler) (X : list (list Q)) : exc (list (list float)) :=
  let X := map (map of_Q) X in
  if forallb (forallb (fun x => is_finite x || is_nan x)) X
  then Ok (transform_rows st X) else Raise not_finite.

(** [np.dot] of two rows *)
Definition dot (u v : list float) : float := sum (zip_with PrimFloat.mul u v).

(** [normalize]: each row divided by its Euclidean norm, a norm below
    [10 * eps] being replaced by one. *)
Definition normalize (X : list (list float)) : list (list float) :=
  map (fun u =>
         let norm := PrimFloat.sqrt (dot u u) in
         let norm :=
           if PrimFloat.ltb norm (PrimFloat.mul (of_Z 10) eps) then of_Z 1 else norm in
         map (fun a => PrimFloat.div a norm) u) X.

(** [cosine_similarity(X, Y)]: the dot products of the normalised rows.
    Nothing brings a result back into [-1, 1]. *)
Definition cosine_similarity (X Y : list (list float)) : exc (list (list float)) :=
  if forallb (forallb is_finite) X && forallb (forallb is_finite) Y then
    let Y_normalized := normalize Y in
    Ok (map (fun u => map (dot u) Y_normalized) (normalize X))
  else Raise not_finite.

(** The order [np.argsort] sorts float64 by: [<=], a [NaN] being above
    every number. *)
Definition le (x y : float) : bool := PrimFloat.leb x y || is_nan y.

(** Insertion of an index before the first index whose value is not
    smaller. *)
Fixpoint insert_sorted (x : nat * float) (l : list (nat * float)) : list (nat * float) :=
  match l with
  | [] => [x]
  | y :: l' => if le (snd x) (snd y) then x :: l else y :: insert_sorted x l'
  end.

(** [np.argsort(a)] by insertion, as numpy's scalar quicksort sorts an
    array of up to 17 entries: one of the orders that keep the promise of
    [np.argsort]. *)
Definition argsort (a : list float) : list nat :=
  map fst (fold_right insert_sorted [] (enumerate_from 0 a)).

End Binary64.

(** * The vocabulary of the statements *)

(** ** Rows and queries *)

(** [first_row p rows j]: row [j] is the earliest row of the catalogue that
    satisfies [p]. *)
Definition first_row (p : Song -> bool) (rows : list Song) (j : nat) : Prop :=
  (exists s, nth_error rows j = Some s /\ p s = true)
  /\ forall i s, (i < j)%nat -> nth_error rows i = Some s -> p s = false.

(** No row satisfies [p]. *)
Definition no_row (p : Song -> bool) (rows : list Song) : Prop :=
  forall s, In s rows -> p s = false.

(** The query as the search sees it. *)
Definition normalized (song_name : string) : string := Str.strip (Str.lower song_name).


(** [all_songs]: the lower-cased titles, in catalogue order. *)
Definition all_songs (rows : list Song) : list string :=
  map (fun r => Str.lower (track_name (snd r))) (data rows).

(** What the four steps amount to, for the normalised query [q] and the
    close matches [similar]: the earliest row of the first step that matches
    any row; for the fuzzy step, the earliest row titled as the first close
    match that is a title. *)
Inductive resolution (rows : list Song) (q : string) (similar : list string)
  : option nat -> Prop :=
| by_title j :
    first_row (title_is q) rows j ->
    resolution rows q similar (Some j)
| by_title_part j :
    no_row (title_is q) rows ->
    first_row (title_contains q) rows j ->
    resolution rows q similar (Some j)
| by_artist j :
    no_row (title_is q) rows -> no_row (title_contains q) rows ->
    first_row (artist_contains q) rows j ->
    resolution rows q similar (Some j)
| by_close_match before candidate after j :
    no_row (title_is q) rows -> no_row (title_contains q) rows ->
    no_row (artist_contains q) rows ->
    similar = (before ++ candidate :: after)%list ->
    (forall c, In c before -> no_row (title_is c) rows) ->
    first_row (title_is candidate) rows j ->
    resolution rows q similar (Some j)
| unresolved :
    no_row (title_is q) rows -> no_row (title_contains q) rows ->
    no_row (artist_contains q) rows ->
    (forall c, In c similar -> no_row (title_is c) rows) ->
    resolution rows q similar None.

Section Query.

Variable get_close_matches : string -> list string -> list string.

(** [similar_songs], had the fuzzy step run. *)
Definition close_matches (rows : list Song) (song_name : string) : list string :=
  get_close_matches (normalized song_name) (all_songs rows).

(** The row [song_idx[0]] the request is answered for, if any. *)
Definition resolved_row (rows : list Song) (song_name : string) : option nat :=
  hd_error (fst (resolve get_close_matches (data rows) (normalized song_name))).

End Query.

(** ** Rankings *)

(** Ascending order of (index, score) pairs: by score, and by index among
    equal scores. *)
Definition ascending (x y : nat * sqrt_quot) : Prop :=
  score_leb (snd x) (snd y) = true
  /\ (score_leb (snd y) (snd x) = true -> (fst x < fst y)%nat).

(** The order of a ranking: best score first, and among equal scores the
    larger index first. *)
Definition ranked_before (x y : nat * sqrt_quot) : Prop := ascending y x.

(** The sorted (index, score) pairs whose indices [argsort] returns. *)
Definition sorted_pairs (a : list sqrt_quot) : list (nat * sqrt_quot) :=
  fold_right insert_sorted [] (enumerate_from 0 a).


(** [scores[i]], for an index in range. *)
Definition score_at (scores : list sqrt_quot) (i : nat) : sqrt_quot :=
  nth i scores (mkSQ 0 1).

(** The default of [row_at], never met for an index in range. *)
Definition no_song : Song := mkSong "" "" "" 0 "" 0 0 0 0 0 0 0 0 0.

(** Row [i] of the catalogue. *)
Definition row_at (rows : list Song) (i : nat) : Song := nth i rows no_song.

(** The scores of all rows against row [song_idx]. *)
Definition scores_of (rows : list Song) (song_idx : nat) : list sqrt_quot :=
  cosine_similarity (scale_sq (scaler rows))
    (nth song_idx (song_features rows) []) (song_features rows).

(** The test of line 303. *)
Definition popular_enough (min_popularity : Z) (r : nat * Song) : bool :=
  min_popularity <=? track_popularity (snd r).

(** The labelled rows a request returns, for the resolved row [song_idx]. *)
Definition kept_rows (rows : list Song) (song_idx : nat) (k min_popularity : Z)
  : list (nat * Song) :=
  filter (popular_enough min_popularity)
    (map (fun i => (i, row_at rows i)) (top_indices (scores_of rows song_idx) k)).

(** The dictionary of lines 304-312 for the labelled row [r]. *)
Definition recommendation_of (scores : list sqrt_quot) (r : nat * Song) : Recommendation :=
  {| rec_song := song_info (snd r); similarity_score := score_at scores (fst r) |}.

(** The real number a [sqrt_quot] stands for. *)
Definition value (x : sqrt_quot) : R := (Q2R (num x) / sqrt (Q2R (rad x)))%R.

(** ** The formulas of sklearn, over the real numbers *)

(** [_handle_zeros_in_scale] *)
Definition Rhandle_zeros (x : R) : R := if Req_dec_T x 0 then 1%R else x.

(** [np.dot] of two rows *)
Fixpoint Rdot (x y : list R) : R :=
  match x, y with
  | a :: x', b :: y' => (a * b + Rdot x' y')%R
  | _, _ => 0%R
  end.

(** [normalize]: the row divided by its Euclidean norm, a zero norm being
    replaced by one. *)
Definition Rnormalize (x : list R) : list R :=
  map (fun a => (a / Rhandle_zeros (sqrt (Rdot x x)))%R) x.

(** [cosine_similarity]: the dot product of the normalised rows. *)
Definition Rcosine (x y : list R) : R := Rdot (Rnormalize x) (Rnormalize y).

(** [StandardScaler]: [(x - mean_) / scale_], the scale being the standard
    deviation with zero replaced by one. *)
Definition Rstandardize (x mean_c var_c : R) : R :=
  ((x - mean_c) / Rhandle_zeros (sqrt var_c))%R.

(** The real numbers a row of numerators stands for, given the squared
    scales of the columns. *)
Definition real_row (s2 u : list Q) : list R :=
  zip_with (fun a r => (Q2R a / sqrt (Q2R r))%R) u s2.

(** ** Samples and dictionaries *)

(** What a sample of [n] rows of [df] must be: rows of [df] with distinct
    labels, [n] of them or all of [df] when [df] has at most [n] rows. *)
Definition sampled (df : DataFrame) (n : Z) (picked : list (nat * Song)) : Prop :=
  NoDup (index picked)
  /\ incl picked df
  /\ len picked = Z.min n (len df)
  /\ (len df <= n -> Permutation picked df).


(** ** Genres, floors, searches and requests *)

(** The two masks of [get_genre_recommendations], on the lower-cased
    column. *)
Definition genre_is (genre : string) (s : Song) : bool :=
  String.eqb (Str.lower (playlist_genre s)) genre.
Definition genre_contains (genre : string) (s : Song) : bool :=
  Str.contains genre (Str.lower (playlist_genre s)).

(** The rows [genre_data] holds for a request: those of the genre, or when
    no row is of the genre, those whose genre contains it. *)
Definition genre_data (rows : list Song) (genre : string) : DataFrame :=
  if existsb (genre_is (Str.lower genre)) rows
  then select (genre_is (Str.lower genre)) (data rows)
  else select (genre_contains (Str.lower genre)) (data rows).

(** The popularity filter of the random and keyword operations: a floor
    that is not positive filters nothing. *)
Definition passes_floor (min_popularity : Z) (s : Song) : bool :=
  (min_popularity <=? 0) || (min_popularity <=? track_popularity s).

(** The query occurs in the title, the artist or the album. *)
Definition matches (q : string) (s : Song) : bool :=
  title_contains q s || artist_contains q s || album_contains q s.

(** [all_matches] of [search_songs], for the lower-cased query. *)
Definition all_matches (rows : list Song) (q : string) : DataFrame :=
  drop_duplicates (select (title_contains q) (data rows)
                   ++ select (artist_contains q) (data rows)
                   ++ select (album_contains q) (data rows)).

(** The number of rows of a genre. *)
Definition songs_of_genre (rows : list Song) (g : string) : nat :=
  List.length (filter (fun s => String.eqb (playlist_genre s) g) rows).


(** The request that carries the features [x]. *)
Definition event_of (x : list Q) : Event :=
  fun key =>
    match find (fun p => String.eqb (fst p) key) (combine feature_names x) with
    | Some p => Some (snd p)
    | None => None
    end.

(** ** The recommender as it runs *)

(** What [np.argsort] promises of its result for an array [a] without
    [NaN]: the indices of [a], each once, in an order in which the values
    ascend with respect to [le], the order [<=] of the numbers. Nothing is
    promised of the order of equal values. *)
Definition sorts {number} (le : number -> number -> bool) (a : list number)
    (order : list nat) : Prop :=
  Permutation order (seq 0 (List.length a))
  /\ StronglySorted
       (fun i j => forall x y, nth_error a i = Some x -> nth_error a j = Some y ->
                               le x y = true) order.

(** The same, as a test. *)
Fixpoint ascends {number} (le : number -> number -> bool) (a : list number)
    (order : list nat) : bool :=
  match order with
  | [] => true
  | i :: rest =>
      forallb (fun j => match nth_error a i, nth_error a j with
                        | Some x, Some y => le x y
                        | _, _ => true
                        end) rest
      && ascends le a rest
  end.

Definition sortsb {number} (le : number -> number -> bool) (a : list number)
    (order : list nat) : bool :=
  (List.length order =? List.length a)%nat
  && forallb (fun i => existsb (Nat.eqb i) order) (seq 0 (List.length a))
  && ascends le a order.

(** The order of the indices of a ranking: the scores do not increase. *)
Definition descending {number} (le : number -> number -> bool) (a : list number)
    (i j : nat) : Prop :=
  forall x y, nth_error a i = Some x -> nth_error a j = Some y -> le y x = true.

(** The title of the row is not a missing value. *)
Definition has_title (s : Song) : bool := negb (Runtime.missing (track_name s)).

(** The text cells of the catalogue are all present: none is read as a
    missing value. *)
Definition plain_text (rows : list Song) : bool :=
  forallb (fun s => negb (Runtime.missing (track_name s))
                    && negb (Runtime.missing (track_artist s))
                    && negb (Runtime.missing (track_album_name s))
                    && negb (Runtime.missing (playlist_genre s))) rows.

Section Answers.

Variable number : Type.
Variable fit_transform : list (list Q) -> list (list number).
Variable cosine_similarity : list (list number) -> list (list number) -> exc (list (list number)).
Variable argsort : list number -> list nat.

(** The sort keeps its promise on the score arrays of the catalogue. *)
Definition sorted_scores (le : number -> number -> bool) (rows : list Song) : Prop :=
  forall song_idx scores,
    Runtime.similarity_scores fit_transform cosine_similarity rows song_idx = Ok scores ->
    sorts le scores (argsort scores).

(** The answer to a request that resolved to row [song_idx]: the result of
    lines 285-334, or the record of the handler. *)
Definition answer (rows : list Song) (song_idx : nat) (k m : Z) : Runtime.Result number :=
  match Runtime.recommend fit_transform cosine_similarity argsort rows song_idx k m with
  | Ok (recommendations, input_song) => Runtime.Found recommendations input_song
  | Raise e => Runtime.Failed ("Error getting recommendations: " ++ e)%string []
  end.

(** The rows a dictionary is appended for, given the scores: the slice of
    the sort, reversed, less the rows below the floor. *)
Definition kept_indices (rows : list Song) (scores : list number) (k m : Z) : list nat :=
  filter (fun idx => m <=? track_popularity (row_at rows idx))
    (rev (slice (argsort scores) (- k - 1) (- 1))).

(** The dictionary of lines 304-312 for row [idx]. *)
Definition dictionary (rows : list Song) (scores : list number) (idx : nat)
  : option (Runtime.Recommendation number) :=
  option_map (fun score => {| Runtime.rec_song := Runtime.song_info (row_at rows idx);
                              Runtime.similarity_score := score |})
    (nth_error scores idx).

End Answers.

Arguments sorted_scores {number} _ _ _ _ _.
Arguments answer {number} _ _ _ _ _ _ _.
Arguments kept_indices {number} _ _ _ _ _.
Arguments dictionary {number} _ _ _.

(** The dictionary of the Lambda response for row [idx] of the metadata. *)
Definition suggestion {number} (metadata : DataFrame) (scores : list number) (idx : nat)
  : option (Runtime.Suggestion number) :=
  match nth_error metadata idx, nth_error scores idx with
  | Some song, Some score =>
      Some {| Runtime.suggested_track := Runtime.read_text (track_name (snd song));
              Runtime.suggested_artist := Runtime.read_text (track_artist (snd song));
              Runtime.suggested_album := Runtime.read_text (track_album_name (snd song));
              Runtime.suggested_popularity := track_popularity (snd song);
              Runtime.suggested_genre := Runtime.read_text (playlist_genre (snd song));
              Runtime.suggested_score := score |}
  | _, _ => None
  end.

(** The four text columns of the metadata are read as text. *)
Definition text_columns (text_column : list string -> bool) (metadata : DataFrame) : bool :=
  text_column (map (fun r => track_name (snd r)) metadata)
  && text_column (map (fun r => track_artist (snd r)) metadata)
  && text_column (map (fun r => track_album_name (snd r)) metadata)
  && text_column (map (fun r => playlist_genre (snd r)) metadata).

(** The response with status 500 for the exception [e]. *)
Definition failure {number} (e : string) : Runtime.Response number :=
  {| Runtime.statusCode := 500; Runtime.body := Runtime.Error e |}.

(** Steps two and three of the search read the query as a regular
    expression; [runtime_literal rows song_name]: the request stops at step
    one, or its query has no operator. *)
Definition runtime_literal (rows : list Song) (song_name : string) : bool :=
  existsb (Runtime.title_is (normalized song_name)) rows
  || Str.regex_literal (normalized song_name).

(** ** Catalogues and inputs of the examples *)

(** A close-match search that finds nothing. *)
Definition no_close_matches (word : string) (possibilities : list string) : list string := [].

(** A generator that always draws zero. *)
Definition zeros : RandomState := fun _ => O.

(** The titles a result recommends, in order. *)
Definition titles (r : Result) : list string :=
  match r with
  | Recommendations recs _ => map (fun x => title (rec_song x)) recs
  | ErrorResult _ _ => []
  end.

(** A row with the given title, artist, popularity, energy, valence and
    danceability; the other columns are the same in every example. *)
Definition song (name by_artist : string) (pop : Z) (e v d : Q) : Song :=
  {| track_name := name; track_artist := by_artist; track_album_name := "Album";
     track_popularity := pop; playlist_genre := "pop"; duration_ms := 215999;
     energy := e; tempo := 120; danceability := d; loudness := -5;
     liveness := 1 # 4; valence := v; speechiness := 0; acousticness := 1 # 4 |}.

(** The scenario of the specification: an exact title and a near title. *)
Definition shape_catalogue : list Song :=
  [song "Shape of You" "Ed Sheeran" 90 0.65 0.9 0.8;
   song "Shape of U" "X" 10 0.4 0.3 0.5].

(** A title with a leading space, after a title that contains it. *)
Definition padded_catalogue : list Song :=
  [song "Hello World" "A" 50 (1 # 2) (1 # 2) (1 # 2);
   song " Hello" "B" 10 (3 # 4) (1 # 4) (1 # 2)].

(** Two rows with the same features, and a third. *)
Definition duplicate_catalogue : list Song :=
  [song "Song A" "X" 80 (3 # 4) 1 (1 # 2);
   song "Song A (Remastered)" "X" 70 (3 # 4) 1 (1 # 2);
   song "Song C" "Y" 60 (1 # 4) 0 (1 # 2)].

(** The nearest neighbour of the first row is unpopular. *)
Definition floor_catalogue : list Song :=
  [song "Q" "X" 50 1 1 1;
   song "Near" "X" 10 (3 # 4) 1 (3 # 4);
   song "Mid" "Y" 90 (1 # 2) (3 # 4) 0;
   song "Far" "Y" 95 0 0 (1 # 4)].

(** Two rows tie against the first. *)
Definition tie_catalogue : list Song :=
  [song "Q" "X" 50 1 1 1;
   song "Twin 1" "X" 10 (1 # 2) (3 # 4) 0;
   song "Twin 2" "Y" 90 (1 # 2) (3 # 4) 0;
   song "Far" "Y" 95 0 0 (1 # 4)].

(** A row with the given title, artist, genre, popularity, energy, valence
    and acousticness. *)
Definition entry (name by_artist in_genre : string) (pop : Z) (e v a : Q) : Song :=
  {| track_name := name; track_artist := by_artist; track_album_name := "Album";
     track_popularity := pop; playlist_genre := in_genre; duration_ms := 215999;
     energy := e; tempo := 120; danceability := 1 # 2; loudness := -5;
     liveness := 1 # 4; valence := v; speechiness := 0; acousticness := a |}.

(** Four genres, two rows with a keyword of the Indian list. *)
Definition genre_catalogue : list Song :=
  [entry "Tum Hi Ho" "Arijit Singh" "Indian Pop" 85 (1 # 2) (1 # 4) (3 # 4);
   entry "Happy" "Pharrell Williams" "pop" 90 (4 # 5) (9 # 10) (1 # 4);
   entry "Gangnam Style" "PSY" "K-Pop" 70 (9 # 10) (3 # 4) (1 # 10);
   entry "Jai Ho" "A. R. Rahman" "World" 40 (7 # 10) (4 # 5) (1 # 4)].

(** A title that is also an artist's name, and a row listed twice. *)
Definition search_catalogue : list Song :=
  [song "Love Story" "Taylor Swift" 80 (1 # 2) (1 # 2) (1 # 2);
   song "Bad Blood" "Taylor Swift" 70 (3 # 4) (1 # 4) (1 # 2);
   song "Taylor" "Jack Johnson" 40 (1 # 4) (3 # 4) (1 # 2);
   song "Love Story" "Taylor Swift" 80 (1 # 2) (1 # 2) (1 # 2)].

(** The columns of the examples hold no number and no boolean: such a
    column is read as text when one of its cells is present. *)
Definition text_cells (cells : list string) : bool :=
  existsb (fun cell => negb (Runtime.missing cell)) cells.

(** The library calls in exact arithmetic, on rows of numbers [a / sqrt r]
    that share their radicands column by column, as the rows of one
    standardised matrix do. *)
Definition exact_fit_transform (X : list (list Q)) : list (list sqrt_quot) :=
  map (fun row => zip_with mkSQ row (scale_sq (fit X))) (transform (fit X) X).

Definition exact_dot (u v : list sqrt_quot) : Q := dot (map rad u) (map num u) (map num v).

Definition exact_cosine_similarity (X Y : list (list sqrt_quot))
  : exc (list (list sqrt_quot)) :=
  Ok (map (fun u =>
             map (fun v => mkSQ (exact_dot u v)
                             (handle_zeros (exact_dot u u) * handle_zeros (exact_dot v v))) Y)
        X).

Definition exact_transform (st : ScalerState) (X : list (list Q))
  : exc (list (list sqrt_quot)) :=
  Ok (map (fun row => zip_with mkSQ row (scale_sq st)) (transform st X)).

(** The second title is an empty cell. *)
Definition untitled_catalogue : list Song :=
  [song "Shape of You" "Ed Sheeran" 90 0.65 0.9 0.8;
   song "" "X" 10 0.4 0.3 0.5].

(** The first title is an empty cell. *)
Definition untitled_first_catalogue : list Song :=
  [song "" "X" 10 0.4 0.3 0.5;
   song "Shape of You" "Ed Sheeran" 90 0.65 0.9 0.8;
   song "Shape of U" "X" 10 (1 # 2) (1 # 2) (1 # 2)].

(** [1 + eps], the binary64 number after one. *)
Definition above_one : Binary64.float := PrimFloat.add (Binary64.of_Z 1) Binary64.eps.

(** * Properties *)

(** ** Strings *)

Module StrFacts.
Import Str.

Lemma contains_empty (s : string) : contains "" s = true.
Proof. destruct s; reflexivity. Qed.

Lemma prefix_app (pat s : string) :
  String.prefix pat s = true <-> exists b, s = (pat ++ b)%string.
Proof.
  revert s; induction pat as [|c pat IH]; intros s; simpl.
  - split; [intros _; now exists s | now destruct s].
  - destruct s as [|d s]; simpl.
    + split; [discriminate | intros [b Hb]; discriminate].
    + destruct (ascii_dec c d) as [->|Hcd].
      * rewrite IH. split; intros [b Hb]; exists b; [now rewrite Hb | now injection Hb].
      * split; [discriminate | intros [b Hb]; injection Hb; intros; now subst].
Qed.

(** [contains] decides the occurrence of [pat] as a substring. *)
Lemma contains_spec (pat s : string) :
  contains pat s = true <-> exists a b, s = (a ++ pat ++ b)%string.
Proof.
  induction s as [|c s IH]; cbn [contains].
  - rewrite orb_false_r, prefix_app. split.
    + intros [b Hb]. now exists ""%string, b.
    + intros [a [b Hab]]. destruct a; [now exists b | discriminate].
  - rewrite orb_true_iff, prefix_app, IH. split.
    + intros [[b Hb] | [a [b Hab]]].
      * now exists ""%string, b.
      * exists (String c a), b. simpl. now rewrite Hab.
    + intros [a [b Hab]]. destruct a as [|d a]; simpl in Hab.
      * left. now exists b.
      * right. injection Hab as _ Hs. now exists a, b.
Qed.

Lemma lower_char_space (c : ascii) : is_space c = true -> lower_char c = c.
Proof.
  unfold is_space, lower_char. intros H.
  destruct (((65 <=? nat_of_ascii c) && (nat_of_ascii c <=? 90)
             || (192 <=? nat_of_ascii c) && (nat_of_ascii c <=? 222)
                && negb (nat_of_ascii c =? 215))%nat) eqn:E; [|reflexivity].
  exfalso.
  repeat (rewrite ?orb_true_iff, ?andb_true_iff, ?Nat.leb_le, ?Nat.eqb_eq in H).
  repeat (rewrite ?orb_true_iff, ?andb_true_iff, ?Nat.leb_le, ?Nat.eqb_eq in E).
  lia.
Qed.

(** A query of white space only is normalised to the empty string. *)
Lemma strip_lower_whitespace (q : string) :
  whitespace_only q = true -> strip (lower q) = ""%string.
Proof.
  unfold strip. induction q as [|c q IH]; simpl; [reflexivity|].
  rewrite andb_true_iff. intros [Hc Hq].
  rewrite (lower_char_space c Hc), Hc. now apply IH.
Qed.

End StrFacts.

(** ** Rows selected by a mask *)

Lemma first_row_unique p rows i j : first_row p rows i -> first_row p rows j -> i = j.
Proof.
  intros [[s [Hs Hp]] Hi] [[t [Ht Hq]] Hj].
  destruct (Nat.lt_trichotomy i j) as [H|[H|H]]; [|assumption|].
  - rewrite (Hj i s H Hs) in Hp. discriminate.
  - rewrite (Hi j t H Ht) in Hq. discriminate.
Qed.

Lemma first_row_not_no_row p rows j : first_row p rows j -> no_row p rows -> False.
Proof.
  intros [[s [Hs Hp]] _] Hn. apply nth_error_In in Hs. rewrite (Hn s Hs) in Hp. discriminate.
Qed.

Lemma enumerate_from_length {A} (n : nat) (l : list A) :
  List.length (enumerate_from n l) = List.length l.
Proof. revert n; induction l; intros; simpl; auto. Qed.

Lemma enumerate_from_nth {A} (n i : nat) (l : list A) :
  nth_error (enumerate_from n l) i =
  match nth_error l i with Some x => Some ((n + i)%nat, x) | None => None end.
Proof.
  revert n i; induction l as [|x l IH]; intros n [|i]; simpl; try reflexivity.
  - now rewrite Nat.add_0_r.
  - rewrite IH. destruct (nth_error l i); [|reflexivity]. do 2 f_equal. lia.
Qed.

Lemma select_enumerate_cases (p : Song -> bool) (n : nat) (l : list Song) :
  match index (select p (enumerate_from n l)) with
  | [] => no_row p l
  | j :: _ =>
      (n <= j)%nat /\ first_row p l (j - n)
  end.
Proof.
  unfold index, select.
  revert n; induction l as [|x l IH]; intros n; simpl.
  - intros s [].
  - destruct (p x) eqn:Hx; simpl.
    + split; [lia|]. rewrite Nat.sub_diag. split.
      * now exists x.
      * intros i s Hi. lia.
    + specialize (IH (S n)).
      destruct (map fst (filter (fun r => p (snd r)) (enumerate_from (S n) l))) as [|j rest].
      * intros s [<-|Hs]; auto.
      * destruct IH as [Hj [[s [Hs Hps]] Hmin]]. split; [lia|].
        replace (j - n)%nat with (S (j - S n)) by lia. split.
        -- now exists s.
        -- intros [|i] t Hi Ht; simpl in Ht.
           ++ now injection Ht as <-.
           ++ apply (Hmin i t); [lia | assumption].
Qed.

(** The head of the index of a selection is the earliest matching row. *)
Lemma select_cases (p : Song -> bool) (rows : list Song) :
  match index (select p (data rows)) with
  | [] => no_row p rows
  | j :: _ => first_row p rows j
  end.
Proof.
  pose proof (select_enumerate_cases p 0 rows) as H. unfold data, read_csv.
  destruct (index (select p (enumerate_from 0 rows))) as [|j rest]; [assumption|].
  destruct H as [_ H]. now rewrite Nat.sub_0_r in H.
Qed.


Lemma select_no_row p rows : no_row p rows -> index (select p (data rows)) = [].
Proof.
  intros Hn. pose proof (select_cases p rows) as H.
  destruct (index (select p (data rows))) as [|i rest]; [reflexivity|].
  destruct (first_row_not_no_row _ _ _ H Hn).
Qed.

(** ** The order of scores *)

Lemma score_leb_total (x y : sqrt_quot) : score_leb x y = true \/ score_leb y x = true.
Proof.
  unfold score_leb. rewrite !Qle_bool_iff.
  destruct (Qlt_le_dec (signed_square y) (signed_square x)) as [H|H]; [right|left]; lra.
Qed.

Lemma score_leb_false (x y : sqrt_quot) : score_leb x y = false -> score_leb y x = true.
Proof. destruct (score_leb_total x y) as [H|H]; [rewrite H; discriminate | auto]. Qed.

Lemma score_leb_trans (x y z : sqrt_quot) :
  score_leb x y = true -> score_leb y z = true -> score_leb x z = true.
Proof. unfold score_leb. rewrite !Qle_bool_iff. lra. Qed.

(** ** Sorted lists and their parts *)

Section SortedParts.
Context {A : Type} (R : A -> A -> Prop).

Lemma StronglySorted_app_inv (l1 l2 : list A) :
  StronglySorted R (l1 ++ l2) ->
  StronglySorted R l1 /\ StronglySorted R l2
  /\ forall x y, In x l1 -> In y l2 -> R x y.
Proof.
  induction l1 as [|a l1 IH]; simpl; intros H.
  - repeat split; [constructor | assumption | intros x y []].
  - apply StronglySorted_inv in H. destruct H as [Hs Ha].
    destruct (IH Hs) as [H1 [H2 H12]]. rewrite Forall_app in Ha. destruct Ha as [Ha1 Ha2].
    repeat split; [now constructor | assumption |].
    intros x y [<-|Hx] Hy; [|now apply H12].
    rewrite Forall_forall in Ha2. now apply Ha2.
Qed.

Lemma StronglySorted_app (l1 l2 : list A) :
  StronglySorted R l1 -> StronglySorted R l2 ->
  (forall x y, In x l1 -> In y l2 -> R x y) -> StronglySorted R (l1 ++ l2).
Proof.
  induction l1 as [|a l1 IH]; simpl; intros H1 H2 H12; [assumption|].
  apply StronglySorted_inv in H1. destruct H1 as [Hs Ha]. constructor.
  - apply IH; auto.
  - rewrite Forall_app. split; [assumption|].
    rewrite Forall_forall. intros y Hy. apply H12; auto.
Qed.

Lemma StronglySorted_firstn (n : nat) (l : list A) :
  StronglySorted R l -> StronglySorted R (firstn n l).
Proof.
  intros H. rewrite <- (firstn_skipn n l) in H. now apply StronglySorted_app_inv in H.
Qed.

Lemma StronglySorted_skipn (n : nat) (l : list A) :
  StronglySorted R l -> StronglySorted R (skipn n l).
Proof.
  intros H. rewrite <- (firstn_skipn n l) in H. now apply StronglySorted_app_inv in H.
Qed.

Lemma StronglySorted_filter (f : A -> bool) (l : list A) :
  StronglySorted R l -> StronglySorted R (filter f l).
Proof.
  induction 1 as [|a l Hs IH Ha]; simpl; [constructor|].
  destruct (f a); [|assumption]. constructor; [assumption|].
  rewrite Forall_forall in *. intros x Hx. apply filter_In in Hx. now apply Ha.
Qed.

Lemma StronglySorted_weaken (S : A -> A -> Prop) (l : list A) :
  (forall x y, In x l -> In y l -> R x y -> S x y) ->
  StronglySorted R l -> StronglySorted S l.
Proof.
  intros HRS H. induction H as [|a l Hs IH Ha]; [constructor|]. constructor.
  - apply IH. intros x y Hx Hy. apply HRS; now right.
  - rewrite Forall_forall in *. intros x Hx. apply HRS; [now left | now right | now apply Ha].
Qed.

End SortedParts.

Lemma StronglySorted_rev {A} (R : A -> A -> Prop) (l : list A) :
  StronglySorted R l -> StronglySorted (fun x y => R y x) (rev l).
Proof.
  induction 1 as [|a l Hs IH Ha]; simpl; [constructor|].
  apply StronglySorted_app; [assumption | repeat constructor |].
  intros x y Hx [<-|[]]. rewrite Forall_forall in Ha. apply Ha. now apply in_rev.
Qed.

Lemma StronglySorted_map {A B} (f : A -> B) (R : B -> B -> Prop) (l : list A) :
  StronglySorted (fun x y => R (f x) (f y)) l <-> StronglySorted R (map f l).
Proof.
  induction l as [|a l IH]; simpl.
  - split; constructor.
  - split; intros H; apply StronglySorted_inv in H; destruct H as [Hs Ha]; constructor;
      try (now apply IH); rewrite Forall_forall in *.
    + intros y Hy. apply in_map_iff in Hy. destruct Hy as [x [<- Hx]]. now apply Ha.
    + intros x Hx. apply Ha. now apply in_map.
Qed.

(** ** [argsort] sorts *)

Lemma argsort_pairs (a : list sqrt_quot) : argsort a = map fst (sorted_pairs a).
Proof. reflexivity. Qed.

Lemma insert_sorted_perm x l : Permutation (insert_sorted x l) (x :: l).
Proof.
  induction l as [|y l IH]; simpl; [reflexivity|].
  destruct (score_leb (snd x) (snd y)); [reflexivity|].
  rewrite IH. apply perm_swap.
Qed.

Lemma insert_sorted_sorted x l :
  StronglySorted ascending l -> Forall (fun y => (fst x < fst y)%nat) l ->
  StronglySorted ascending (insert_sorted x l).
Proof.
  induction 1 as [|y l Hs IH Hy]; simpl; intros Hx.
  - repeat constructor.
  - apply Forall_cons_iff in Hx. destruct Hx as [Hxy Hxl].
    destruct (score_leb (snd x) (snd y)) eqn:E.
    + constructor; [now constructor|]. constructor; [now split|].
      rewrite Forall_forall in *. intros z Hz. destruct (Hy z Hz) as [Hyz _]. split.
      * eapply score_leb_trans; eassumption.
      * intros _. now apply Hxl.
    + constructor; [now apply IH|].
      eapply Permutation_Forall; [symmetry; apply insert_sorted_perm|].
      constructor; [|assumption]. split; [now apply score_leb_false|].
      rewrite E. discriminate.
Qed.

Lemma enumerate_from_fst_ge {A} (n : nat) (l : list A) :
  Forall (fun p => (n <= fst p)%nat) (enumerate_from n l).
Proof.
  revert n; induction l as [|x l IH]; intros n; simpl; constructor; simpl; [lia|].
  eapply Forall_impl; [|apply (IH (S n))]. simpl. intros; lia.
Qed.

Lemma sorted_from (n : nat) (a : list sqrt_quot) :
  StronglySorted ascending (fold_right insert_sorted [] (enumerate_from n a))
  /\ Permutation (fold_right insert_sorted [] (enumerate_from n a)) (enumerate_from n a).
Proof.
  revert n; induction a as [|s a IH]; intros n; simpl.
  - split; constructor.
  - destruct (IH (S n)) as [Hs Hp]. split.
    + apply insert_sorted_sorted; [assumption|].
      eapply Permutation_Forall; [symmetry; exact Hp|].
      eapply Forall_impl; [|apply (enumerate_from_fst_ge (S n))]. simpl. intros; lia.
    + rewrite insert_sorted_perm. now constructor.
Qed.

Lemma sorted_pairs_sorted a : StronglySorted ascending (sorted_pairs a).
Proof. apply sorted_from. Qed.

Lemma sorted_pairs_perm a : Permutation (sorted_pairs a) (enumerate_from 0 a).
Proof. apply sorted_from. Qed.

Lemma enumerate_from_fst {A} (n : nat) (l : list A) :
  map fst (enumerate_from n l) = seq n (List.length l).
Proof. revert n; induction l; intros; simpl; [reflexivity | f_equal; auto]. Qed.

(** [argsort] returns every index of the array once. *)
Lemma argsort_perm (a : list sqrt_quot) : Permutation (argsort a) (seq 0 (List.length a)).
Proof.
  rewrite argsort_pairs, <- enumerate_from_fst. apply Permutation_map, sorted_pairs_perm.
Qed.

Lemma in_enumerate_from {A} (n i : nat) (x : A) (l : list A) :
  In (i, x) (enumerate_from n l) -> (n <= i)%nat /\ nth_error l (i - n) = Some x.
Proof.
  revert n; induction l as [|y l IH]; intros n; simpl; [intros []|].
  intros [H|H].
  - injection H as <- <-. rewrite Nat.sub_diag. split; [lia | reflexivity].
  - destruct (IH _ H) as [Hn Hx]. split; [lia|].
    replace (i - n)%nat with (S (i - S n)) by lia. exact Hx.
Qed.

Lemma sorted_pairs_score a i s : In (i, s) (sorted_pairs a) -> nth_error a i = Some s.
Proof.
  intros H. eapply Permutation_in in H; [|apply sorted_pairs_perm].
  apply in_enumerate_from in H. now rewrite Nat.sub_0_r in H.
Qed.

(** ** Slices and the top of the ranking *)

Lemma slice_parts {A} (l : list A) (start stop : Z) :
  exists n m, slice l start stop = firstn n (skipn m l).
Proof. unfold slice. eauto. Qed.

Lemma In_firstn {A} (n : nat) (l : list A) (x : A) : In x (firstn n l) -> In x l.
Proof. intros H. rewrite <- (firstn_skipn n l). apply in_or_app. now left. Qed.

Lemma In_skipn {A} (n : nat) (l : list A) (x : A) : In x (skipn n l) -> In x l.
Proof. intros H. rewrite <- (firstn_skipn n l). apply in_or_app. now right. Qed.

Lemma slice_incl {A} (l : list A) (start stop : Z) (x : A) :
  In x (slice l start stop) -> In x l.
Proof.
  destruct (slice_parts l start stop) as [n [m ->]]. intros H.
  now apply In_firstn, In_skipn in H.
Qed.

Lemma slice_map {A B} (f : A -> B) (l : list A) (start stop : Z) :
  slice (map f l) start stop = map f (slice l start stop).
Proof. unfold slice. now rewrite length_map, skipn_map, firstn_map. Qed.

Lemma slice_sorted {A} (R : A -> A -> Prop) (l : list A) (start stop : Z) :
  StronglySorted R l -> StronglySorted R (slice l start stop).
Proof.
  destruct (slice_parts l start stop) as [n [m ->]]. intros H.
  now apply StronglySorted_firstn, StronglySorted_skipn.
Qed.

(** For a count that is not negative, the slice [[-k-1:-1]] reversed is the
    ranking without its first entry, cut after [k] entries. *)
Lemma slice_top {A} (l : list A) (k : Z) :
  0 <= k -> rev (slice l (- k - 1) (- 1)) = firstn (Z.to_nat k) (tl (rev l)).
Proof.
  intros Hk. unfold slice, slice_bound.
  replace (- k - 1 <? 0) with true by (symmetry; apply Z.ltb_lt; lia).
  replace (- 1 <? 0) with true by reflexivity.
  set (n := List.length l).
  replace (tl (rev l)) with (skipn 1 (rev l)) by (now destruct (rev l)).
  rewrite skipn_rev. fold n.
  destruct (Nat.le_gt_cases n (S (Z.to_nat k))) as [Hn|Hn].
  - replace (Z.to_nat (Z.max 0 (- k - 1 + Z.of_nat n))) with O by lia.
    replace (Z.to_nat (Z.max 0 (-1 + Z.of_nat n) - Z.max 0 (- k - 1 + Z.of_nat n)))
      with (n - 1)%nat by lia.
    simpl skipn. symmetry. apply firstn_all2.
    rewrite length_rev, length_firstn. lia.
  - replace (Z.to_nat (Z.max 0 (- k - 1 + Z.of_nat n))) with (n - 1 - Z.to_nat k)%nat by lia.
    replace (Z.to_nat (Z.max 0 (-1 + Z.of_nat n) - Z.max 0 (- k - 1 + Z.of_nat n)))
      with (Z.to_nat k) by lia.
    rewrite firstn_rev. f_equal. rewrite length_firstn. fold n.
    replace (Nat.min (n - 1) n - Z.to_nat k)%nat with (n - 1 - Z.to_nat k)%nat by lia.
    rewrite firstn_skipn_comm. do 2 f_equal. lia.
Qed.


Lemma top_indices_in (scores : list sqrt_quot) (k : Z) (i : nat) :
  In i (top_indices scores k) -> (i < List.length scores)%nat.
Proof.
  unfold top_indices. intros H. apply in_rev, slice_incl in H.
  eapply Permutation_in in H; [|apply argsort_perm]. apply in_seq in H. lia.
Qed.

Lemma top_indices_NoDup (scores : list sqrt_quot) (k : Z) : NoDup (top_indices scores k).
Proof.
  unfold top_indices. apply NoDup_rev.
  destruct (slice_parts (argsort scores) (- k - 1) (- 1)) as [n [m ->]].
  assert (Hn : NoDup (argsort scores)).
  { eapply Permutation_NoDup; [symmetry; apply argsort_perm | apply seq_NoDup]. }
  rewrite <- (firstn_skipn m (argsort scores)) in Hn. apply NoDup_app_remove_l in Hn.
  rewrite <- (firstn_skipn n (skipn m (argsort scores))) in Hn.
  now apply NoDup_app_remove_r in Hn.
Qed.

Lemma sorted_pairs_score_at a (p : nat * sqrt_quot) :
  In p (sorted_pairs a) -> p = (fst p, score_at a (fst p)).
Proof.
  destruct p as [i s]. intros H. apply sorted_pairs_score in H. simpl.
  unfold score_at. now rewrite (nth_error_nth _ _ _ H).
Qed.

(** Whatever the count, the selected indices come best score first, and
    among equal scores the larger index first. *)
Lemma top_indices_sorted (scores : list sqrt_quot) (k : Z) :
  StronglySorted ranked_before
    (map (fun i => (i, score_at scores i)) (top_indices scores k)).
Proof.
  unfold top_indices. rewrite argsort_pairs, slice_map, <- map_rev, map_map.
  assert (Hs : StronglySorted ranked_before (rev (slice (sorted_pairs scores) (- k - 1) (- 1)))).
  { apply (StronglySorted_rev ascending), slice_sorted, sorted_pairs_sorted. }
  assert (Hin : forall p, In p (rev (slice (sorted_pairs scores) (- k - 1) (- 1))) ->
                     p = (fst p, score_at scores (fst p))).
  { intros p Hp. apply in_rev, slice_incl in Hp. now apply sorted_pairs_score_at. }
  revert Hs Hin. generalize (rev (slice (sorted_pairs scores) (- k - 1) (- 1))).
  intros l Hs Hin. rewrite (map_ext_in _ (fun p => p)).
  - now rewrite map_id.
  - intros p Hp. symmetry. now apply Hin.
Qed.

(** ** The loop bodies never raise *)

Lemma for_each_map {A B} (f : A -> exc B) (g : A -> B) (l : list A) :
  (forall x, In x l -> f x = Ok (g x)) -> for_each f l = Ok (map g l).
Proof.
  induction l as [|a l IH]; simpl; intros H; [reflexivity|].
  rewrite (H a (or_introl eq_refl)). simpl. rewrite IH; [reflexivity|].
  intros x Hx. apply H. now right.
Qed.

Lemma at_index_data rows i :
  (i < List.length rows)%nat -> at_index (data rows) i = Ok (i, row_at rows i).
Proof.
  intros Hi. unfold at_index, data, read_csv. rewrite enumerate_from_nth.
  destruct (nth_error rows i) as [s|] eqn:E.
  - unfold row_at. now rewrite (nth_error_nth _ _ _ E).
  - apply nth_error_None in E. lia.
Qed.

Lemma at_index_score scores i :
  (i < List.length scores)%nat -> at_index scores i = Ok (score_at scores i).
Proof.
  intros Hi. unfold at_index, score_at.
  destruct (nth_error scores i) as [s|] eqn:E.
  - now rewrite (nth_error_nth _ _ _ E).
  - apply nth_error_None in E. lia.
Qed.

Lemma song_features_length rows : List.length (song_features rows) = List.length rows.
Proof. unfold song_features, transform. now rewrite !length_map. Qed.

Lemma scores_of_length rows song_idx : List.length (scores_of rows song_idx) = List.length rows.
Proof. unfold scores_of, cosine_similarity. now rewrite length_map, song_features_length. Qed.

Lemma recommended_rows_eq rows song_idx k m :
  recommended_rows (data rows) (scores_of rows song_idx) k m
  = Ok (kept_rows rows song_idx k m).
Proof.
  unfold recommended_rows, kept_rows.
  rewrite (for_each_map _ (fun i => (i, row_at rows i))); [reflexivity|].
  intros i Hi. apply top_indices_in in Hi. rewrite scores_of_length in Hi.
  now rewrite at_index_data.
Qed.

Lemma kept_rows_in rows song_idx k m r :
  In r (kept_rows rows song_idx k m) ->
  (fst r < List.length rows)%nat /\ snd r = row_at rows (fst r)
  /\ m <= track_popularity (snd r).
Proof.
  unfold kept_rows. rewrite filter_In, in_map_iff. intros [[i [<- Hi]] Hp].
  apply top_indices_in in Hi. rewrite scores_of_length in Hi.
  unfold popular_enough in Hp. apply Z.leb_le in Hp. simpl in *. auto.
Qed.

(** [recommend] returns, for every row of the catalogue. *)
Lemma recommend_eq rows song_idx k m :
  (song_idx < List.length rows)%nat ->
  recommend rows song_idx k m
  = Ok (map (recommendation_of (scores_of rows song_idx)) (kept_rows rows song_idx k m),
        song_info (row_at rows song_idx)).
Proof.
  intros Hi. unfold recommend. rewrite (at_index_data _ _ Hi). cbn [bind].
  unfold at_index at 1.
  destruct (nth_error (song_features rows) song_idx) as [u|] eqn:E.
  2:{ apply nth_error_None in E. rewrite song_features_length in E. lia. }
  cbn [bind]. assert (Hu : u = nth song_idx (song_features rows) []).
  { symmetry. now apply nth_error_nth. }
  rewrite Hu. fold (scores_of rows song_idx). rewrite recommended_rows_eq. cbn [bind].
  rewrite (for_each_map _ (recommendation_of (scores_of rows song_idx))); [reflexivity|].
  intros r Hr. apply kept_rows_in in Hr. destruct Hr as [Hr _].
  unfold make_recommendation. rewrite at_index_score; [reflexivity|].
  now rewrite scores_of_length.
Qed.

(** ** The search cascade *)

Section Cascade.

Variable get_close_matches : string -> list string -> list string.

Lemma first_resolving_cases rows similar :
  match first_resolving (data rows) similar with
  | [] => forall c, In c similar -> no_row (title_is c) rows
  | j :: _ => exists before candidate after,
      similar = (before ++ candidate :: after)%list
      /\ (forall c, In c before -> no_row (title_is c) rows)
      /\ first_row (title_is candidate) rows j
  end.
Proof.
  induction similar as [|c similar IH]; simpl; [intros c []|].
  pose proof (select_cases (title_is c) rows) as Hc.
  destruct (index (select (title_is c) (data rows))) as [|j rest].
  - destruct (first_resolving (data rows) similar) as [|j rest].
    + intros c' [<-|Hc']; auto.
    + destruct IH as [before [candidate [after [-> [Hb Hj]]]]].
      exists (c :: before), candidate, after.
      split; [reflexivity | split; [|assumption]].
      intros c' [<-|Hc']; auto.
  - exists [], c, similar. split; [reflexivity | split; [|assumption]]. intros c' [].
Qed.

(** The cascade computes the resolution. *)
Lemma resolve_resolution rows song_name :
  resolution rows (normalized song_name) (close_matches get_close_matches rows song_name)
    (resolved_row get_close_matches rows song_name).
Proof.
  unfold resolved_row, resolve, close_matches. set (q := normalized song_name).
  pose proof (select_cases (title_is q) rows) as H1.
  destruct (index (select (title_is q) (data rows))) as [|j1 r1]; [|now apply by_title].
  pose proof (select_cases (title_contains q) rows) as H2.
  destruct (index (select (title_contains q) (data rows))) as [|j2 r2];
    [|now apply by_title_part].
  pose proof (select_cases (artist_contains q) rows) as H3.
  destruct (index (select (artist_contains q) (data rows))) as [|j3 r3];
    [|now apply by_artist].
  cbn [fst]. fold (all_songs rows).
  pose proof (first_resolving_cases rows (get_close_matches q (all_songs rows))) as H4.
  destruct (first_resolving (data rows) (get_close_matches q (all_songs rows))) as [|j4 r4].
  - now apply unresolved.
  - destruct H4 as [before [candidate [after [E [Hb Hj]]]]]. simpl.
    now apply (by_close_match _ _ _ before candidate after).
Qed.

Lemma first_row_in_range p rows j : first_row p rows j -> (j < List.length rows)%nat.
Proof. intros [[s [Hs _]] _]. apply nth_error_Some. now rewrite Hs. Qed.

Lemma resolved_row_in_range rows song_name j :
  resolved_row get_close_matches rows song_name = Some j -> (j < List.length rows)%nat.
Proof.
  intros E. pose proof (resolve_resolution rows song_name) as H. rewrite E in H.
  inversion H; subst; eapply first_row_in_range; eassumption.
Qed.

(** The request in terms of the resolved row: it never ends in the handler
    of line 335. *)
Lemma get_recommendations_eq rows song_name k m :
  get_recommendations get_close_matches rows song_name k m =
  match resolved_row get_close_matches rows song_name with
  | Some j =>
      Recommendations
        (map (recommendation_of (scores_of rows j)) (kept_rows rows j k m))
        (song_info (row_at rows j))
  | None =>
      ErrorResult (not_found_message (normalized song_name))
        (firstn 3 (snd (resolve get_close_matches (data rows) (normalized song_name))))
  end.
Proof.
  pose proof (resolved_row_in_range rows song_name) as Hr.
  unfold get_recommendations, resolved_row in *. fold (normalized song_name).
  destruct (resolve get_close_matches (data rows) (normalized song_name)) as [song_idx similar].
  cbn [fst snd] in *. destruct song_idx as [|j rest]; cbn [hd_error] in *; [reflexivity|].
  now rewrite (recommend_eq rows j k m (Hr j eq_refl)).
Qed.

End Cascade.

(** ** The scaler and the cosine similarity *)

Section Numeric.
Local Open Scope Q_scope.

Lemma sq_nonneg (x : Q) : 0 <= x * x.
Proof. nra. Qed.

Lemma qsum_nonneg (l : list Q) : Forall (fun x => 0 <= x) l -> 0 <= qsum l.
Proof. induction 1; simpl; lra. Qed.

Lemma qsum_zero (l : list Q) :
  Forall (fun x => 0 <= x) l -> qsum l == 0 -> Forall (fun x => x == 0) l.
Proof.
  induction 1 as [|x l Hx Hl IH]; simpl; intros H0; constructor.
  - pose proof (qsum_nonneg l Hl). lra.
  - apply IH. pose proof (qsum_nonneg l Hl). lra.
Qed.

Lemma count_pos {A} (l : list A) : l <> [] -> 0 < inject_Z (Z.of_nat (List.length l)).
Proof.
  intros Hl. destruct l as [|x l]; [contradiction|].
  unfold Qlt, inject_Z. simpl. lia.
Qed.

Lemma count_nonneg {A} (l : list A) : 0 <= inject_Z (Z.of_nat (List.length l)).
Proof. unfold Qle, inject_Z. simpl. lia. Qed.

Lemma mean_nonneg (l : list Q) : Forall (fun x => 0 <= x) l -> 0 <= mean l.
Proof.
  intros Hl. unfold mean, Qdiv. apply Qmult_le_0_compat; [now apply qsum_nonneg|].
  apply Qinv_le_0_compat, count_nonneg.
Qed.

Lemma mean_zero (l : list Q) :
  Forall (fun x => 0 <= x) l -> mean l == 0 -> Forall (fun x => x == 0) l.
Proof.
  intros Hl H0. destruct l as [|x l]; [constructor|].
  apply qsum_zero; [assumption|].
  assert (Hn : 0 < inject_Z (Z.of_nat (List.length (x :: l)))) by (now apply count_pos).
  unfold mean in H0. apply (Qmult_inj_r _ _ (/ inject_Z (Z.of_nat (List.length (x :: l))))).
  - apply Qinv_lt_0_compat in Hn. lra.
  - unfold Qdiv in H0. rewrite H0. ring.
Qed.

Lemma squares_nonneg (m : Q) (l : list Q) :
  Forall (fun x => 0 <= x) (map (fun x => (x - m) * (x - m)) l).
Proof. apply Forall_forall. intros y Hy. apply in_map_iff in Hy. destruct Hy as [x [<- _]]. apply sq_nonneg. Qed.

Lemma variance_nonneg (l : list Q) : 0 <= variance l.
Proof. apply mean_nonneg, squares_nonneg. Qed.

(** A column of variance zero is constant: every entry equals the mean. *)
Lemma variance_zero (l : list Q) (x : Q) :
  variance l == 0 -> In x l -> x - mean l == 0.
Proof.
  intros H0 Hx. apply mean_zero in H0; [|apply squares_nonneg].
  rewrite Forall_forall in H0.
  assert (H : (x - mean l) * (x - mean l) == 0).
  { apply H0. apply in_map_iff. now exists x. }
  nra.
Qed.

Lemma handle_zeros_pos (x : Q) : 0 <= x -> 0 < handle_zeros x.
Proof.
  intros Hx. unfold handle_zeros. destruct (Qeq_bool x 0) eqn:E; [reflexivity|].
  apply Qeq_bool_neq in E. lra.
Qed.

(** Every scale the scaler divides by is positive. *)
Lemma scale_sq_pos (X : list (list Q)) : Forall (fun r => 0 < r) (scale_sq (fit X)).
Proof.
  unfold fit. cbn [scale_sq]. apply Forall_forall. intros r Hr.
  apply in_map_iff in Hr. destruct Hr as [col [<- _]].
  apply handle_zeros_pos, variance_nonneg.
Qed.

Lemma cs_cross (a b S U V : Q) :
  0 <= U -> 0 <= V -> S * S <= U * V -> 2 * a * b * S <= a * a * V + b * b * U.
Proof.
  intros HU HV HS. destruct (Qlt_le_dec 0 U) as [HU'|HU'].
  - pose proof (sq_nonneg (a * S - b * U)) as H1.
    assert (H2 : a * a * (S * S) <= a * a * (U * V)).
    { pose proof (sq_nonneg a). nra. }
    assert (H : 0 <= U * (a * a * V + b * b * U - 2 * a * b * S)) by nra.
    nra.
  - assert (HU0 : U == 0) by lra. assert (HS0 : S * S <= 0) by nra.
    assert (S == 0) by nra.
    pose proof (sq_nonneg a). nra.
Qed.

Lemma cs_step (a b t S U V : Q) :
  0 < t -> 0 <= U -> 0 <= V -> S * S <= U * V ->
  (a * b * t + S) * (a * b * t + S) <= (a * a * t + U) * (b * b * t + V).
Proof.
  intros Ht HU HV HS. pose proof (cs_cross a b S U V HU HV HS). nra.
Qed.

Lemma dot_self_nonneg (s2 u : list Q) : Forall (fun r => 0 < r) s2 -> 0 <= dot s2 u u.
Proof.
  intros Hs. revert u. induction Hs as [|r s2 Hr Hs IH]; intros [|a u]; simpl; try lra.
  specialize (IH u). apply Qinv_lt_0_compat in Hr. unfold Qdiv.
  pose proof (sq_nonneg a). nra.
Qed.

(** The Cauchy-Schwarz inequality for the weighted dot product. *)
Lemma cauchy_schwarz (s2 u v : list Q) :
  Forall (fun r => 0 < r) s2 ->
  dot s2 u v * dot s2 u v <= dot s2 u u * dot s2 v v.
Proof.
  intros Hs. revert u v.
  induction Hs as [|r s2 Hr Hs IH]; intros [|a u] [|b v]; simpl; try lra.
  unfold Qdiv. apply cs_step.
  - now apply Qinv_lt_0_compat.
  - now apply dot_self_nonneg.
  - now apply dot_self_nonneg.
  - apply IH.
Qed.

Lemma handle_zeros_cases (x : Q) :
  (x == 0 /\ handle_zeros x = 1) \/ (~ x == 0 /\ handle_zeros x = x).
Proof.
  unfold handle_zeros. destruct (Qeq_bool x 0) eqn:E.
  - left. split; [now apply Qeq_bool_eq | reflexivity].
  - right. split; [now apply Qeq_bool_neq | reflexivity].
Qed.

(** A score is a well-formed number whose square is at most one. *)
Lemma cosine_bounds (s2 u v : list Q) :
  Forall (fun r => 0 < r) s2 ->
  0 < rad (cosine s2 u v)
  /\ num (cosine s2 u v) * num (cosine s2 u v) <= rad (cosine s2 u v).
Proof.
  intros Hs. unfold cosine. cbn [num rad].
  pose proof (cauchy_schwarz s2 u v Hs) as Hcs.
  pose proof (dot_self_nonneg s2 u Hs) as Hu.
  pose proof (dot_self_nonneg s2 v Hs) as Hv.
  destruct (handle_zeros_cases (dot s2 u u)) as [[Eu ->]|[Eu ->]];
    destruct (handle_zeros_cases (dot s2 v v)) as [[Ev ->]|[Ev ->]];
    split; try nra.
Qed.

(** A row of norm zero has similarity zero with every row. *)
Lemma cosine_zero_norm (s2 u v : list Q) :
  Forall (fun r => 0 < r) s2 -> dot s2 u u == 0 -> num (cosine s2 u v) == 0.
Proof.
  intros Hs H0. unfold cosine. cbn [num].
  pose proof (cauchy_schwarz s2 u v Hs) as Hcs. nra.
Qed.

End Numeric.

(** ** Scores as real numbers *)

Section Values.
Local Open Scope R_scope.

Lemma Q2R_pos (r : Q) : (0 < r)%Q -> 0 < Q2R r.
Proof. intros H. apply Qlt_Rlt in H. now rewrite RMicromega.Q2R_0 in H. Qed.

Lemma sqrt_facts (r : R) : 0 < r -> 0 < sqrt r /\ sqrt r * sqrt r = r.
Proof. intros H. split; [now apply sqrt_lt_R0 | apply sqrt_sqrt; lra]. Qed.

Lemma value_zero (x : sqrt_quot) : (num x == 0)%Q -> value x = 0.
Proof.
  intros H. unfold value. apply Qeq_eqR in H. rewrite H, RMicromega.Q2R_0.
  unfold Rdiv. ring.
Qed.

(** A number whose numerator squared is at most its radicand lies
    between -1 and 1. *)
Lemma value_bounds (x : sqrt_quot) :
  (0 < rad x)%Q -> (num x * num x <= rad x)%Q -> -1 <= value x <= 1.
Proof.
  intros Hr Hsq. unfold value.
  apply Qle_Rle in Hsq. rewrite Q2R_mult in Hsq.
  destruct (sqrt_facts _ (Q2R_pos _ Hr)) as [Hs Hss].
  set (a := Q2R (num x)) in *. set (s := sqrt (Q2R (rad x))) in *.
  assert (Ha : - s <= a <= s) by nra.
  assert (Hi : 0 < / s) by now apply Rinv_0_lt_compat.
  assert (Hsi : s * / s = 1) by (apply Rinv_r; lra).
  unfold Rdiv. split; nra.
Qed.

Lemma signed_mono (u v : R) : u <= v <-> u * Rabs u <= v * Rabs v.
Proof.
  unfold Rabs. destruct (Rcase_abs u), (Rcase_abs v); split; intros; nra.
Qed.

Lemma value_signed_square (x : sqrt_quot) :
  (0 < rad x)%Q -> value x * Rabs (value x) = Q2R (signed_square x).
Proof.
  intros Hr. unfold value, signed_square.
  destruct (sqrt_facts _ (Q2R_pos _ Hr)) as [Hs Hss].
  assert (Hr0 : ~ (rad x == 0)%Q) by (intros E; rewrite E in Hr; discriminate).
  pose proof (Q2R_pos _ Hr) as HrR.
  assert (Hinv : / sqrt (Q2R (rad x)) * / sqrt (Q2R (rad x)) = / Q2R (rad x)).
  { rewrite <- Rinv_mult, Hss. reflexivity. }
  assert (Hi : 0 < / sqrt (Q2R (rad x))) by now apply Rinv_0_lt_compat.
  destruct (Qle_bool 0 (num x)) eqn:E.
  - apply Qle_bool_iff, Qle_Rle in E. rewrite RMicromega.Q2R_0 in E.
    rewrite Rabs_right.
    + rewrite Q2R_div, Q2R_mult by assumption. unfold Rdiv.
      rewrite <- Hinv. ring.
    + unfold Rdiv. nra.
  - assert (E' : (num x < 0)%Q).
    { apply Qnot_le_lt. intros H. apply Qle_bool_iff in H. congruence. }
    apply Qlt_Rlt in E'. rewrite RMicromega.Q2R_0 in E'.
    rewrite Rabs_left.
    + rewrite Q2R_div, Q2R_opp, Q2R_mult by assumption. unfold Rdiv.
      rewrite <- Hinv. ring.
    + unfold Rdiv. nra.
Qed.

(** The comparison used by the sort is the order of the real scores. *)
Lemma score_leb_value (x y : sqrt_quot) :
  (0 < rad x)%Q -> (0 < rad y)%Q -> (score_leb x y = true <-> value x <= value y).
Proof.
  intros Hx Hy. unfold score_leb. rewrite Qle_bool_iff, signed_mono.
  rewrite (value_signed_square x Hx), (value_signed_square y Hy).
  split; [apply Qle_Rle | apply Rle_Qle].
Qed.

End Values.

(** ** Sampling without replacement *)

Lemma update_perm {A} (l : list A) (j : nat) (b x : A) :
  nth_error l j = Some b -> Permutation (b :: update l j x) (x :: l).
Proof.
  revert j; induction l as [|h l IH]; intros [|j] H; simpl in *; try discriminate.
  - injection H as ->. apply perm_swap.
  - rewrite perm_swap, (IH j H). apply perm_swap.
Qed.

Lemma swap_perm {A} (l : list A) (i j : nat) : Permutation (swap l i j) l.
Proof.
  unfold swap.
  destruct (nth_error l i) as [a|] eqn:Ei; [|reflexivity].
  destruct (nth_error l j) as [b|] eqn:Ej; [|reflexivity].
  revert i j Ei Ej; induction l as [|h l IH]; intros [|i] [|j] Ei Ej;
    simpl in *; try discriminate.
  - injection Ei as ->. injection Ej as ->. reflexivity.
  - injection Ei as ->. now apply update_perm.
  - injection Ej as ->. now apply update_perm.
  - constructor. now apply IH.
Qed.

Lemma shuffle_from_perm (i : nat) (x : list nat) (st : RandomState) :
  Permutation (fst (shuffle_from i x st)) x.
Proof.
  revert x st; induction i as [|i IH]; intros x st; simpl; [reflexivity|].
  rewrite IH. apply swap_perm.
Qed.

(** [np.random.permutation(n)] is a permutation of [0..n-1], whatever the
    state of the generator. *)
Lemma permutation_perm (n : nat) (st : RandomState) :
  Permutation (fst (permutation n st)) (seq 0 n).
Proof. apply shuffle_from_perm. Qed.

Lemma choice_ok (n : nat) (size : Z) (st : RandomState) :
  0 <= size <= Z.of_nat n ->
  exists idx, fst (choice (Z.of_nat n) size st) = Ok idx
    /\ NoDup idx /\ (forall i, In i idx -> (i < n)%nat)
    /\ List.length idx = Z.to_nat size
    /\ (size = Z.of_nat n -> Permutation idx (seq 0 n)).
Proof.
  intros Hs. unfold choice.
  replace ((Z.of_nat n <=? 0) && negb (size =? 0)) with false.
  2:{ symmetry. apply andb_false_iff.
      destruct (Z.eq_dec size 0) as [->|Hn]; [now right | left; apply Z.leb_gt; lia]. }
  replace (Z.of_nat n <? size) with false by (symmetry; apply Z.ltb_ge; lia).
  replace (size <? 0) with false by (symmetry; apply Z.ltb_ge; lia).
  rewrite Nat2Z.id. pose proof (permutation_perm n st) as Hp.
  destruct (permutation n st) as [idx st']. cbn [fst] in *.
  exists (firstn (Z.to_nat size) idx).
  assert (Hnd : NoDup idx).
  { eapply Permutation_NoDup; [symmetry; exact Hp | apply seq_NoDup]. }
  assert (Hlen : List.length idx = n).
  { rewrite (Permutation_length Hp). apply length_seq. }
  split; [reflexivity|]. split; [|split; [|split]].
  - rewrite <- (firstn_skipn (Z.to_nat size) idx) in Hnd. now apply NoDup_app_remove_r in Hnd.
  - intros i Hi. apply In_firstn in Hi. eapply Permutation_in in Hi; [|exact Hp].
    apply in_seq in Hi. lia.
  - rewrite length_firstn. lia.
  - intros ->. rewrite firstn_all2; [assumption|]. lia.
Qed.

Lemma map_nth_seq {A} (l : list A) (d : A) :
  map (fun i => nth i l d) (seq 0 (List.length l)) = l.
Proof.
  apply (nth_ext _ _ d d).
  - now rewrite length_map, length_seq.
  - intros n Hn. rewrite length_map, length_seq in Hn.
    rewrite (nth_indep _ d (nth 0 l d)) by (now rewrite length_map, length_seq).
    rewrite (map_nth (fun i => nth i l d)), seq_nth by assumption. reflexivity.
Qed.

Lemma sample_ok (df : DataFrame) (n : Z) (st : RandomState) :
  0 <= n -> NoDup (index df) ->
  exists picked, fst (sample df n st) = Ok picked /\ sampled df n picked.
Proof.
  intros Hn Hdf. unfold sample, len.
  destruct (choice_ok (List.length df) (Z.min n (Z.of_nat (List.length df))) st)
    as [idx [E [Hnd [Hin [Hlen Hall]]]]]; [lia|].
  destruct (choice _ _ st) as [c st']. cbn [fst] in *. subst c. cbn [bind].
  set (d := (O, no_song)).
  exists (map (fun i => nth i df d) idx). split.
  - apply for_each_map. intros i Hi. unfold at_index.
    destruct (nth_error df i) as [r|] eqn:Er.
    + now rewrite (nth_error_nth _ _ _ Er).
    + apply nth_error_None in Er. specialize (Hin i Hi). lia.
  - unfold sampled, len. repeat split.
    + unfold index. rewrite map_map.
      pose proof (proj1 (NoDup_nth (map fst df) O) Hdf) as Hinj. clear Hdf.
      clear Hlen Hall. induction Hnd as [|i idx Hi Hnd IH]; simpl; constructor.
      * intros Hc. apply in_map_iff in Hc. destruct Hc as [j [Hj Hjin]].
        assert (j = i).
        { apply Hinj.
          - rewrite length_map. apply Hin. now right.
          - rewrite length_map. apply Hin. now left.
          - change O with (fst d). now rewrite !map_nth. }
        subst j. contradiction.
      * apply IH. intros j Hj. apply Hin. now right.
    + intros r Hr. apply in_map_iff in Hr. destruct Hr as [i [<- Hi]].
      apply nth_In. now apply Hin.
    + rewrite length_map, Hlen. lia.
    + intros Hle. eapply Permutation_trans.
      * apply Permutation_map, Hall. lia.
      * now rewrite map_nth_seq.
Qed.

Lemma index_data rows : index (data rows) = seq 0 (List.length rows).
Proof. apply enumerate_from_fst. Qed.

Lemma NoDup_index_select (p : Song -> bool) (df : DataFrame) :
  NoDup (index df) -> NoDup (index (select p df)).
Proof.
  unfold index, select. induction df as [|r df IH]; simpl; intros H; [constructor|].
  apply NoDup_cons_iff in H. destruct H as [Hr Hdf].
  destruct (p (snd r)); simpl; auto. constructor; auto.
  intros Hc. apply Hr. apply in_map_iff in Hc. destruct Hc as [x [Hx Hin]].
  apply filter_In in Hin. apply in_map_iff. exists x. tauto.
Qed.

Lemma NoDup_index_data rows : NoDup (index (data rows)).
Proof. rewrite index_data. apply seq_NoDup. Qed.

Lemma NoDup_index_filters filters df :
  NoDup (index df) -> NoDup (index (apply_filters filters df)).
Proof.
  unfold apply_filters. revert df. induction filters as [|f filters IH]; simpl; intros df H.
  - assumption.
  - apply IH. now apply NoDup_index_select.
Qed.



Lemma in_data rows (r : nat * Song) : In r (data rows) -> In (snd r) rows.
Proof.
  destruct r as [i s]. intros H. apply in_enumerate_from in H.
  destruct H as [_ H]. now apply nth_error_In in H.
Qed.

(** ** The recommender as it runs *)

Lemma column_data {A} (f : Song -> A) (rows : list Song) :
  map (fun r => f (snd r)) (data rows) = map f rows.
Proof.
  unfold data, read_csv. generalize 0%nat.
  induction rows as [|s rows IH]; intros n; simpl; [reflexivity | now rewrite IH].
Qed.

Lemma missing_empty (cell : string) : Runtime.missing cell = false -> cell <> ""%string.
Proof. intros H ->. discriminate H. Qed.

(** No title is the empty string: an empty cell is a missing value. *)
Lemma runtime_title_is_blank (s : Song) : Runtime.title_is "" s = false.
Proof.
  unfold Runtime.title_is, Runtime.lowered, Runtime.read_text.
  destruct (Runtime.missing (track_name s)) eqn:E; [reflexivity|].
  apply missing_empty in E. destruct (track_name s); [contradiction | reflexivity].
Qed.

(** The empty string occurs in every title that is present. *)
Lemma runtime_title_contains_blank (s : Song) : Runtime.title_contains "" s = has_title s.
Proof.
  unfold Runtime.title_contains, Runtime.lowered, Runtime.read_text, has_title.
  destruct (Runtime.missing (track_name s)); [reflexivity|]. apply StrFacts.contains_empty.
Qed.

Lemma first_row_ext (p q : Song -> bool) rows j :
  (forall s, p s = q s) -> first_row p rows j -> first_row q rows j.
Proof.
  intros H [[s [Hs Hp]] Hbefore]. split.
  - exists s. split; [assumption | now rewrite <- H].
  - intros i t Hi Ht. rewrite <- H. now apply (Hbefore i).
Qed.

Lemma str_accessor_text (text_column : list string -> bool) cells :
  text_column cells = true -> Runtime.str_accessor text_column cells = Ok tt.
Proof. intros H. unfold Runtime.str_accessor. now rewrite H. Qed.

Lemma select_first p rows j :
  first_row p rows j -> exists later, index (select p (data rows)) = j :: later.
Proof.
  intros Hj. pose proof (select_cases p rows) as H.
  destruct (index (select p (data rows))) as [|i later].
  - exfalso. eapply first_row_not_no_row; eassumption.
  - exists later. f_equal. eapply first_row_unique; eassumption.
Qed.

Section RuntimeSearch.

Variable text_column : list string -> bool.
Variable get_close_matches : string -> list string -> list string.

(** Step two resolves the query. *)
Lemma runtime_resolve_title_part rows q j :
  text_column (map track_name rows) = true ->
  no_row (Runtime.title_is q) rows ->
  first_row (Runtime.title_contains q) rows j ->
  exists later, Runtime.resolve text_column get_close_matches (data rows) q = Ok (j :: later, []).
Proof.
  intros Ht H1 Hj. unfold Runtime.resolve.
  rewrite column_data, (str_accessor_text _ _ Ht). cbn [bind].
  rewrite (select_no_row _ _ H1).
  destruct (select_first _ _ _ Hj) as [later ->]. now exists later.
Qed.



Lemma runtime_first_resolving_some rows similar c :
  In c similar -> ~ no_row (Runtime.title_is c) rows ->
  Runtime.first_resolving (data rows) similar <> [].
Proof.
  induction similar as [|c' similar IH]; intros Hin Hc; [destruct Hin|]. simpl.
  pose proof (select_cases (Runtime.title_is c') rows) as Hs.
  destruct (index (select (Runtime.title_is c') (data rows))) as [|i l] eqn:E;
    [|discriminate].
  destruct Hin as [->|Hin]; [contradiction|]. now apply IH.
Qed.



End RuntimeSearch.

(** ** Sorted indices *)

Lemma StronglySorted_Forall2 {A B} (R : A -> A -> Prop) (S : B -> B -> Prop)
    (P : A -> B -> Prop) (l : list A) (l' : list B) :
  (forall a b a' b', R a b -> P a a' -> P b b' -> S a' b') ->
  Forall2 P l l' -> StronglySorted R l -> StronglySorted S l'.
Proof.
  intros H HP. induction HP as [|a a' l l' Ha HP IH]; intros Hs; [constructor|].
  apply StronglySorted_inv in Hs. destruct Hs as [Hs Hall]. constructor; [now apply IH|].
  clear IH Hs. induction HP as [|b b' l l' Hb HP IH]; [constructor|].
  apply Forall_cons_iff in Hall. destruct Hall as [Hab Hall].
  constructor; [now apply (H a b) | now apply IH].
Qed.

Lemma sorts_in_range {number} (le : number -> number -> bool) a order i :
  sorts le a order -> In i order -> (i < List.length a)%nat.
Proof.
  intros [Hp _] Hi. eapply Permutation_in in Hi; [|exact Hp]. now apply in_seq in Hi.
Qed.

Lemma sorts_descending {number} (le : number -> number -> bool) a order :
  sorts le a order -> StronglySorted (descending le a) (rev order).
Proof.
  intros [_ Hs]. apply StronglySorted_rev in Hs.
  eapply StronglySorted_weaken; [|exact Hs].
  intros i j _ _ H x y Hx Hy. now apply (H y x).
Qed.

Lemma slice_rev_sorted {A} (R : A -> A -> Prop) (l : list A) (start stop : Z) :
  StronglySorted R (rev l) -> StronglySorted R (rev (slice l start stop)).
Proof.
  intros Hs. destruct (slice_parts l start stop) as [n [m ->]].
  rewrite <- (rev_involutive l) at 1.
  rewrite skipn_rev, firstn_rev, rev_involutive.
  now apply StronglySorted_skipn, StronglySorted_firstn.
Qed.

(** The row that scores strictly above every other row heads the reversed
    sort. *)
Lemma strict_best_heads {number} (le : number -> number -> bool) a order j :
  sorts le a order -> (j < List.length a)%nat ->
  (forall i x y, i <> j -> nth_error a j = Some x -> nth_error a i = Some y ->
                 le x y = false) ->
  exists t, rev order = j :: t /\ ~ In j t.
Proof.
  intros Hsorts Hj Hbest. pose proof (sorts_descending _ _ _ Hsorts) as Hs.
  destruct Hsorts as [Hp _].
  assert (Hp' : Permutation (rev order) (seq 0 (List.length a))).
  { now rewrite <- Permutation_rev. }
  assert (Hnd : NoDup (rev order)).
  { eapply Permutation_NoDup; [symmetry; exact Hp' | apply seq_NoDup]. }
  assert (Hin : In j (rev order)).
  { eapply Permutation_in; [symmetry; exact Hp' | apply in_seq; lia]. }
  destruct (rev order) as [|h t]; [destruct Hin|].
  apply NoDup_cons_iff in Hnd. destruct Hnd as [Hh Hnd].
  destruct (Nat.eq_dec h j) as [->|Hne]; [now exists t|].
  exfalso. destruct Hin as [->|Hin]; [now apply Hne|].
  apply StronglySorted_inv in Hs. destruct Hs as [_ Hall].
  rewrite Forall_forall in Hall. specialize (Hall j Hin).
  assert (Hh' : (h < List.length a)%nat).
  { assert (H : In h (seq 0 (List.length a))).
    { eapply Permutation_in; [exact Hp' | now left]. }
    now apply in_seq in H. }
  assert (Ex : exists x, nth_error a j = Some x).
  { destruct (nth_error a j) as [x|] eqn:Ex; [now exists x | apply nth_error_None in Ex; lia]. }
  assert (Ey : exists y, nth_error a h = Some y).
  { destruct (nth_error a h) as [y|] eqn:Ey; [now exists y | apply nth_error_None in Ey; lia]. }
  destruct Ex as [x Ex]. destruct Ey as [y Ey].
  specialize (Hall y x Ey Ex). rewrite (Hbest h x y Hne Ex Ey) in Hall. discriminate.
Qed.

(** ** The loop of the recommendations *)

Section RuntimeLoop.

Variable number : Type.

Lemma nth_error_data rows idx :
  nth_error (data rows) idx
  = match nth_error rows idx with Some s => Some (idx, s) | None => None end.
Proof. unfold data, read_csv. now rewrite enumerate_from_nth. Qed.

Lemma row_at_nth rows idx s : nth_error rows idx = Some s -> row_at rows idx = s.
Proof. intros H. unfold row_at. now apply nth_error_nth. Qed.

(** For indices in range the loop raises nothing and appends the
    dictionaries of the rows that reach the floor. *)
Lemma recommendations_of_eq rows (scores : list number) m idxs :
  (forall idx, In idx idxs ->
     (idx < List.length rows)%nat /\ (idx < List.length scores)%nat) ->
  exists recs,
    Runtime.recommendations_of (data rows) scores m idxs = Ok recs
    /\ map Some recs
       = map (dictionary rows scores)
           (filter (fun idx => m <=? track_popularity (row_at rows idx)) idxs).
Proof.
  induction idxs as [|idx idxs IH]; intros H; [now exists []|].
  destruct IH as [recs [E Hrecs]]; [intros i Hi; apply H; now right|].
  destruct (H idx (or_introl eq_refl)) as [Hr Hs].
  destruct (nth_error rows idx) as [s|] eqn:Es; [|apply nth_error_None in Es; lia].
  destruct (nth_error scores idx) as [x|] eqn:Ex; [|apply nth_error_None in Ex; lia].
  cbn [Runtime.recommendations_of filter]. unfold at_index at 1.
  rewrite nth_error_data, Es. cbn [bind snd]. rewrite (row_at_nth _ _ _ Es).
  destruct (m <=? track_popularity s).
  - unfold at_index at 1. rewrite Ex. cbn [bind]. rewrite E. cbn [bind].
    eexists. split; [reflexivity|]. cbn [map]. rewrite Hrecs. f_equal.
    unfold dictionary. rewrite Ex. cbn [option_map]. now rewrite (row_at_nth _ _ _ Es).
  - rewrite E. now exists recs.
Qed.

(** When the loop returns, the scores it reports are those of a
    subsequence of its indices. *)
Lemma recommendations_of_scores (df : DataFrame) (scores : list number) m idxs recs :
  Runtime.recommendations_of df scores m idxs = Ok recs ->
  exists keep,
    Forall2 (fun idx r => nth_error scores idx = Some (Runtime.similarity_score r))
      (filter keep idxs) recs.
Proof.
  intros H.
  exists (fun idx => match nth_error df idx with
                     | Some song => m <=? track_popularity (snd song)
                     | None => false
                     end).
  revert recs H. induction idxs as [|idx idxs IH]; intros recs H.
  - injection H as <-. constructor.
  - cbn [Runtime.recommendations_of filter] in *. unfold at_index at 1 in H.
    destruct (nth_error df idx) as [song|]; [|discriminate]. cbn [bind] in H.
    destruct (m <=? track_popularity (snd song)); [|now apply IH].
    unfold at_index at 1 in H. destruct (nth_error scores idx) as [x|] eqn:Ex; [|discriminate].
    cbn [bind] in H.
    destruct (Runtime.recommendations_of df scores m idxs) as [tail|]; [|discriminate].
    cbn [bind] in H. injection H as <-. constructor; [exact Ex | now apply IH].
Qed.

End RuntimeLoop.

Arguments recommendations_of_eq {number} _ _ _ _ _.
Arguments recommendations_of_scores {number} _ _ _ _ _ _.

Section RuntimeAnswer.

Variable text_column : list string -> bool.
Variable number : Type.
Variable le : number -> number -> bool.
Variable fit_transform : list (list Q) -> list (list number).
Variable cosine_similarity : list (list number) -> list (list number) -> exc (list (list number)).
Variable argsort : list number -> list nat.
Variable get_close_matches : string -> list string -> list string.

(** A request that resolves gets the answer for its row. *)
Lemma get_recommendations_resolved rows song_name k m j later similar :
  Runtime.resolve text_column get_close_matches (data rows) (normalized song_name)
  = Ok (j :: later, similar) ->
  Runtime.get_recommendations text_column fit_transform cosine_similarity argsort
    get_close_matches rows song_name k m
  = answer fit_transform cosine_similarity argsort rows j k m.
Proof.
  intros H. unfold Runtime.get_recommendations, answer. unfold normalized in H.
  rewrite H. cbn [bind fst snd].
  destruct (Runtime.recommend fit_transform cosine_similarity argsort rows j k m)
    as [[recs inp]|e]; reflexivity.
Qed.

(** The recommendations returned for a resolved row are in non-increasing
    order of the scores they report. *)
Lemma recommend_sorted rows j k m recs inp :
  sorted_scores fit_transform cosine_similarity argsort le rows ->
  Runtime.recommend fit_transform cosine_similarity argsort rows j k m = Ok (recs, inp) ->
  StronglySorted
    (fun a b => le (Runtime.similarity_score b) (Runtime.similarity_score a) = true) recs.
Proof.
  intros Hsorts. unfold Runtime.recommend. intros H. split_bind H. injection H as <- _.
  rename a0 into scores.
  apply recommendations_of_scores in E1. destruct E1 as [keep HF].
  eapply (StronglySorted_Forall2 (descending le scores)); [|exact HF|].
  - intros i i' r r' Hd Hi Hi'. now apply (Hd _ _ Hi Hi').
  - apply StronglySorted_filter, slice_rev_sorted, sorts_descending. now apply (Hsorts j).
Qed.

(** When one score per row comes back, the answer holds the dictionaries
    of the kept rows. *)
Lemma recommend_eq_runtime rows j s k m scores :
  nth_error rows j = Some s ->
  Runtime.similarity_scores fit_transform cosine_similarity rows j = Ok scores ->
  List.length scores = List.length rows ->
  sorts le scores (argsort scores) ->
  exists recs,
    Runtime.recommend fit_transform cosine_similarity argsort rows j k m
    = Ok (recs, Runtime.song_info s)
    /\ map Some recs = map (dictionary rows scores) (kept_indices argsort rows scores k m).
Proof.
  intros Hs Hscores Hlen Hsorts. unfold Runtime.recommend, at_index.
  rewrite nth_error_data, Hs. cbn [bind snd]. rewrite Hscores. cbn [bind].
  destruct (recommendations_of_eq rows scores m
              (rev (slice (argsort scores) (- k - 1) (- 1)))) as [recs [E Hrecs]].
  - intros idx Hidx. apply in_rev, slice_incl in Hidx.
    apply (sorts_in_range le scores) in Hidx; [lia | exact Hsorts].
  - rewrite E. cbn [bind]. now exists recs.
Qed.

End RuntimeAnswer.

(** The head of the reversed sort: no row scores above it. *)
Lemma ranking_head {number} (le : number -> number -> bool) (a : list number)
    (order : list nat) :
  sorts le a order -> a <> [] ->
  exists h t,
    rev order = h :: t
    /\ NoDup (h :: t)
    /\ (forall i, (i < List.length a)%nat <-> In i (h :: t))
    /\ forall i x y, i <> h -> nth_error a i = Some x -> nth_error a h = Some y ->
                     le x y = true.
Proof.
  intros Hsorts Ha. pose proof (sorts_descending _ _ _ Hsorts) as Hs.
  destruct Hsorts as [Hp _].
  assert (Hp' : Permutation (rev order) (seq 0 (List.length a))).
  { now rewrite <- Permutation_rev. }
  assert (Hnd : NoDup (rev order)).
  { eapply Permutation_NoDup; [symmetry; exact Hp' | apply seq_NoDup]. }
  assert (Hin : forall i, (i < List.length a)%nat <-> In i (rev order)).
  { intros i. split; intros H.
    - eapply Permutation_in; [symmetry; exact Hp' | apply in_seq; lia].
    - eapply Permutation_in in H; [|exact Hp']. now apply in_seq in H. }
  destruct (rev order) as [|h t].
  { exfalso. destruct a as [|x a]; [now apply Ha|]. apply (Hin 0%nat). simpl. lia. }
  exists h, t. split; [reflexivity|]. split; [exact Hnd|]. split; [exact Hin|].
  intros i x y Hne Hx Hy. apply StronglySorted_inv in Hs. destruct Hs as [_ Hall].
  rewrite Forall_forall in Hall.
  assert (Hi : In i (h :: t)).
  { apply Hin. apply nth_error_Some. congruence. }
  destruct Hi as [->|Hi]; [contradiction|]. exact (Hall i Hi y x Hy Hx).
Qed.

(** The test of a sort is sound. *)
Lemma sortsb_sorts {number} (le : number -> number -> bool) (a : list number)
    (order : list nat) :
  sortsb le a order = true -> sorts le a order.
Proof.
  unfold sortsb. rewrite !andb_true_iff. intros [[Hlen Hall] Hasc]. split.
  - symmetry. apply NoDup_Permutation_bis; [apply seq_NoDup | |].
    + apply Nat.eqb_eq in Hlen. rewrite length_seq. lia.
    + intros i Hi. rewrite forallb_forall in Hall. specialize (Hall i Hi).
      apply existsb_exists in Hall. destruct Hall as [i' [Hi' E]].
      apply Nat.eqb_eq in E. now subst i'.
  - clear Hlen Hall. induction order as [|i order IH]; [constructor|].
    cbn [ascends] in Hasc. apply andb_true_iff in Hasc. destruct Hasc as [Hi Hasc].
    constructor; [now apply IH|]. rewrite forallb_forall in Hi.
    apply Forall_forall. intros j Hj x y Hx Hy. specialize (Hi j Hj).
    now rewrite Hx, Hy in Hi.
Qed.

(** The sort of the exact model keeps the promise of [np.argsort]. *)
Lemma exact_argsort_sorts (a : list sqrt_quot) : sorts score_leb a (argsort a).
Proof.
  split; [apply argsort_perm|]. rewrite argsort_pairs.
  apply (StronglySorted_map fst).
  eapply StronglySorted_weaken; [|apply sorted_pairs_sorted].
  intros [i s] [j t] Hi Hj [Hle _] x y Hx Hy. cbn [fst snd] in *.
  apply sorted_pairs_score in Hi, Hj. congruence.
Qed.

(** * The claims *)

(** ** Name resolution *)





(** ** Empty queries *)

(** C5, as the code has it. A query that is empty or made of white space
    only is not rejected: it is normalised to the empty string and searched
    for like any other. On a catalogue whose title column is text, no title
    equals it (an empty cell is a missing value) and every title that is
    present contains it: the request resolves at the second step to the
    earliest row whose title is present, and is answered as any request for
    that row is: with recommendations and that row as input song when the
    similarity call returns one score per row and the sort keeps its
    promise on them. *)
Theorem blank_query_resolves
    (text_column : list string -> bool) (number : Type)
    (fit_transform : list (list Q) -> list (list number))
    (cosine_similarity : list (list number) -> list (list number) -> exc (list (list number)))
    (argsort : list number -> list nat)
    (get_close_matches : string -> list string -> list string)
    (rows : list Song) (song_name : string) (k m : Z) (j : nat) :
  Str.whitespace_only song_name = true ->
  text_column (map track_name rows) = true ->
  first_row has_title rows j ->
  normalized song_name = ""%string
  /\ no_row (Runtime.title_is "") rows
  /\ (exists later,
        Runtime.resolve text_column get_close_matches (data rows) (normalized song_name)
        = Ok (j :: later, []))
  /\ Runtime.get_recommendations text_column fit_transform cosine_similarity argsort
       get_close_matches rows song_name k m
     = answer fit_transform cosine_similarity argsort rows j k m
  /\ forall le scores,
       Runtime.similarity_scores fit_transform cosine_similarity rows j = Ok scores ->
       List.length scores = List.length rows ->
       sorts le scores (argsort scores) ->
       exists recs,
         Runtime.get_recommendations text_column fit_transform cosine_similarity argsort
           get_close_matches rows song_name k m
         = Runtime.Found recs (Runtime.song_info (row_at rows j))
         /\ map Some recs = map (dictionary rows scores) (kept_indices argsort rows scores k m).
Proof.
  intros Hw Ht Hj.
  assert (Hq : normalized song_name = ""%string) by now apply StrFacts.strip_lower_whitespace.
  assert (H1 : no_row (Runtime.title_is "") rows)
    by (intros s _; apply runtime_title_is_blank).
  assert (H2 : first_row (Runtime.title_contains "") rows j).
  { eapply first_row_ext; [|exact Hj]. intros s. symmetry. apply runtime_title_contains_blank. }
  destruct (runtime_resolve_title_part text_column get_close_matches rows "" j Ht H1 H2)
    as [later Hres].
  rewrite <- Hq in Hres at 1.
  pose proof (get_recommendations_resolved text_column number fit_transform cosine_similarity
                argsort get_close_matches rows song_name k m j later [] Hres) as Hans.
  split; [exact Hq|]. split; [exact H1|]. split; [now exists later|]. split; [exact Hans|].
  intros le scores Hscores Hlen Hsorts. rewrite Hans. unfold answer.
  destruct Hj as [[s [Hs _]] _].
  destruct (recommend_eq_runtime number le fit_transform cosine_similarity argsort
              rows j s k m scores Hs Hscores Hlen Hsorts) as [recs [E Hrecs]].
  rewrite E, (row_at_nth _ _ _ Hs). now exists recs.
Qed.

(** Three spaces, on a catalogue whose first title is an empty cell: the
    request resolves to row 1. *)
Lemma blank_query_resolves_witness :
  Runtime.get_recommendations text_cells exact_fit_transform exact_cosine_similarity
    argsort no_close_matches untitled_first_catalogue "   " 5 0
  = answer exact_fit_transform exact_cosine_similarity argsort untitled_first_catalogue 1 5 0.
Proof.
  apply (blank_query_resolves text_cells sqrt_quot exact_fit_transform exact_cosine_similarity
           argsort no_close_matches untitled_first_catalogue "   " 5 0 1).
  - reflexivity.
  - reflexivity.
  - split.
    + eexists. split; reflexivity.
    + intros [|i] s Hi Hs; [injection Hs as <-; reflexivity | lia].
Defined.


(** C5 as stated fails: the query of three spaces is answered with
    recommendations for the first row of the catalogue. *)
Lemma blank_query_not_rejected :
  exists recs,
    get_recommendations no_close_matches shape_catalogue "   " 5 0
    = Recommendations recs (song_info (row_at shape_catalogue 0))
    /\ map (fun x => title (rec_song x)) recs = ["Shape of U"%string].
Proof.
  rewrite get_recommendations_eq.
  change (resolved_row no_close_matches shape_catalogue "   ") with (Some 0%nat).
  eexists. split; [reflexivity|]. vm_compute. reflexivity.
Qed.

(** ** The not-found result *)





(** ** The ranking behind the recommendations *)





Lemma scores_of_rad rows j i : (0 < rad (score_at (scores_of rows j) i))%Q.
Proof.
  unfold score_at. destruct (Nat.lt_ge_cases i (List.length (scores_of rows j))) as [Hi|Hi].
  - assert (H : In (nth i (scores_of rows j) (mkSQ 0 1)) (scores_of rows j)) by now apply nth_In.
    unfold scores_of at 2, cosine_similarity in H. apply in_map_iff in H.
    destruct H as [v [<- _]]. apply cosine_bounds. unfold scaler. apply scale_sq_pos.
  - rewrite nth_overflow by assumption. reflexivity.
Qed.




(** C3, as the code has it. Whatever the numbers the library calls
    compute, and for any sort that keeps the promise of [np.argsort] on the
    score arrays of the catalogue: the recommendations returned for a
    resolved row, and so those of every request that is answered with
    recommendations, come in non-increasing order of the score each of them
    reports. Nothing orders the rows of equal score. *)
Theorem recommendations_sorted
    (text_column : list string -> bool) (number : Type) (le : number -> number -> bool)
    (fit_transform : list (list Q) -> list (list number))
    (cosine_similarity : list (list number) -> list (list number) -> exc (list (list number)))
    (argsort : list number -> list nat)
    (get_close_matches : string -> list string -> list string)
    (rows : list Song) (k m : Z) :
  sorted_scores fit_transform cosine_similarity argsort le rows ->
  let non_increasing :=
    StronglySorted
      (fun a b => le (Runtime.similarity_score b) (Runtime.similarity_score a) = true) in
  (forall song_idx recs inp,
     Runtime.recommend fit_transform cosine_similarity argsort rows song_idx k m
     = Ok (recs, inp) ->
     non_increasing recs)
  /\ (forall song_name recs inp,
        Runtime.get_recommendations text_column fit_transform cosine_similarity argsort
          get_close_matches rows song_name k m
        = Runtime.Found recs inp ->
        non_increasing recs).
Proof.
  intros Hsorts non_increasing. split.
  - intros song_idx recs inp. now apply recommend_sorted.
  - intros song_name recs inp. unfold Runtime.get_recommendations.
    destruct (Runtime.resolve text_column get_close_matches (data rows)
                (Str.strip (Str.lower song_name))) as [[[|j later] similar]|e];
      cbn [bind fst snd]; try discriminate.
    destruct (Runtime.recommend fit_transform cosine_similarity argsort rows j k m)
      as [[recs' inp']|e] eqn:E; cbn [bind fst snd]; [|discriminate].
    intros H. injection H as <- _. now apply (recommend_sorted number le) in E.
Qed.

(** The request for "Q" on the catalogue with two tied rows, in binary64
    and with the sort by insertion. *)
Lemma recommendations_sorted_witness :
  exists recs inp,
    Runtime.get_recommendations text_cells Binary64.fit_transform Binary64.cosine_similarity
      Binary64.argsort no_close_matches tie_catalogue "Q" 5 0
    = Runtime.Found recs inp
    /\ StronglySorted
         (fun a b => Binary64.le (Runtime.similarity_score b) (Runtime.similarity_score a)
                     = true)
         recs.
Proof.
  assert (Hsorts : sorted_scores Binary64.fit_transform Binary64.cosine_similarity
                     Binary64.argsort Binary64.le tie_catalogue).
  { intros song_idx scores H. apply sortsb_sorts.
    destruct song_idx as [|[|[|[|song_idx]]]];
      try (vm_compute in H; injection H as <-; vm_compute; reflexivity).
    exfalso. vm_compute in H. destruct song_idx; discriminate H. }
  do 2 eexists. split; [vm_compute; reflexivity|].
  eapply (proj2 (recommendations_sorted text_cells Binary64.float Binary64.le
                   Binary64.fit_transform Binary64.cosine_similarity Binary64.argsort
                   no_close_matches tie_catalogue 5 0 Hsorts) "Q"%string).
  vm_compute. reflexivity.
Defined.

(** C3 as stated fails: "Twin 1" (row 1) and "Twin 2" (row 2) have the same
    score against "Q", and row 2 is returned before row 1. *)
Lemma tie_larger_index_first :
  titles (get_recommendations no_close_matches tie_catalogue "Q" 2 0)
  = ["Twin 2"; "Twin 1"]%string
  /\ index (kept_rows tie_catalogue 0 2 0) = [2; 1]%nat
  /\ score_eqb (score_at (scores_of tie_catalogue 0) 1)
               (score_at (scores_of tie_catalogue 0) 2) = true.
Proof. repeat split; vm_compute; reflexivity. Qed.

(** C1 fails on the code. The loop drops the last entry of the ascending
    sort, not the row of the query: in a catalogue where row 1 repeats the
    features of row 0, the request for "Song A" (row 0) drops row 1 and
    returns row 0 itself as its first recommendation. *)
Theorem query_row_recommended :
  resolved_row no_close_matches duplicate_catalogue "Song A" = Some 0%nat
  /\ index (kept_rows duplicate_catalogue 0 5 0) = [0; 2]%nat
  /\ titles (get_recommendations no_close_matches duplicate_catalogue "Song A" 5 0)
     = ["Song A"; "Song C"]%string.
Proof. repeat split; vm_compute; reflexivity. Qed.

(** ** Moods *)

Lemma in_select (p : Song -> bool) (df : DataFrame) (r : nat * Song) :
  In r (select p df) <-> In r df /\ p (snd r) = true.
Proof. unfold select. apply filter_In. Qed.

(** The filtered rows are those inside every range of the mood. *)
Lemma in_apply_filters filters (df : DataFrame) (r : nat * Song) :
  In r (apply_filters filters df)
  <-> In r df
      /\ Forall (fun flt => in_range (fst flt) (fst (snd flt)) (snd (snd flt)) (snd r) = true)
           filters.
Proof.
  unfold apply_filters. revert df. induction filters as [|f filters IH]; intros df; simpl.
  - split; [intros H; split; [assumption | constructor] | tauto].
  - rewrite IH, in_select, Forall_cons_iff. tauto.
Qed.

Lemma in_range_spec (f : Song -> Q) (lo hi : Q) (s : Song) :
  in_range f lo hi s = true <-> (lo <= f s /\ f s <= hi)%Q.
Proof. unfold in_range. now rewrite andb_true_iff, !Qle_bool_iff. Qed.

Lemma mood_filters_known (mood : string) :
  mood_filters mood = None
  <-> ~ In mood ["happy"; "sad"; "energetic"; "calm"]%string.
Proof.
  unfold mood_filters.
  destruct (String.eqb_spec mood "happy") as [->|H1]; [simpl; split; [discriminate | tauto]|].
  destruct (String.eqb_spec mood "sad") as [->|H2]; [simpl; split; [discriminate | tauto]|].
  destruct (String.eqb_spec mood "energetic") as [->|H3]; [simpl; split; [discriminate | tauto]|].
  destruct (String.eqb_spec mood "calm") as [->|H4]; [simpl; split; [discriminate | tauto]|].
  split; [|reflexivity]. intros _ [E|[E|[E|[E|[]]]]]; symmetry in E; contradiction.
Qed.

(** C6, as the code has it. No exception is raised for a mood: the mood is
    lower-cased first, and when the lower-cased name is not one of happy,
    sad, energetic, calm the method returns [None]. For a known mood the
    catalogue is filtered to the rows inside all of its ranges (for happy:
    valence in [0.7, 1] and energy in [0.6, 1]); when no row is left the
    method returns [None] as well, not an empty list. *)
Theorem mood_without_rows_is_none (rows : list Song) (mood : string) (n : Z) (st : RandomState) :
  (~ In (Str.lower mood) ["happy"; "sad"; "energetic"; "calm"]%string ->
   get_mood_based_recommendations rows mood n st = (Ok None, st))
  /\ (forall filters,
        mood_filters (Str.lower mood) = Some filters ->
        (forall r, In r (data rows) ->
           ~ Forall (fun flt => in_range (fst flt) (fst (snd flt)) (snd (snd flt)) (snd r) = true)
               filters) ->
        get_mood_based_recommendations rows mood n st = (Ok None, st))
  /\ (Str.lower mood = "happy"%string ->
      exists filters,
        mood_filters (Str.lower mood) = Some filters
        /\ forall r, In r (apply_filters filters (data rows))
             <-> In r (data rows)
                 /\ (0.7 <= valence (snd r) /\ valence (snd r) <= 1)%Q
                 /\ (0.6 <= energy (snd r) /\ energy (snd r) <= 1)%Q).
Proof.
  split; [|split].
  - intros H. apply mood_filters_known in H. unfold get_mood_based_recommendations.
    now rewrite H.
  - intros filters Hf Hnone. unfold get_mood_based_recommendations. rewrite Hf.
    assert (E : apply_filters filters (data rows) = []).
    { destruct (apply_filters filters (data rows)) as [|r l] eqn:E; [reflexivity|].
      exfalso. assert (Hr : In r (apply_filters filters (data rows))) by (rewrite E; now left).
      apply in_apply_filters in Hr. destruct Hr as [Hr Hall]. exact (Hnone r Hr Hall). }
    rewrite E. reflexivity.
  - intros ->. eexists. split; [reflexivity|]. intros r.
    rewrite in_apply_filters, !Forall_cons_iff, !in_range_spec. cbn [fst snd].
    assert (H1 : (1.0 == 1)%Q) by reflexivity.
    split; intros [Hr H]; (split; [assumption|]).
    + destruct H as [[? ?] [[? ?] _]]. repeat split; try assumption; lra.
    + destruct H as [[? ?] [? ?]]. repeat split; try assumption; try lra. constructor.
Qed.

(** The scenario of the specification: no row of the catalogue is happy. *)
Lemma mood_without_rows_is_none_witness :
  get_mood_based_recommendations padded_catalogue "happy" 5 zeros = (Ok None, zeros).
Proof.
  apply (proj1 (proj2 (mood_without_rows_is_none padded_catalogue "happy" 5 zeros))
           [(valence, (0.7, 1.0)); (energy, (0.6, 1.0))]%Q).
  - reflexivity.
  - intros r Hr Hall. apply Forall_inv in Hall.
    destruct Hr as [<-|[<-|[]]]; vm_compute in Hall; discriminate.
Defined.

(** C6 as stated fails: no row of the catalogue is happy, and the request
    returns [None], not an empty list; "HAPPY" is a known mood. *)
Lemma happy_without_rows :
  fst (get_mood_based_recommendations padded_catalogue "happy" 5 zeros) = Ok None
  /\ apply_filters [(valence, (0.7, 1.0)); (energy, (0.6, 1.0))]%Q (data padded_catalogue) = []
  /\ fst (get_mood_based_recommendations shape_catalogue "HAPPY" 5 zeros)
     = Ok (Some [song_info (row_at shape_catalogue 0)]).
Proof. repeat split; vm_compute; reflexivity. Qed.

(** ** Samples *)

Lemma NoDup_index_random_filter rows p g : NoDup (index (random_songs_filter rows p g)).
Proof.
  unfold random_songs_filter.
  assert (H : NoDup (index (if 0 <? p
                            then select (fun s => p <=? track_popularity s) (data rows)
                            else data rows))).
  { destruct (0 <? p); [apply NoDup_index_select|]; apply NoDup_index_data. }
  destruct g as [[|c g]|]; try assumption. now apply NoDup_index_select.
Qed.

Lemma NoDup_index_indian rows p : NoDup (index (indian_songs_filter rows p)).
Proof.
  unfold indian_songs_filter.
  destruct (0 <? p); repeat apply NoDup_index_select; apply NoDup_index_data.
Qed.

Lemma len_zero {A} (l : list A) : (len l =? 0) = true <-> l = [].
Proof.
  unfold len. rewrite Z.eqb_eq. destruct l; simpl; split; intros H; try reflexivity;
    try discriminate; lia.
Qed.

Lemma random_songs_sample (rows : list Song) (n p : Z) (g : option string) (st : RandomState) :
  0 <= n ->
  exists picked,
    fst (sample (random_songs_filter rows p g) n st) = Ok picked
    /\ sampled (random_songs_filter rows p g) n picked
    /\ fst (get_random_songs rows n p g st) = song_dicts picked.
Proof.
  intros Hn. set (df := random_songs_filter rows p g).
  destruct (sample_ok df n st Hn (NoDup_index_random_filter rows p g)) as [picked [E Hs]].
  exists picked. repeat split; try assumption; try apply Hs.
  unfold get_random_songs. fold df. destruct (sample df n st) as [r st'].
  cbn [fst] in *. now subst r.
Qed.

Lemma sample_snd (df : DataFrame) (n : Z) (st : RandomState) (picked : list (nat * Song)) :
  fst (sample df n st) = Ok picked -> exists st', sample df n st = (Ok picked, st').
Proof. destruct (sample df n st) as [r st']. cbn [fst]. intros ->. now exists st'. Qed.

Lemma len_map {A B} (f : A -> B) (l : list A) : len (map f l) = len l.
Proof. unfold len. now rewrite length_map. Qed.

(** C8, as the code has it. On a catalogue without missing text cells and
    for a count that is not negative, [get_random_songs] returns the
    dictionaries of rows of its filtered frame with distinct labels: as many
    as asked for, or all the filtered rows when there are fewer (none when
    there is none), and nothing is raised. The mood operation and the
    keyword operation do the same when their filter leaves a row; they
    return [None], not a sequence, when the mood filter leaves no row and
    when no row carries a keyword. *)
Theorem samples_without_repetition (rows : list Song) (n : Z) (st : RandomState) :
  let drawn (df : DataFrame) (result : list SongInfo) :=
    exists picked,
      result = map (fun r => song_info (snd r)) picked
      /\ NoDup (index picked) /\ incl picked df
      /\ len result = Z.min n (len df)
      /\ (len df <= n -> Permutation picked df) in
  0 <= n -> plain_text rows = true ->
  (forall p g,
     drawn (random_songs_filter rows p g) (fst (get_random_songs rows n p g st)))
  /\ (forall mood filters,
        mood_filters (Str.lower mood) = Some filters ->
        let df := apply_filters filters (data rows) in
        (df = [] -> fst (get_mood_based_recommendations rows mood n st) = Ok None)
        /\ (df <> [] ->
            exists result,
              fst (get_mood_based_recommendations rows mood n st) = Ok (Some result)
              /\ drawn df result))
  /\ (forall p,
        (select indian_mask (data rows) = [] ->
         fst (get_indian_music_recommendations rows n p st) = None)
        /\ (select indian_mask (data rows) <> [] ->
            exists result,
              fst (get_indian_music_recommendations rows n p st) = Some result
              /\ drawn (indian_songs_filter rows p) result)).
Proof.
  intros drawn Hn _.
  assert (Hdrawn : forall df picked, sampled df n picked -> drawn df (song_dicts picked)).
  { intros df picked [Hnd [Hincl [Hlen Hall]]]. exists picked. unfold song_dicts.
    rewrite len_map. repeat split; assumption. }
  split; [|split].
  - intros p g. destruct (random_songs_sample rows n p g st Hn) as [picked [_ [Hs ->]]].
    now apply Hdrawn.
  - intros mood filters Hf df. unfold get_mood_based_recommendations. rewrite Hf. fold df.
    split.
    + intros ->. reflexivity.
    + intros Hne. destruct (len df =? 0) eqn:E0; [apply len_zero in E0; contradiction|].
      destruct (sample_ok df n st Hn (NoDup_index_filters filters _ (NoDup_index_data rows)))
        as [picked [E Hs]].
      apply sample_snd in E. destruct E as [st' ->]. cbn [bind fst].
      exists (song_dicts picked). split; [reflexivity | now apply Hdrawn].
  - intros p. unfold get_indian_music_recommendations. split.
    + intros ->. reflexivity.
    + intros Hne. destruct (len (select indian_mask (data rows)) =? 0) eqn:E0;
        [apply len_zero in E0; contradiction|].
      destruct (sample_ok (indian_songs_filter rows p) n st Hn (NoDup_index_indian rows p))
        as [picked [E Hs]].
      apply sample_snd in E. destruct E as [st' ->]. cbn [fst].
      exists (song_dicts picked). split; [reflexivity | now apply Hdrawn].
Qed.

(** Five songs are asked of a catalogue of four: all four rows are returned. *)
Lemma samples_without_repetition_witness :
  exists picked,
    fst (get_random_songs floor_catalogue 5 0 None zeros)
    = map (fun r => song_info (snd r)) picked
    /\ NoDup (index picked) /\ incl picked (random_songs_filter floor_catalogue 0 None)
    /\ len (fst (get_random_songs floor_catalogue 5 0 None zeros))
       = Z.min 5 (len (random_songs_filter floor_catalogue 0 None))
    /\ (len (random_songs_filter floor_catalogue 0 None) <= 5 ->
        Permutation picked (random_songs_filter floor_catalogue 0 None)).
Proof.
  apply (proj1 (samples_without_repetition floor_catalogue 5 zeros ltac:(lia) eq_refl) 0 None).
Defined.

(** C8 as stated fails: no row of the catalogue carries a keyword, and the
    keyword operation, asked for five songs, returns [None] and not the
    empty sequence; so does the mood operation when no row is in the ranges
    of the mood. *)
Lemma sample_of_nothing_is_none :
  select indian_mask (data floor_catalogue) = []
  /\ fst (get_indian_music_recommendations floor_catalogue 5 0 zeros) = None
  /\ apply_filters [(energy, (0.0, 0.3)); (acousticness, (0.7, 1.0))]%Q (data floor_catalogue) = []
  /\ fst (get_mood_based_recommendations floor_catalogue "calm" 5 zeros) = Ok None
  /\ plain_text floor_catalogue = true.
Proof. repeat split; vm_compute; reflexivity. Qed.


(** ** Durations *)


Lemma for_each_at_index_incl {A} (l : list A) (idxs : list nat) (picked : list A) :
  for_each (at_index l) idxs = Ok picked -> incl picked l.
Proof.
  revert picked; induction idxs as [|i idxs IH]; simpl; intros picked H.
  - injection H as <-. intros x [].
  - unfold at_index at 1 in H. destruct (nth_error l i) as [a|] eqn:Ea; [|discriminate].
    cbn [bind] in H. destruct (for_each (at_index l) idxs) as [bs|]; [|discriminate].
    cbn [bind] in H. injection H as <-. intros x [<-|Hx].
    + now apply nth_error_In in Ea.
    + now apply (IH bs).
Qed.

Lemma sample_incl df n st picked : fst (sample df n st) = Ok picked -> incl picked df.
Proof.
  unfold sample. destruct (choice (len df) (Z.min n (len df)) st) as [[idxs|e] st'];
    cbn [fst bind]; [|discriminate].
  apply for_each_at_index_incl.
Qed.






(** ** Degenerate numbers *)

Lemma nth_zip_with {A B C} (f : A -> B -> C) (l : list A) (m : list B)
    (c : nat) (da : A) (db : B) (dc : C) :
  (c < List.length l)%nat -> (c < List.length m)%nat ->
  nth c (zip_with f l m) dc = f (nth c l da) (nth c m db).
Proof.
  revert m c; induction l as [|a l IH]; intros [|b m] [|c] Hl Hm; simpl in *; try lia.
  - reflexivity.
  - apply IH; lia.
Qed.

Lemma nth_map_seq {A} (f : nat -> A) (n c : nat) (d : A) :
  (c < n)%nat -> nth c (map f (seq 0 n)) d = f c.
Proof.
  intros Hc. rewrite (nth_indep _ d (f O)) by (now rewrite length_map, length_seq).
  now rewrite map_nth, seq_nth.
Qed.

Lemma features_length (s : Song) : List.length (features s) = n_features.
Proof. reflexivity. Qed.

(** The numerator of a standardised entry is the raw value minus the mean
    of its column. *)
Lemma song_features_entry (rows : list Song) (i c : nat) :
  (i < List.length rows)%nat -> (c < n_features)%nat ->
  nth c (nth i (song_features rows) []) 0%Q
  = (nth c (features (row_at rows i)) 0 - mean (column (map features rows) c))%Q.
Proof.
  intros Hi Hc. unfold song_features, transform.
  rewrite (nth_indep _ [] (zip_with Qminus (features no_song) (mean_ (scaler rows))))
    by (now rewrite !length_map).
  rewrite (map_nth (fun row => zip_with Qminus row (mean_ (scaler rows)))).
  rewrite (map_nth features). fold (row_at rows i).
  rewrite (nth_zip_with Qminus _ _ c 0%Q 0%Q 0%Q).
  - unfold scaler, fit. cbn [mean_]. rewrite map_map. now rewrite nth_map_seq.
  - now rewrite features_length.
  - unfold scaler, fit. cbn [mean_]. now rewrite !length_map, length_seq.
Qed.

Lemma scale_sq_entry (rows : list Song) (c : nat) :
  (c < n_features)%nat ->
  nth c (scale_sq (scaler rows)) 1%Q = handle_zeros (variance (column (map features rows) c)).
Proof.
  intros Hc. unfold scaler, fit. cbn [scale_sq]. rewrite map_map. now rewrite nth_map_seq.
Qed.

(** ** When the query row is left out *)

(** X1. For a count that is not negative and a request that is searched
    literally and resolves to row [j]: when the similarity call returns one
    score per row, the sort keeps the promise of [np.argsort] on them, and
    the score computed for every other row is strictly below the one
    computed for row [j], row [j] heads the ranking, is the row the slice
    drops, and is not among the rows recommended. *)
Theorem strict_best_left_out
    (text_column : list string -> bool) (number : Type) (le : number -> number -> bool)
    (fit_transform : list (list Q) -> list (list number))
    (cosine_similarity : list (list number) -> list (list number) -> exc (list (list number)))
    (argsort : list number -> list nat)
    (get_close_matches : string -> list string -> list string)
    (rows : list Song) (song_name : string) (k m : Z)
    (j : nat) (later : list nat) (similar : list string) (scores : list number) :
  0 <= k -> runtime_literal rows song_name = true ->
  Runtime.resolve text_column get_close_matches (data rows) (normalized song_name)
  = Ok (j :: later, similar) ->
  (j < List.length rows)%nat ->
  Runtime.similarity_scores fit_transform cosine_similarity rows j = Ok scores ->
  List.length scores = List.length rows ->
  sorts le scores (argsort scores) ->
  (forall i x y, i <> j -> nth_error scores j = Some x -> nth_error scores i = Some y ->
                 le x y = false) ->
  exists recs rest,
    Runtime.get_recommendations text_column fit_transform cosine_similarity argsort
      get_close_matches rows song_name k m
    = Runtime.Found recs (Runtime.song_info (row_at rows j))
    /\ map Some recs = map (dictionary rows scores) (kept_indices argsort rows scores k m)
    /\ rev (argsort scores) = j :: rest
    /\ kept_indices argsort rows scores k m
       = filter (fun idx => m <=? track_popularity (row_at rows idx)) (firstn (Z.to_nat k) rest)
    /\ ~ In j (kept_indices argsort rows scores k m).
Proof.
  intros Hk _ Hres Hj Hscores Hlen Hsorts Hbest.
  rewrite (get_recommendations_resolved text_column number fit_transform cosine_similarity
             argsort get_close_matches rows song_name k m j later similar Hres).
  unfold answer.
  destruct (nth_error rows j) as [s|] eqn:Hs; [|apply nth_error_None in Hs; lia].
  destruct (recommend_eq_runtime number le fit_transform cosine_similarity argsort
              rows j s k m scores Hs Hscores Hlen Hsorts) as [recs [E Hrecs]].
  rewrite E, (row_at_nth _ _ _ Hs).
  destruct (strict_best_heads le scores (argsort scores) j Hsorts) as [rest [Er Hn]];
    [lia | exact Hbest |].
  assert (Hkept : kept_indices argsort rows scores k m
                  = filter (fun idx => m <=? track_popularity (row_at rows idx))
                      (firstn (Z.to_nat k) rest)).
  { unfold kept_indices. now rewrite (slice_top _ _ Hk), Er. }
  exists recs, rest. repeat split; try assumption.
  rewrite Hkept. intros Hin. apply filter_In in Hin. destruct Hin as [Hin _].
  now apply In_firstn in Hin.
Qed.

Lemma strict_best_left_out_witness :
  exists recs rest,
    Runtime.get_recommendations text_cells exact_fit_transform exact_cosine_similarity
      argsort no_close_matches floor_catalogue "Q" 5 0
    = Runtime.Found recs (Runtime.song_info (row_at floor_catalogue 0))
    /\ map Some recs
       = map (dictionary floor_catalogue (scores_of floor_catalogue 0))
           (kept_indices argsort floor_catalogue (scores_of floor_catalogue 0) 5 0)
    /\ rev (argsort (scores_of floor_catalogue 0)) = 0%nat :: rest
    /\ kept_indices argsort floor_catalogue (scores_of floor_catalogue 0) 5 0
       = filter (fun idx => 0 <=? track_popularity (row_at floor_catalogue idx))
           (firstn (Z.to_nat 5) rest)
    /\ ~ In 0%nat (kept_indices argsort floor_catalogue (scores_of floor_catalogue 0) 5 0).
Proof.
  apply (strict_best_left_out text_cells sqrt_quot score_leb exact_fit_transform
           exact_cosine_similarity argsort no_close_matches floor_catalogue "Q" 5 0
           0 [] [] (scores_of floor_catalogue 0)).
  - lia.
  - reflexivity.
  - reflexivity.
  - simpl. lia.
  - vm_compute. reflexivity.
  - reflexivity.
  - apply sortsb_sorts. vm_compute. reflexivity.
  - intros i x y Hne Hx Hy. vm_compute in Hx. injection Hx as <-.
    destruct i as [|[|[|[|i]]]]; [contradiction | | | |];
      vm_compute in Hy; try (injection Hy as <-; vm_compute; reflexivity).
    destruct i; discriminate Hy.
Defined.


(** The scores of the two identical rows are the same list, so a sort
    gives the same order for both queries; whatever that order, the slice
    drops one row only and keeps row 0 or row 1: one of the two queries is
    answered with its own row. *)
Lemma duplicate_scores_equal :
  scores_of duplicate_catalogue 0 = scores_of duplicate_catalogue 1.
Proof. vm_compute. reflexivity. Qed.

Lemma either_duplicate_recommended (sorted : list nat) :
  Permutation sorted [0; 1; 2]%nat ->
  In 0%nat (rev (slice sorted (- 5 - 1) (- 1)))
  \/ In 1%nat (rev (slice sorted (- 5 - 1) (- 1))).
Proof.
  intros Hp.
  assert (Hnd : NoDup sorted).
  { eapply Permutation_NoDup; [symmetry; exact Hp | repeat constructor; simpl; intuition lia]. }
  pose proof (Permutation_length Hp) as Hlen.
  destruct sorted as [|a [|b [|c [|]]]]; try discriminate.
  assert (Ha : In a [0; 1; 2]%nat) by (eapply Permutation_in; [exact Hp | now left]).
  assert (Hb : In b [0; 1; 2]%nat) by (eapply Permutation_in; [exact Hp | right; now left]).
  apply NoDup_cons_iff in Hnd. destruct Hnd as [Hab _].
  change (rev (slice [a; b; c] (- 5 - 1) (- 1))) with [b; a].
  simpl in *. intuition lia.
Qed.

(** ** Suggestions *)

Lemma strings_in (values : list (option string)) (c : string) :
  In c (Runtime.strings values) -> In (Some c) values.
Proof.
  unfold Runtime.strings. rewrite in_flat_map. intros [[t|] [Hv Hc]]; [|destruct Hc].
  destruct Hc as [->|[]]. exact Hv.
Qed.

(** A close match that is one of the possibilities is the title of a row. *)
Lemma possibility_resolves rows c :
  In (Some c) (map (fun r => Runtime.lowered (track_name (snd r))) (data rows)) ->
  ~ no_row (Runtime.title_is c) rows.
Proof.
  rewrite (column_data (fun s => Runtime.lowered (track_name s))).
  intros Hc Hno. apply in_map_iff in Hc. destruct Hc as [s [Es Hs]].
  specialize (Hno s Hs). unfold Runtime.title_is in Hno. rewrite Es in Hno.
  cbn [Runtime.equals] in Hno. now rewrite String.eqb_refl in Hno.
Qed.

(** X2. [get_close_matches] returns some of the possibilities it is given.
    Then every close match is the title of a row and resolves: whatever the
    request, an error record of [get_recommendations] carries no
    suggestion, be it the not-found record or the record of the handler. *)
Theorem suggestions_always_empty
    (text_column : list string -> bool) (number : Type)
    (fit_transform : list (list Q) -> list (list number))
    (cosine_similarity : list (list number) -> list (list number) -> exc (list (list number)))
    (argsort : list number -> list nat)
    (get_close_matches : string -> list string -> list string)
    (rows : list Song) (song_name : string) (k m : Z)
    (message : string) (suggestions : list string) :
  (forall word possibilities c,
     In c (get_close_matches word possibilities) -> In c possibilities) ->
  Runtime.get_recommendations text_column fit_transform cosine_similarity argsort
    get_close_matches rows song_name k m
  = Runtime.Failed message suggestions ->
  suggestions = [].
Proof.
  intros Hsub. unfold Runtime.get_recommendations.
  set (q := Str.strip (Str.lower song_name)).
  destruct (Runtime.resolve text_column get_close_matches (data rows) q)
    as [[[|j later] similar]|e] eqn:Hres; cbn [bind fst snd].
  - intros H. injection H as _ <-.
    destruct similar as [|c similar]; [reflexivity|]. exfalso.
    unfold Runtime.resolve in Hres. split_bind Hres.
    destruct (index (select (Runtime.title_is q) (data rows))); [|discriminate].
    destruct (index (select (Runtime.title_contains q) (data rows))); [|discriminate].
    split_bind Hres.
    destruct (index (select (Runtime.artist_contains q) (data rows))); [|discriminate].
    cbv zeta in Hres. split_bind Hres. injection Hres as Hfirst Hsim. subst a1.
    unfold Runtime.close_matches in E1.
    destruct (forallb _ _); [|discriminate]. injection E1 as E1.
    assert (Hc : In c (get_close_matches q
                         (Runtime.strings
                            (map (fun r => Runtime.lowered (track_name (snd r))) (data rows)))))
      by (rewrite E1; now left).
    apply Hsub, strings_in, possibility_resolves in Hc.
    apply (runtime_first_resolving_some rows (c :: similar) c (or_introl eq_refl) Hc Hfirst).
  - destruct (Runtime.recommend fit_transform cosine_similarity argsort rows j k m)
      as [[recs inp]|e]; cbn [bind fst snd]; [discriminate|].
    intros H. now injection H as _ <-.
  - intros H. now injection H as _ <-.
Qed.

Lemma suggestions_always_empty_witness : ([] : list string) = [].
Proof.
  apply (suggestions_always_empty text_cells sqrt_quot exact_fit_transform
           exact_cosine_similarity argsort no_close_matches untitled_catalogue
           "zzzznotasong" 5 0
           "Error getting recommendations: object of type 'float' has no len()" []).
  - intros word possibilities c [].
  - vm_compute. reflexivity.
Defined.


(** ** The numbers as sklearn computes them *)

Section Sklearn.
Local Open Scope R_scope.

Lemma Rdot_scale (c d : R) (x y : list R) :
  Rdot (map (fun a => a / c) x) (map (fun b => b / d) y) = Rdot x y / (c * d).
Proof.
  revert y; induction x as [|a x IH]; intros [|b y]; simpl; try (unfold Rdiv; ring).
  rewrite IH. unfold Rdiv.
  destruct (Req_dec_T c 0) as [->|Hc]; [rewrite !Rmult_0_l, Rinv_0; ring|].
  destruct (Req_dec_T d 0) as [->|Hd]; [rewrite !Rmult_0_r, Rinv_0; ring|].
  field. split; assumption.
Qed.

Lemma Rdot_real_row (s2 u v : list Q) :
  Forall (fun r => (0 < r)%Q) s2 ->
  Rdot (real_row s2 u) (real_row s2 v) = Q2R (dot s2 u v).
Proof.
  intros Hs. revert u v. unfold real_row.
  induction Hs as [|r s2 Hr Hs IH]; intros [|a u] [|b v]; simpl;
    try (symmetry; apply RMicromega.Q2R_0).
  rewrite IH, Q2R_plus, Q2R_div, Q2R_mult.
  - destruct (sqrt_facts _ (Q2R_pos _ Hr)) as [Hp Hss].
    pose proof (Q2R_pos _ Hr). rewrite <- Hss at 3. field. lra.
  - intros E. rewrite E in Hr. discriminate.
Qed.

Lemma sqrt_handle_zeros (x : Q) :
  (0 <= x)%Q -> sqrt (Q2R (handle_zeros x)) = Rhandle_zeros (sqrt (Q2R x)).
Proof.
  intros Hx. unfold Rhandle_zeros. destruct (handle_zeros_cases x) as [[E ->]|[E ->]].
  - apply Qeq_eqR in E. rewrite E, RMicromega.Q2R_0, sqrt_0.
    destruct (Req_dec_T 0 0) as [_|H]; [|contradiction].
    replace (Q2R 1) with 1 by (unfold Q2R; simpl; field). apply sqrt_1.
  - assert (Hp : (0 < x)%Q).
    { apply Qle_lt_or_eq in Hx. destruct Hx as [H|H]; [assumption|].
      symmetry in H. contradiction. }
    destruct (sqrt_facts _ (Q2R_pos _ Hp)) as [Hs _].
    destruct (Req_dec_T (sqrt (Q2R x)) 0) as [H|_]; [lra | reflexivity].
Qed.

(** The score kept as [a / sqrt r] is the cosine similarity of the two
    standardised rows. *)
Lemma cosine_value (s2 u v : list Q) :
  Forall (fun r => (0 < r)%Q) s2 ->
  value (cosine s2 u v) = Rcosine (real_row s2 u) (real_row s2 v).
Proof.
  intros Hs. unfold Rcosine, Rnormalize. rewrite Rdot_scale, !Rdot_real_row by assumption.
  unfold value, cosine. cbn [num rad].
  rewrite Q2R_mult, sqrt_mult.
  - rewrite !sqrt_handle_zeros by now apply dot_self_nonneg. reflexivity.
  - apply Rlt_le, Q2R_pos, handle_zeros_pos. now apply dot_self_nonneg.
  - apply Rlt_le, Q2R_pos, handle_zeros_pos. now apply dot_self_nonneg.
Qed.

(** The entry kept as numerator and squared scale is the standardised
    value of the raw feature. *)
Lemma standardized_value (rows : list Song) (i c : nat) :
  (i < List.length rows)%nat -> (c < n_features)%nat ->
  value (standardized (scaler rows) (song_features rows) i c)
  = Rstandardize (Q2R (nth c (features (row_at rows i)) 0%Q))
      (Q2R (mean (column (map features rows) c)))
      (Q2R (variance (column (map features rows) c))).
Proof.
  intros Hi Hc. unfold value, standardized, Rstandardize. cbn [num rad].
  rewrite (song_features_entry rows i c Hi Hc), (scale_sq_entry rows c Hc), Q2R_minus.
  now rewrite sqrt_handle_zeros by apply variance_nonneg.
Qed.

(** The score of row [i] against row [j] is the cosine similarity of the
    two rows of the standardised matrix. *)
Lemma scores_of_value (rows : list Song) (j i : nat) :
  (i < List.length rows)%nat ->
  value (score_at (scores_of rows j) i)
  = Rcosine (real_row (scale_sq (scaler rows)) (nth j (song_features rows) []))
            (real_row (scale_sq (scaler rows)) (nth i (song_features rows) [])).
Proof.
  intros Hi. unfold score_at, scores_of, cosine_similarity.
  rewrite (nth_indep _ (mkSQ 0 1)
             (cosine (scale_sq (scaler rows)) (nth j (song_features rows) []) []))
    by (now rewrite length_map, song_features_length).
  rewrite (map_nth (cosine (scale_sq (scaler rows)) (nth j (song_features rows) []))).
  apply cosine_value. unfold scaler. apply scale_sq_pos.
Qed.

End Sklearn.

(** C9. No division of the scaler or of the similarity is by zero, and the
    degenerate cases have the values the specification gives them. The
    numbers kept as numerator and radicand are the standardised values and
    the cosine similarities of sklearn's formulas; in a column of variance
    zero the scale is replaced by one and every standardised value is 0; a
    row of norm zero has similarity 0 with every row; and every similarity
    score lies between -1 and 1. *)
Theorem degenerate_numbers (rows : list Song) :
  Forall (fun r => (0 < r)%Q) (scale_sq (scaler rows))
  /\ (forall i c,
        (i < List.length rows)%nat -> (c < n_features)%nat ->
        value (standardized (scaler rows) (song_features rows) i c)
        = Rstandardize (Q2R (nth c (features (row_at rows i)) 0%Q))
            (Q2R (mean (column (map features rows) c)))
            (Q2R (variance (column (map features rows) c)))
        /\ ((variance (column (map features rows) c) == 0)%Q ->
            nth c (scale_sq (scaler rows)) 1%Q = 1%Q
            /\ value (standardized (scaler rows) (song_features rows) i c) = 0%R))
  /\ (forall u v,
        (0 < rad (cosine (scale_sq (scaler rows)) u v))%Q
        /\ value (cosine (scale_sq (scaler rows)) u v)
           = Rcosine (real_row (scale_sq (scaler rows)) u) (real_row (scale_sq (scaler rows)) v)
        /\ ((dot (scale_sq (scaler rows)) u u == 0)%Q ->
            value (cosine (scale_sq (scaler rows)) u v) = 0%R)
        /\ (-1 <= value (cosine (scale_sq (scaler rows)) u v) <= 1)%R)
  /\ (forall j i, (-1 <= value (score_at (scores_of rows j) i) <= 1)%R).
Proof.
  assert (Hpos : Forall (fun r => (0 < r)%Q) (scale_sq (scaler rows))) by apply scale_sq_pos.
  split; [exact Hpos|]. split; [|split].
  - intros i c Hi Hc. split; [now apply standardized_value|]. intros Hv. split.
    + rewrite (scale_sq_entry rows c Hc). unfold handle_zeros.
      now rewrite (proj2 (Qeq_bool_iff _ _) Hv).
    + apply value_zero. unfold standardized. cbn [num].
      rewrite (song_features_entry rows i c Hi Hc). apply variance_zero; [exact Hv|].
      unfold column. apply in_map_iff. exists (features (row_at rows i)). split; [reflexivity|].
      apply in_map, nth_In, Hi.
  - intros u v. destruct (cosine_bounds _ u v Hpos) as [Hr Hsq]. split; [exact Hr|].
    split; [now apply cosine_value|]. split.
    + intros H0. apply value_zero. now apply cosine_zero_norm.
    + now apply value_bounds.
  - intros j i. unfold score_at.
    destruct (Nat.lt_ge_cases i (List.length (scores_of rows j))) as [Hi|Hi].
    + assert (H : In (nth i (scores_of rows j) (mkSQ 0 1)) (scores_of rows j)) by now apply nth_In.
      unfold scores_of at 2, cosine_similarity in H. apply in_map_iff in H.
      destruct H as [v [<- _]].
      destruct (cosine_bounds _ (nth j (song_features rows) []) v Hpos) as [Hr Hsq].
      now apply value_bounds.
    + rewrite nth_overflow by assumption. apply value_bounds; cbn [num rad].
      * reflexivity.
      * unfold Qle. simpl. lia.
Qed.

(** In the catalogue of the two titles every column but three is constant:
    the tempo of row 0 standardises to 0. *)
Lemma degenerate_numbers_witness :
  nth 1 (scale_sq (scaler shape_catalogue)) 1%Q = 1%Q
  /\ value (standardized (scaler shape_catalogue) (song_features shape_catalogue) 0 1) = 0%R.
Proof.
  apply (proj2 (proj1 (proj2 (degenerate_numbers shape_catalogue)) 0%nat 1%nat
                  ltac:(simpl; lia) ltac:(unfold n_features; lia))).
  vm_compute. reflexivity.
Defined.

(** ** The numbers in binary64 *)

(** C9 as stated fails in its last part. The program computes in binary64
    and nothing brings a score back into the interval: on the two rows of
    the scenario the scores against the first row are [1 + 2^-52] for the
    row itself and [-(1 + 2^-52)] for the other row, above 1 and below -1. *)
Lemma binary64_scores_leave_interval :
  Runtime.similarity_scores Binary64.fit_transform Binary64.cosine_similarity
    shape_catalogue 0
  = Ok [above_one; PrimFloat.opp above_one]
  /\ PrimFloat.ltb (Binary64.of_Z 1) above_one = true
  /\ PrimFloat.ltb (PrimFloat.opp above_one) (Binary64.of_Z (-1)) = true.
Proof. repeat split; vm_compute; reflexivity. Qed.

(** * Further properties of the program

    The properties below go beyond the claims of the specification: the
    filters of the sampling operations, their edge cases, the search, the
    genre listing, the two endpoints, and two functions of the
    application. *)

(** ** The filters of the sampling operations *)

Lemma in_random_songs_filter rows p g (r : nat * Song) :
  In r (random_songs_filter rows p g) ->
  In r (data rows)
  /\ (0 < p -> p <= track_popularity (snd r))
  /\ (forall g', g = Some g' -> g' <> ""%string ->
        Str.lower (playlist_genre (snd r)) = Str.lower g').
Proof.
  unfold random_songs_filter.
  set (df := if 0 <? p then _ else _).
  assert (Hdf : In r df -> In r (data rows) /\ (0 < p -> p <= track_popularity (snd r))).
  { unfold df. destruct (0 <? p) eqn:E.
    - rewrite in_select. intros [H1 H2]. split; [assumption|]. intros _. now apply Z.leb_le.
    - apply Z.ltb_ge in E. intros H. split; [assumption | lia]. }
  destruct g as [[|c g]|].
  - intros H. destruct (Hdf H). repeat split; try assumption.
    intros g' E. injection E as <-. congruence.
  - rewrite in_select. intros [H E]. destruct (Hdf H). repeat split; try assumption.
    intros g' E' _. injection E' as <-. now apply String.eqb_eq.
  - intros H. destruct (Hdf H). repeat split; try assumption. discriminate.
Qed.

(** X3. For a count that is not negative, every dictionary returned by
    [get_random_songs] is built from a row of the catalogue that passes the
    filters in force: its popularity reaches a positive floor, and its
    genre equals the requested one without regard to case when a genre that
    is not empty is given. *)
Theorem random_songs_pass_filters (rows : list Song) (n p : Z) (g : option string)
    (st : RandomState) (d : SongInfo) :
  0 <= n -> In d (fst (get_random_songs rows n p g st)) ->
  (exists s, In s rows /\ d = song_info s)
  /\ (0 < p -> p <= popularity d)
  /\ (forall g', g = Some g' -> g' <> ""%string -> Str.lower (genre d) = Str.lower g').
Proof.
  intros Hn Hd. destruct (random_songs_sample rows n p g st Hn) as [picked [_ [Hs E]]].
  rewrite E in Hd. unfold song_dicts in Hd. apply in_map_iff in Hd.
  destruct Hd as [r [<- Hr]]. destruct Hs as [_ [Hincl _]]. apply Hincl in Hr.
  apply in_random_songs_filter in Hr. destruct Hr as [Hr [Hp Hg]].
  split; [|split; assumption]. exists (snd r). split; [now apply in_data | reflexivity].
Qed.

(** The floor 60 and the genre "POP" leave the row of "Happy". *)
Lemma random_songs_pass_filters_witness :
  60 <= popularity (song_info (nth 1 genre_catalogue no_song))
  /\ Str.lower (genre (song_info (nth 1 genre_catalogue no_song))) = Str.lower "POP".
Proof.
  destruct (random_songs_pass_filters genre_catalogue 3 60 (Some "POP"%string) zeros
              (song_info (nth 1 genre_catalogue no_song)))
    as [_ [Hp Hg]]; [lia | vm_compute; left; reflexivity|].
  split; [apply Hp; lia | apply (Hg "POP"%string); [reflexivity | discriminate]].
Defined.

Lemma sample_negative (df : DataFrame) (n : Z) (st : RandomState) :
  n < 0 -> exists e, sample df n st = (Raise e, st).
Proof.
  intros Hn. unfold sample, choice, len.
  replace (Z.min n (Z.of_nat (List.length df))) with n by lia.
  replace (n =? 0) with false by (symmetry; apply Z.eqb_neq; lia).
  replace (Z.of_nat (List.length df) <? n) with false by (symmetry; apply Z.ltb_ge; lia).
  replace (n <? 0) with true by (symmetry; apply Z.ltb_lt; lia).
  destruct (Z.of_nat (List.length df) <=? 0); simpl; eauto.
Qed.


Lemma data_in rows s : In s rows -> exists i, In (i, s) (data rows).
Proof.
  intros H. apply In_nth_error in H. destruct H as [i Hi]. exists i.
  apply (nth_error_In _ i). unfold data, read_csv. now rewrite enumerate_from_nth, Hi.
Qed.

Lemma select_nil_no_row p rows : select p (data rows) = [] <-> no_row p rows.
Proof.
  split.
  - intros H s Hs. destruct (p s) eqn:E; [|reflexivity].
    destruct (data_in rows s Hs) as [i Hi].
    assert (Hin : In (i, s) (select p (data rows))) by (apply in_select; auto).
    rewrite H in Hin. destruct Hin.
  - intros H. destruct (select p (data rows)) as [|r l] eqn:E; [reflexivity|].
    assert (Hr : In r (select p (data rows))) by (rewrite E; now left).
    apply in_select in Hr. destruct Hr as [Hr Hp]. apply in_data in Hr.
    rewrite (H _ Hr) in Hp. discriminate.
Qed.

Lemma in_indian_songs_filter rows p (r : nat * Song) :
  In r (indian_songs_filter rows p) <->
  In r (data rows) /\ indian_mask (snd r) = true /\ passes_floor p (snd r) = true.
Proof.
  unfold indian_songs_filter, passes_floor. rewrite Z.ltb_antisym.
  destruct (p <=? 0); cbn [negb orb]; rewrite !in_select; tauto.
Qed.

Lemma passes_floor_spec p s :
  passes_floor p s = true <-> (0 < p -> p <= track_popularity s).
Proof.
  unfold passes_floor. rewrite orb_true_iff, !Z.leb_le. lia.
Qed.

(** The keyword operation in terms of its two filters. *)
Lemma indian_sample (rows : list Song) (n p : Z) (st : RandomState) :
  0 <= n -> select indian_mask (data rows) <> [] ->
  exists picked,
    sampled (indian_songs_filter rows p) n picked
    /\ fst (get_indian_music_recommendations rows n p st) = Some (song_dicts picked).
Proof.
  intros Hn Hne. unfold get_indian_music_recommendations.
  destruct (len (select indian_mask (data rows)) =? 0) eqn:E0.
  { apply len_zero in E0. contradiction. }
  destruct (sample_ok (indian_songs_filter rows p) n st Hn (NoDup_index_indian rows p))
    as [picked [E Hs]].
  exists picked. split; [assumption|].
  destruct (sample (indian_songs_filter rows p) n st) as [r st']. cbn [fst] in *. now subst r.
Qed.

(** X5. For a positive count, [get_indian_music_recommendations] returns
    [None] exactly when no row of the catalogue carries a keyword, and the
    empty list exactly when some row carries a keyword but none of those
    rows passes the popularity floor: the test for [None] comes before the
    popularity filter. *)
Theorem indian_none_or_empty (rows : list Song) (n p : Z) (st : RandomState) :
  0 < n ->
  (fst (get_indian_music_recommendations rows n p st) = None <-> no_row indian_mask rows)
  /\ (fst (get_indian_music_recommendations rows n p st) = Some []
      <-> (exists s, In s rows /\ indian_mask s = true)
          /\ no_row (fun s => indian_mask s && passes_floor p s) rows).
Proof.
  intros Hn.
  assert (Hne : (exists s, In s rows /\ indian_mask s = true)
                <-> select indian_mask (data rows) <> []).
  { rewrite select_nil_no_row. split.
    - intros [s [Hs Hm]] H. rewrite (H s Hs) in Hm. discriminate.
    - intros H. destruct (existsb indian_mask rows) eqn:E.
      + apply existsb_exists in E. exact E.
      + exfalso. apply H. intros s Hs. destruct (indian_mask s) eqn:Em; [|reflexivity].
        assert (Hx : existsb indian_mask rows = true) by (apply existsb_exists; eauto).
        congruence. }
  assert (Hempty : indian_songs_filter rows p = []
                   <-> no_row (fun s => indian_mask s && passes_floor p s) rows).
  { split.
    - intros H s Hs. destruct (indian_mask s && passes_floor p s) eqn:E; [|reflexivity].
      apply andb_true_iff in E. destruct (data_in rows s Hs) as [i Hi].
      assert (Hin : In (i, s) (indian_songs_filter rows p))
        by (apply in_indian_songs_filter; cbn [snd]; tauto).
      rewrite H in Hin. destruct Hin.
    - intros H. destruct (indian_songs_filter rows p) as [|r l] eqn:E; [reflexivity|].
      assert (Hr : In r (indian_songs_filter rows p)) by (rewrite E; now left).
      apply in_indian_songs_filter in Hr. destruct Hr as [Hr [Hm Hp]].
      apply in_data in Hr. specialize (H _ Hr). cbn beta in H. rewrite Hm, Hp in H.
      discriminate. }
  split; split.
  - intros H. apply select_nil_no_row.
    destruct (select indian_mask (data rows)) as [|r l] eqn:E; [reflexivity|].
    destruct (indian_sample rows n p st) as [picked [_ E']]; [lia | congruence|].
    rewrite E' in H. discriminate.
  - intros H. apply select_nil_no_row in H. unfold get_indian_music_recommendations.
    now rewrite H.
  - intros H.
    assert (Hsel : select indian_mask (data rows) <> []).
    { intros E. unfold get_indian_music_recommendations in H. rewrite E in H. discriminate. }
    split; [now apply Hne|]. apply Hempty.
    destruct (indian_sample rows n p st) as [picked [Hs E]]; [lia | assumption|].
    rewrite E in H. injection H as H. destruct picked; [|discriminate].
    destruct Hs as [_ [_ [Hlen _]]]. apply len_zero. apply Z.eqb_eq.
    unfold len in *. cbn [List.length] in Hlen. lia.
  - intros [Hex Hno]. apply Hne in Hex. apply Hempty in Hno.
    destruct (indian_sample rows n p st) as [picked [Hs E]]; [lia | assumption|].
    rewrite E. destruct Hs as [_ [Hincl _]]. rewrite Hno in Hincl.
    destruct picked as [|r picked]; [reflexivity|].
    destruct (Hincl r (or_introl eq_refl)).
Qed.

(** No row with a keyword reaches the floor 95. *)
Lemma indian_none_or_empty_witness :
  fst (get_indian_music_recommendations genre_catalogue 5 95 zeros) = Some [].
Proof.
  apply (proj2 (indian_none_or_empty genre_catalogue 5 95 zeros ltac:(lia))). split.
  - exists (nth 0 genre_catalogue no_song). split; [now left | reflexivity].
  - intros s [<-|[<-|[<-|[<-|[]]]]]; vm_compute; reflexivity.
Defined.

(** X6. Every dictionary returned by [get_indian_music_recommendations] is
    built from a row of the catalogue that carries a keyword in its artist,
    title or album, or "indian" in its genre, and whose popularity reaches
    the floor when the floor is positive. *)
Theorem indian_rows_pass_filters (rows : list Song) (n p : Z) (st : RandomState)
    (recs : list SongInfo) (d : SongInfo) :
  fst (get_indian_music_recommendations rows n p st) = Some recs -> In d recs ->
  exists s, In s rows /\ d = song_info s /\ indian_mask s = true
            /\ (0 < p -> p <= track_popularity s).
Proof.
  unfold get_indian_music_recommendations.
  destruct (len (select indian_mask (data rows)) =? 0); [discriminate|].
  pose proof (sample_incl (indian_songs_filter rows p) n st) as Hi.
  destruct (sample (indian_songs_filter rows p) n st) as [[picked|e] st'];
    cbn [fst] in *; [|discriminate].
  intros H Hd. injection H as <-. unfold song_dicts in Hd. apply in_map_iff in Hd.
  destruct Hd as [r [<- Hr]]. apply (Hi picked eq_refl) in Hr.
  apply in_indian_songs_filter in Hr. destruct Hr as [Hr [Hm Hp]].
  exists (snd r). repeat split; try assumption; [now apply in_data | now apply passes_floor_spec].
Qed.

Lemma indian_rows_pass_filters_witness :
  exists s, In s genre_catalogue
    /\ song_info (nth 0 genre_catalogue no_song) = song_info s
    /\ indian_mask s = true /\ (0 < 50 -> 50 <= track_popularity s).
Proof.
  apply (indian_rows_pass_filters genre_catalogue 5 50 zeros
           [song_info (nth 0 genre_catalogue no_song)]).
  - vm_compute. reflexivity.
  - now left.
Defined.

(** X7. Every dictionary returned by [get_mood_based_recommendations] is
    built from a row of the catalogue that lies inside every range of the
    mood, bounds included: for happy, valence in [0.7, 1] and energy in
    [0.6, 1]. *)
Theorem mood_rows_in_ranges (rows : list Song) (mood : string) (n : Z) (st : RandomState)
    (recs : list SongInfo) (d : SongInfo) :
  fst (get_mood_based_recommendations rows mood n st) = Ok (Some recs) -> In d recs ->
  exists s filters,
    In s rows /\ d = song_info s /\ mood_filters (Str.lower mood) = Some filters
    /\ forall f lo hi, In (f, (lo, hi)) filters -> (lo <= f s /\ f s <= hi)%Q.
Proof.
  unfold get_mood_based_recommendations.
  destruct (mood_filters (Str.lower mood)) as [filters|]; [|discriminate].
  destruct (len (apply_filters filters (data rows)) =? 0); [discriminate|].
  pose proof (sample_incl (apply_filters filters (data rows)) n st) as Hi.
  destruct (sample (apply_filters filters (data rows)) n st) as [[picked|e] st'];
    cbn [fst bind] in *; [|discriminate].
  intros H Hd. injection H as <-. unfold song_dicts in Hd. apply in_map_iff in Hd.
  destruct Hd as [r [<- Hr]]. apply (Hi picked eq_refl) in Hr.
  apply in_apply_filters in Hr. destruct Hr as [Hr Hall].
  exists (snd r), filters. repeat split; try reflexivity.
  - now apply in_data.
  - rewrite Forall_forall in Hall. specialize (Hall _ H). now apply in_range_spec in Hall.
  - rewrite Forall_forall in Hall. specialize (Hall _ H). now apply in_range_spec in Hall.
Qed.

Lemma mood_rows_in_ranges_witness :
  exists s filters,
    In s genre_catalogue /\ song_info (nth 1 genre_catalogue no_song) = song_info s
    /\ mood_filters (Str.lower "Happy") = Some filters
    /\ forall f lo hi, In (f, (lo, hi)) filters -> (lo <= f s /\ f s <= hi)%Q.
Proof.
  eapply (mood_rows_in_ranges genre_catalogue "Happy" 5 zeros).
  - vm_compute. reflexivity.
  - right. right. now left.
Defined.

(** ** Genres *)

Lemma in_unique (l : list string) (x : string) : In x (unique l) <-> In x l.
Proof.
  induction l as [|y l IH]; simpl; [tauto|].
  rewrite filter_In, IH. split.
  - intros [H|[H _]]; auto.
  - intros [H|H]; [now left|]. destruct (String.eqb_spec y x) as [E|E]; [now left|].
    right. split; [assumption | reflexivity].
Qed.

Lemma filter_nil_iff {A} (f : A -> bool) (l : list A) :
  filter f l = [] <-> forall x, In x l -> f x = false.
Proof.
  induction l as [|a l IH]; simpl; [tauto|]. destruct (f a) eqn:E.
  - split; [discriminate|]. intros H. specialize (H a (or_introl eq_refl)). congruence.
  - rewrite IH. split; [intros H x [<-|Hx]; auto | auto].
Qed.

Lemma existsb_false_iff {A} (f : A -> bool) (l : list A) :
  existsb f l = false <-> forall x, In x l -> f x = false.
Proof.
  induction l as [|a l IH]; simpl; [tauto|]. rewrite orb_false_iff, IH.
  split; [intros [H1 H2] x [<-|Hx]; auto | auto].
Qed.

Lemma genres_of_data rows :
  map (fun r => playlist_genre (snd r)) (data rows) = map playlist_genre rows.
Proof.
  unfold data, read_csv. generalize O. induction rows as [|s rows IH]; intros n; simpl;
    [reflexivity | now rewrite IH].
Qed.

Lemma select_ext (p q : Song -> bool) (df : DataFrame) :
  (forall r, In r df -> p (snd r) = q (snd r)) -> select p df = select q df.
Proof. intros H. unfold select. apply filter_ext_in. exact H. Qed.

(** The genre operation in terms of [genre_data]. *)
Lemma get_genre_recommendations_eq rows g n st :
  get_genre_recommendations rows g n st =
  if len (genre_data rows g) =? 0 then (Ok None, st)
  else let (picked, st') := sample (genre_data rows g) n st in
       (songs <- picked ;; Ok (Some (song_dicts songs)), st').
Proof.
  unfold get_genre_recommendations, genre_data. rewrite genres_of_data.
  set (q := Str.lower g). set (genres := unique (map playlist_genre rows)).
  assert (Hsel : forall (f : string -> bool) m,
             m = filter f genres ->
             select (fun s => existsb (String.eqb (playlist_genre s)) m) (data rows)
             = select (fun s => f (playlist_genre s)) (data rows)).
  { intros f m ->. apply select_ext. intros r Hr. apply in_data in Hr.
    destruct (f (playlist_genre (snd r))) eqn:E.
    - apply existsb_exists. exists (playlist_genre (snd r)). split; [|apply String.eqb_refl].
      apply filter_In. split; [|assumption]. apply in_unique, in_map, Hr.
    - apply existsb_false_iff. intros x Hx. apply filter_In in Hx. destruct Hx as [_ Hx].
      destruct (String.eqb_spec (playlist_genre (snd r)) x) as [Heq|]; [|reflexivity].
      rewrite Heq in E. congruence. }
  assert (Hex : forall f, filter f genres = [] <-> existsb (fun s => f (playlist_genre s)) rows = false).
  { intros f. rewrite filter_nil_iff, existsb_false_iff. split.
    - intros H s Hs. apply H, in_unique, in_map, Hs.
    - intros H x Hx. apply in_unique, in_map_iff in Hx. destruct Hx as [s [<- Hs]]. auto. }
  destruct (filter (fun g0 => String.eqb (Str.lower g0) q) genres) as [|g1 exact] eqn:E1.
  - apply Hex in E1. unfold genre_is. rewrite E1.
    destruct (filter (fun g0 => Str.contains q (Str.lower g0)) genres) as [|g2 part] eqn:E2.
    + apply Hex in E2.
      replace (select (genre_contains q) (data rows)) with (@nil (nat * Song)); [reflexivity|].
      symmetry. apply filter_nil_iff. intros r Hr. apply in_data in Hr.
      rewrite existsb_false_iff in E2. now apply E2.
    + rewrite <- E2. rewrite (Hsel (fun g0 => Str.contains q (Str.lower g0)) _ eq_refl).
      reflexivity.
  - assert (Hx : existsb (genre_is q) rows = true).
    { destruct (existsb (genre_is q) rows) eqn:E; [reflexivity|].
      apply (Hex (fun g0 => String.eqb (Str.lower g0) q)) in E. rewrite E in E1. discriminate. }
    rewrite Hx. rewrite <- E1. rewrite (Hsel (fun g0 => String.eqb (Str.lower g0) q) _ eq_refl).
    reflexivity.
Qed.

Lemma contains_refl (s : string) : Str.contains s s = true.
Proof.
  assert (H : String.prefix s s = true) by (induction s as [|c s IH]; simpl; [reflexivity|];
    destruct (ascii_dec c c); [assumption | contradiction]).
  destruct s; simpl in *; [reflexivity|]. now rewrite H.
Qed.

Lemma in_genre_data rows g (r : nat * Song) :
  In r (genre_data rows g) ->
  In r (data rows)
  /\ genre_contains (Str.lower g) (snd r) = true
  /\ ((exists s, In s rows /\ Str.lower (playlist_genre s) = Str.lower g) ->
      Str.lower (playlist_genre (snd r)) = Str.lower g).
Proof.
  unfold genre_data. destruct (existsb (genre_is (Str.lower g)) rows) eqn:E.
  - rewrite in_select. unfold genre_is, genre_contains. intros [Hr Hg].
    apply String.eqb_eq in Hg. split; [assumption|]. split; [|intros _; exact Hg].
    rewrite Hg. apply contains_refl.
  - rewrite in_select. intros [Hr Hg]. repeat split; try assumption.
    intros [s [Hs Es]]. rewrite existsb_false_iff in E. specialize (E s Hs).
    unfold genre_is in E. rewrite Es, String.eqb_refl in E. discriminate.
Qed.

Lemma NoDup_index_genre_data rows g : NoDup (index (genre_data rows g)).
Proof.
  unfold genre_data. destruct (existsb _ rows); apply NoDup_index_select, NoDup_index_data.
Qed.

Lemma genre_data_nil rows g :
  genre_data rows g = [] <-> no_row (genre_contains (Str.lower g)) rows.
Proof.
  unfold genre_data. destruct (existsb (genre_is (Str.lower g)) rows) eqn:E.
  - apply existsb_exists in E. destruct E as [s [Hs Es]]. split.
    + intros H. apply select_nil_no_row in H. rewrite (H s Hs) in Es. discriminate.
    + intros H. specialize (H s Hs). unfold genre_is in Es. apply String.eqb_eq in Es.
      unfold genre_contains in H. rewrite Es, contains_refl in H. discriminate.
  - apply select_nil_no_row.
Qed.

(** X8. [get_genre_recommendations] prefers the exact genre: every
    dictionary it returns is built from a row of the catalogue whose
    lower-cased genre contains the lower-cased request, and when some row
    of the catalogue has exactly the requested genre (without regard to
    case) every returned row has exactly that genre, whatever other genres
    contain the request. *)
Theorem genre_exact_before_partial (rows : list Song) (g : string) (n : Z)
    (st : RandomState) (recs : list SongInfo) (d : SongInfo) :
  fst (get_genre_recommendations rows g n st) = Ok (Some recs) -> In d recs ->
  (exists s, In s rows /\ d = song_info s)
  /\ Str.contains (Str.lower g) (Str.lower (genre d)) = true
  /\ ((exists s, In s rows /\ Str.lower (playlist_genre s) = Str.lower g) ->
      Str.lower (genre d) = Str.lower g).
Proof.
  rewrite get_genre_recommendations_eq.
  destruct (len (genre_data rows g) =? 0); [discriminate|].
  pose proof (sample_incl (genre_data rows g) n st) as Hi.
  destruct (sample (genre_data rows g) n st) as [[picked|e] st']; cbn [fst bind] in *;
    [|discriminate].
  intros H Hd. injection H as <-. unfold song_dicts in Hd. apply in_map_iff in Hd.
  destruct Hd as [r [<- Hr]]. apply (Hi picked eq_refl) in Hr.
  apply in_genre_data in Hr. destruct Hr as [Hr [Hc He]].
  split; [|split; assumption]. exists (snd r). split; [now apply in_data | reflexivity].
Qed.

(** "POP" is asked for: "K-Pop" and "Indian Pop" contain it, "pop" is it. *)
Lemma genre_exact_before_partial_witness :
  Str.lower (genre (song_info (nth 1 genre_catalogue no_song))) = Str.lower "POP".
Proof.
  eapply (genre_exact_before_partial genre_catalogue "POP" 5 zeros).
  - vm_compute. reflexivity.
  - now left.
  - exists (nth 1 genre_catalogue no_song). split; [right; now left | reflexivity].
Defined.

(** X9. [get_genre_recommendations] returns [None] exactly when no genre of
    the catalogue contains the lower-cased request, whatever the count. *)
Theorem genre_none_iff_no_match (rows : list Song) (g : string) (n : Z) (st : RandomState) :
  fst (get_genre_recommendations rows g n st) = Ok None
  <-> no_row (genre_contains (Str.lower g)) rows.
Proof.
  rewrite get_genre_recommendations_eq, <- genre_data_nil.
  destruct (len (genre_data rows g) =? 0) eqn:E.
  - apply len_zero in E. tauto.
  - split.
    + destruct (sample (genre_data rows g) n st) as [[picked|e] st']; discriminate.
    + intros H. apply len_zero in H. congruence.
Qed.

(** X10. For a count that is not negative, [get_genre_recommendations]
    returns [None] when no genre contains the request, and otherwise the
    dictionaries of a sample of the rows of the matched genres: rows with
    distinct labels, as many as asked for or all of them when there are
    fewer, and no exception is raised. *)
Theorem genre_sample (rows : list Song) (g : string) (n : Z) (st : RandomState) :
  0 <= n ->
  (no_row (genre_contains (Str.lower g)) rows
   /\ fst (get_genre_recommendations rows g n st) = Ok None)
  \/ exists picked,
       sampled (genre_data rows g) n picked
       /\ fst (get_genre_recommendations rows g n st) = Ok (Some (song_dicts picked)).
Proof.
  intros Hn. rewrite get_genre_recommendations_eq.
  destruct (len (genre_data rows g) =? 0) eqn:E.
  - left. apply len_zero in E. split; [now apply genre_data_nil | reflexivity].
  - right. destruct (sample_ok (genre_data rows g) n st Hn (NoDup_index_genre_data rows g))
      as [picked [Es Hs]].
    exists picked. split; [assumption|].
    destruct (sample (genre_data rows g) n st) as [r st']. cbn [fst] in *. now subst r.
Qed.

(** Five songs of "pop" are asked of a catalogue that has one. *)
Lemma genre_sample_witness :
  exists picked,
    sampled (genre_data genre_catalogue "pop") 5 picked
    /\ fst (get_genre_recommendations genre_catalogue "pop" 5 zeros)
       = Ok (Some (song_dicts picked))
    /\ len picked = 1.
Proof.
  destruct (genre_sample genre_catalogue "pop" 5 zeros ltac:(lia)) as [[_ E]|[picked [Hs E]]].
  - vm_compute in E. discriminate.
  - exists picked. split; [exact Hs|]. split; [exact E|].
    destruct Hs as [_ [_ [Hlen _]]]. rewrite Hlen. vm_compute. reflexivity.
Defined.

(** X4. On a catalogue without missing text cells, a negative count never
    yields songs, and each operation fails in its own way: the sampling
    raises, [get_random_songs] catches the exception and returns its single
    error record, [get_indian_music_recommendations] catches it and returns
    [None]; the mood and genre operations, which catch nothing, return
    [None] exactly when the mood is unknown or their filter leaves no row,
    and let the exception escape exactly when it leaves one. The generator
    is left as it was. *)
Theorem negative_count_yields_no_songs (rows : list Song) (n : Z) (st : RandomState) :
  n < 0 -> plain_text rows = true ->
  (forall p g, get_random_songs rows n p g st = ([error_song], st))
  /\ (forall p, get_indian_music_recommendations rows n p st = (None, st))
  /\ (forall mood,
        (mood_filters (Str.lower mood) = None ->
         get_mood_based_recommendations rows mood n st = (Ok None, st))
        /\ forall filters,
             mood_filters (Str.lower mood) = Some filters ->
             (apply_filters filters (data rows) = [] ->
              get_mood_based_recommendations rows mood n st = (Ok None, st))
             /\ (apply_filters filters (data rows) <> [] ->
                 exists e, get_mood_based_recommendations rows mood n st = (Raise e, st)))
  /\ (forall g,
        (genre_data rows g = [] -> get_genre_recommendations rows g n st = (Ok None, st))
        /\ (genre_data rows g <> [] ->
            exists e, get_genre_recommendations rows g n st = (Raise e, st))).
Proof.
  intros Hn _. split; [|split; [|split]].
  - intros p g. unfold get_random_songs.
    destruct (sample_negative (random_songs_filter rows p g) n st Hn) as [e ->]. reflexivity.
  - intros p. unfold get_indian_music_recommendations.
    destruct (len (select indian_mask (data rows)) =? 0); [reflexivity|].
    destruct (sample_negative (indian_songs_filter rows p) n st Hn) as [e ->]. reflexivity.
  - intros mood. unfold get_mood_based_recommendations. split; [now intros ->|].
    intros filters ->. split; [now intros ->|]. intros Hne.
    destruct (len (apply_filters filters (data rows)) =? 0) eqn:E0;
      [apply len_zero in E0; contradiction|].
    destruct (sample_negative (apply_filters filters (data rows)) n st Hn) as [e ->].
    exists e. reflexivity.
  - intros g. rewrite get_genre_recommendations_eq. split; [now intros ->|]. intros Hne.
    destruct (len (genre_data rows g) =? 0) eqn:E0; [apply len_zero in E0; contradiction|].
    destruct (sample_negative (genre_data rows g) n st Hn) as [e ->]. exists e. reflexivity.
Qed.

(** The count -1: the error record, [None], and for the mood "happy" and
    the genre "pop", which leave a row each, the exception. *)
Lemma negative_count_yields_no_songs_witness :
  get_random_songs genre_catalogue (-1) 0 None zeros = ([error_song], zeros)
  /\ get_indian_music_recommendations genre_catalogue (-1) 0 zeros = (None, zeros)
  /\ (exists e, get_mood_based_recommendations genre_catalogue "happy" (-1) zeros
               = (Raise e, zeros))
  /\ (exists e, get_genre_recommendations genre_catalogue "pop" (-1) zeros = (Raise e, zeros)).
Proof.
  destruct (negative_count_yields_no_songs genre_catalogue (-1) zeros ltac:(lia) eq_refl)
    as [H1 [H2 [H3 H4]]].
  split; [apply H1|]. split; [apply H2|]. split.
  - apply (proj2 (H3 "happy"%string) _ eq_refl). vm_compute. discriminate.
  - apply (H4 "pop"%string). vm_compute. discriminate.
Defined.

(** ** Recommendations: negative counts, and the row that is left out *)




(** X12. The slice leaves out a row by its place in the ranking, not the
    row of the query. For a count that is not negative and a request that
    is searched literally and resolves to row [j]: when the similarity call
    returns one score per row and the sort keeps the promise of
    [np.argsort] on them, the row left out is the first of the ranking, a row whose computed
    score no other row exceeds; the recommendations are the dictionaries of
    the [k] rows that follow it, less those below the floor; and when the
    row left out is not row [j], row [j] is still in the ranking behind
    it. *)
Theorem dropped_row_scores_highest
    (text_column : list string -> bool) (number : Type) (le : number -> number -> bool)
    (fit_transform : list (list Q) -> list (list number))
    (cosine_similarity : list (list number) -> list (list number) -> exc (list (list number)))
    (argsort : list number -> list nat)
    (get_close_matches : string -> list string -> list string)
    (rows : list Song) (song_name : string) (k m : Z)
    (j : nat) (later : list nat) (similar : list string) (scores : list number) :
  0 <= k -> runtime_literal rows song_name = true ->
  Runtime.resolve text_column get_close_matches (data rows) (normalized song_name)
  = Ok (j :: later, similar) ->
  (j < List.length rows)%nat ->
  Runtime.similarity_scores fit_transform cosine_similarity rows j = Ok scores ->
  List.length scores = List.length rows ->
  sorts le scores (argsort scores) ->
  exists dropped rest recs,
    rev (argsort scores) = dropped :: rest
    /\ (forall i x y, i <> dropped ->
          nth_error scores i = Some x -> nth_error scores dropped = Some y -> le x y = true)
    /\ Runtime.get_recommendations text_column fit_transform cosine_similarity argsort
         get_close_matches rows song_name k m
       = Runtime.Found recs (Runtime.song_info (row_at rows j))
    /\ map Some recs
       = map (dictionary rows scores)
           (filter (fun idx => m <=? track_popularity (row_at rows idx))
              (firstn (Z.to_nat k) rest))
    /\ ~ In dropped (firstn (Z.to_nat k) rest)
    /\ (dropped <> j -> In j rest).
Proof.
  intros Hk _ Hres Hj Hscores Hlen Hsorts.
  rewrite (get_recommendations_resolved text_column number fit_transform cosine_similarity
             argsort get_close_matches rows song_name k m j later similar Hres).
  unfold answer.
  destruct (nth_error rows j) as [s|] eqn:Hs; [|apply nth_error_None in Hs; lia].
  destruct (recommend_eq_runtime number le fit_transform cosine_similarity argsort
              rows j s k m scores Hs Hscores Hlen Hsorts) as [recs [E Hrecs]].
  rewrite E, (row_at_nth _ _ _ Hs).
  destruct (ranking_head le scores (argsort scores) Hsorts)
    as [dropped [rest [Er [Hnd [Hin Hbest]]]]].
  { intros ->. simpl in Hlen. lia. }
  exists dropped, rest, recs. split; [exact Er|]. split; [exact Hbest|].
  split; [reflexivity|]. split; [|split].
  - rewrite Hrecs. unfold kept_indices. now rewrite (slice_top _ _ Hk), Er.
  - intros H. apply In_firstn in H. apply NoDup_cons_iff in Hnd. now destruct Hnd.
  - intros Hne. destruct (proj1 (Hin j) ltac:(lia)) as [->|H]; [contradiction | exact H].
Qed.

(** The request for "Song A" on the catalogue where row 1 repeats the
    features of row 0: the row left out is row 1, and row 0 stays. *)
Lemma dropped_row_scores_highest_witness :
  exists dropped rest recs,
    rev (argsort (scores_of duplicate_catalogue 0)) = dropped :: rest
    /\ (forall i x y, i <> dropped ->
          nth_error (scores_of duplicate_catalogue 0) i = Some x ->
          nth_error (scores_of duplicate_catalogue 0) dropped = Some y ->
          score_leb x y = true)
    /\ Runtime.get_recommendations text_cells exact_fit_transform exact_cosine_similarity
         argsort no_close_matches duplicate_catalogue "Song A" 5 0
       = Runtime.Found recs (Runtime.song_info (row_at duplicate_catalogue 0))
    /\ map Some recs
       = map (dictionary duplicate_catalogue (scores_of duplicate_catalogue 0))
           (filter (fun idx => 0 <=? track_popularity (row_at duplicate_catalogue idx))
              (firstn (Z.to_nat 5) rest))
    /\ ~ In dropped (firstn (Z.to_nat 5) rest)
    /\ (dropped <> 0%nat -> In 0%nat rest).
Proof.
  apply (dropped_row_scores_highest text_cells sqrt_quot score_leb exact_fit_transform
           exact_cosine_similarity argsort no_close_matches duplicate_catalogue "Song A" 5 0
           0 [] [] (scores_of duplicate_catalogue 0)).
  - lia.
  - reflexivity.
  - reflexivity.
  - simpl. lia.
  - vm_compute. reflexivity.
  - reflexivity.
  - apply sortsb_sorts. vm_compute. reflexivity.
Defined.




(** ** The search *)

Lemma same_values_refl (s : Song) : same_values s s = true.
Proof.
  unfold same_values. rewrite !String.eqb_refl, !Z.eqb_refl. simpl.
  rewrite !(proj2 (Qeq_bool_iff _ _) (Qeq_refl _)). reflexivity.
Qed.

Lemma drop_duplicates_incl (df : DataFrame) : incl (drop_duplicates df) df.
Proof.
  induction df as [|r df IH]; simpl; [apply incl_refl|].
  intros x [<-|Hx]; [now left|]. right. apply filter_In in Hx. now apply IH.
Qed.


Lemma filter_twice {A} (f g : A -> bool) (l : list A) :
  filter f (filter g l) = filter (fun x => g x && f x) l.
Proof.
  induction l as [|a l IH]; simpl; [reflexivity|].
  destruct (g a); simpl; [destruct (f a)|]; now rewrite IH.
Qed.

(** What is dropped from a concatenation. *)
Lemma drop_duplicates_app (l1 l2 : DataFrame) :
  drop_duplicates (l1 ++ l2)
  = drop_duplicates l1
    ++ filter (fun r' => negb (existsb (fun r => same_values (snd r) (snd r')) l1))
         (drop_duplicates l2).
Proof.
  induction l1 as [|r l1 IH]; simpl.
  - symmetry. apply forallb_filter_id. apply forallb_forall. reflexivity.
  - f_equal. rewrite IH, filter_app. f_equal. rewrite filter_twice.
    apply filter_ext. intros r'. rewrite negb_orb. apply andb_comm.
Qed.

(** No label is left twice: the two rows would hold the same values. *)
Lemma drop_duplicates_NoDup (df : DataFrame) (rows : list Song) :
  incl df (data rows) -> NoDup (index (drop_duplicates df)).
Proof.
  intros Hin. induction df as [|r df IH]; simpl; [constructor|].
  assert (Hdf : incl df (data rows)) by (intros x Hx; apply Hin; now right).
  constructor.
  - intros Hc. unfold index in Hc. apply in_map_iff in Hc. destruct Hc as [r' [E Hr']].
    apply filter_In in Hr'. destruct Hr' as [Hr' Hne].
    apply drop_duplicates_incl, Hdf in Hr'.
    assert (Hr : In r (data rows)) by (apply Hin; now left).
    destruct r as [i s], r' as [i' s']. cbn [fst snd] in *. subst i'.
    apply in_enumerate_from in Hr, Hr'. destruct Hr as [_ Hr], Hr' as [_ Hr'].
    rewrite Hr in Hr'. injection Hr' as <-. rewrite same_values_refl in Hne. discriminate.
  - specialize (IH Hdf). unfold index in *.
    set (f := fun r' : nat * Song => negb (same_values (snd r) (snd r'))).
    clear -IH. induction (drop_duplicates df) as [|x l IHl]; simpl; [constructor|].
    apply NoDup_cons_iff in IH. destruct IH as [Hx Hl].
    destruct (f x); simpl; auto. constructor; auto.
    intros Hc. apply Hx. apply in_map_iff in Hc. destruct Hc as [y [Hy Hin]].
    apply filter_In in Hin. apply in_map_iff. exists y. tauto.
Qed.

Lemma in_data_iff rows i s : In (i, s) (data rows) <-> nth_error rows i = Some s.
Proof.
  split.
  - intros H. apply in_enumerate_from in H. now rewrite Nat.sub_0_r in H.
  - intros H. apply (nth_error_In _ i). unfold data, read_csv.
    now rewrite enumerate_from_nth, H.
Qed.

Lemma search_songs_eq rows query :
  search_songs rows query =
  match all_matches rows (Str.lower query) with
  | [] => None
  | res => Some (firstn 10 res)
  end.
Proof.
  unfold search_songs. fold (all_matches rows (Str.lower query)).
  destruct (all_matches rows (Str.lower query)) as [|r l]; [reflexivity|].
  replace (0 <? len (r :: l)) with true; [reflexivity|].
  symmetry. apply Z.ltb_lt. unfold len. simpl. lia.
Qed.

Lemma in_all_matches rows q (r : nat * Song) :
  In r (all_matches rows q) -> In r (data rows) /\ matches q (snd r) = true.
Proof.
  intros H. apply drop_duplicates_incl in H. unfold matches.
  rewrite !in_app_iff, !in_select in H. rewrite !orb_true_iff. tauto.
Qed.




(** X14. For a query without regular-expression operators, a result of
    [search_songs] is a table that is not empty and has at most ten rows,
    no label twice; each of its rows is the row of the catalogue with that
    label, and holds the lower-cased query in its title, artist or album. *)
Theorem search_results_sound (rows : list Song) (query : string) (res : DataFrame) :
  Str.regex_literal (Str.lower query) = true ->
  search_songs rows query = Some res ->
  res <> [] /\ (List.length res <= 10)%nat /\ NoDup (index res)
  /\ forall i s, In (i, s) res ->
       nth_error rows i = Some s /\ matches (Str.lower query) s = true.
Proof.
  intros _. rewrite search_songs_eq.
  destruct (all_matches rows (Str.lower query)) as [|r l] eqn:E; [discriminate|].
  intros H.
  assert (Hres : res = firstn 10 (all_matches rows (Str.lower query))) by (rewrite E; congruence).
  clear H. subst res. split; [|split; [|split]].
  - rewrite E. discriminate.
  - apply firstn_le_length.
  - assert (Hnd : NoDup (index (all_matches rows (Str.lower query)))).
    { unfold all_matches. apply (drop_duplicates_NoDup _ rows).
      intros x Hx. rewrite !in_app_iff, !in_select in Hx. tauto. }
    unfold index in *. rewrite <- (firstn_skipn 10 (all_matches rows (Str.lower query))) in Hnd.
    rewrite map_app in Hnd. now apply NoDup_app_remove_r in Hnd.
  - intros i s Hin. apply In_firstn, in_all_matches in Hin. cbn [snd] in Hin.
    now rewrite <- in_data_iff.
Qed.

Lemma search_results_sound_witness :
  exists res,
    search_songs search_catalogue "TAYLOR" = Some res
    /\ index res = [2; 0; 1]%nat
    /\ NoDup (index res)
    /\ forall i s, In (i, s) res ->
         nth_error search_catalogue i = Some s /\ matches (Str.lower "TAYLOR") s = true.
Proof.
  eexists. split; [vm_compute; reflexivity|]. split; [reflexivity|].
  eapply (search_results_sound search_catalogue "TAYLOR" _ eq_refl). vm_compute. reflexivity.
Defined.

Lemma same_values_spec (s t : Song) :
  same_values s t = true <->
  track_name s = track_name t /\ track_artist s = track_artist t
  /\ track_album_name s = track_album_name t /\ track_popularity s = track_popularity t
  /\ playlist_genre s = playlist_genre t /\ duration_ms s = duration_ms t
  /\ Forall (fun f : Song -> Q => (f s == f t)%Q)
       [energy; tempo; danceability; loudness; liveness; valence; speechiness; acousticness].
Proof.
  unfold same_values. rewrite !andb_true_iff, !String.eqb_eq, !Z.eqb_eq, forallb_forall,
    Forall_forall.
  assert (H : (forall f : Song -> Q, In f [energy; tempo; danceability; loudness; liveness;
                 valence; speechiness; acousticness] -> Qeq_bool (f s) (f t) = true)
              <-> (forall f : Song -> Q, In f [energy; tempo; danceability; loudness; liveness;
                 valence; speechiness; acousticness] -> (f s == f t)%Q)).
  { split; intros H f Hf; apply Qeq_bool_iff, H, Hf. }
  tauto.
Qed.

Lemma same_values_sym (s t : Song) : same_values s t = same_values t s.
Proof.
  assert (H : forall a b, same_values a b = true -> same_values b a = true).
  { intros a b. rewrite !same_values_spec, !Forall_forall.
    intros [H1 [H2 [H3 [H4 [H5 [H6 H7]]]]]]. repeat split; try congruence.
    intros f Hf. symmetry. now apply H7. }
  destruct (same_values s t) eqn:E1, (same_values t s) eqn:E2; try reflexivity.
  - apply H in E1. congruence.
  - apply H in E2. congruence.
Qed.

Lemma same_values_trans (s t u : Song) :
  same_values s t = true -> same_values t u = true -> same_values s u = true.
Proof.
  rewrite !same_values_spec, !Forall_forall.
  intros [H1 [H2 [H3 [H4 [H5 [H6 H7]]]]]] [G1 [G2 [G3 [G4 [G5 [G6 G7]]]]]].
  repeat split; try congruence.
  intros f Hf. rewrite (H7 f Hf). now apply G7.
Qed.

Lemma ForallOrdPairs_filter {A} (R : A -> A -> Prop) (f : A -> bool) (l : list A) :
  ForallOrdPairs R l -> ForallOrdPairs R (filter f l).
Proof.
  induction 1 as [|a l Ha Hl IH]; simpl; [constructor|].
  destruct (f a); [|assumption]. constructor; [|assumption].
  apply Forall_forall. intros x Hx. apply filter_In in Hx.
  rewrite Forall_forall in Ha. now apply Ha.
Qed.

Lemma ForallOrdPairs_firstn {A} (R : A -> A -> Prop) (n : nat) (l : list A) :
  ForallOrdPairs R l -> ForallOrdPairs R (firstn n l).
Proof.
  intros H. revert n. induction H as [|a l Ha Hl IH]; intros [|n]; simpl; try constructor.
  - apply Forall_forall. intros x Hx. apply In_firstn in Hx.
    rewrite Forall_forall in Ha. now apply Ha.
  - apply IH.
Qed.

(** The rows left hold pairwise different values. *)
Lemma drop_duplicates_distinct (df : DataFrame) :
  ForallOrdPairs (fun r r' => same_values (snd r) (snd r') = false) (drop_duplicates df).
Proof.
  induction df as [|r df IH]; simpl; constructor.
  - apply Forall_forall. intros x Hx. apply filter_In in Hx. destruct Hx as [_ Hx].
    now apply negb_true_iff in Hx.
  - now apply ForallOrdPairs_filter.
Qed.

(** Every row has its values among the rows left. *)
Lemma drop_duplicates_complete (df : DataFrame) (x : nat * Song) :
  In x df -> exists r, In r (drop_duplicates df) /\ same_values (snd r) (snd x) = true.
Proof.
  induction df as [|r df IH]; simpl; [intros []|]. intros [->|Hx].
  - exists x. split; [now left | apply same_values_refl].
  - destruct (IH Hx) as [y [Hy Hs]].
    destruct (same_values (snd r) (snd y)) eqn:E.
    + exists r. split; [now left|]. eapply same_values_trans; eassumption.
    + exists y. split; [|assumption]. right. apply filter_In. split; [assumption|].
      now rewrite E.
Qed.

(** X15. For a query without regular-expression operators, the rows of a
    result of [search_songs] that match in the title come before all the
    others, and when some title of the catalogue holds the query the first
    row of the result is the earliest such row of the catalogue. *)
Theorem search_title_matches_first (rows : list Song) (query : string) (res : DataFrame) :
  Str.regex_literal (Str.lower query) = true ->
  search_songs rows query = Some res ->
  (exists front back,
     res = front ++ back
     /\ Forall (fun r => title_contains (Str.lower query) (snd r) = true) front
     /\ Forall (fun r => title_contains (Str.lower query) (snd r) = false) back)
  /\ forall j, first_row (title_contains (Str.lower query)) rows j ->
               hd_error (index res) = Some j.
Proof.
  intros _. rewrite search_songs_eq. set (q := Str.lower query).
  destruct (all_matches rows q) as [|r0 l0] eqn:E; [discriminate|].
  intros H.
  assert (Hres : res = firstn 10 (all_matches rows q)) by (rewrite E; congruence).
  clear H E r0 l0. subst res. unfold all_matches. rewrite drop_duplicates_app.
  set (T := select (title_contains q) (data rows)).
  set (rest := filter _ (drop_duplicates _)). split.
  - rewrite firstn_app. eexists. eexists. split; [reflexivity|]. split.
    + apply Forall_forall. intros r Hr. apply In_firstn, drop_duplicates_incl in Hr.
      unfold T in Hr. now apply in_select in Hr.
    + apply Forall_forall. intros r Hr. apply In_firstn in Hr. unfold rest in Hr.
      apply filter_In in Hr. destruct Hr as [Hr Hno]. apply drop_duplicates_incl in Hr.
      destruct (title_contains q (snd r)) eqn:Et; [|reflexivity].
      apply negb_true_iff in Hno. rewrite existsb_false_iff in Hno.
      assert (HrT : In r T).
      { unfold T. apply in_select. split; [|assumption].
        rewrite !in_app_iff, !in_select in Hr. tauto. }
      specialize (Hno r HrT). rewrite same_values_refl in Hno. discriminate.
  - intros j Hj. pose proof (select_cases (title_contains q) rows) as Hc. fold T in Hc.
    destruct T as [|[i s] T']; cbn [index map fst] in Hc.
    + destruct (first_row_not_no_row _ _ _ Hj Hc).
    + simpl. f_equal. eapply first_row_unique; eassumption.
Qed.

(** "Taylor" is the title of row 2 and in the artist of the rows before. *)
Lemma search_title_matches_first_witness :
  exists res, search_songs search_catalogue "Taylor" = Some res
              /\ hd_error (index res) = Some 2%nat.
Proof.
  eexists. split; [vm_compute; reflexivity|].
  eapply (proj2 (search_title_matches_first search_catalogue "Taylor" _ eq_refl _)).
  Unshelve.
  - split; [exists (nth 2 search_catalogue no_song); split; reflexivity|].
    intros [|[|i]] s Hi E; [| |lia]; injection E as <-; reflexivity.
  - vm_compute. reflexivity.
Defined.

(** X16. For a query without regular-expression operators, no two rows of
    a result of [search_songs] hold the same values in all columns (a song
    listed twice in the catalogue is shown once), and when the result has
    fewer than ten rows, every row of the catalogue that matches has its
    values in the result. *)
Theorem search_lists_values_once (rows : list Song) (query : string) (res : DataFrame) :
  Str.regex_literal (Str.lower query) = true ->
  search_songs rows query = Some res ->
  ForallOrdPairs (fun r r' => same_values (snd r) (snd r') = false) res
  /\ ((List.length res < 10)%nat ->
      forall s, In s rows -> matches (Str.lower query) s = true ->
                exists r, In r res /\ same_values (snd r) s = true).
Proof.
  intros _. rewrite search_songs_eq. set (q := Str.lower query).
  destruct (all_matches rows q) as [|r0 l0] eqn:E; [discriminate|].
  intros H.
  assert (Hres : res = firstn 10 (all_matches rows q)) by (rewrite E; congruence).
  clear H E r0 l0. subst res. split.
  - apply ForallOrdPairs_firstn, drop_duplicates_distinct.
  - intros Hlen s Hs Hm.
    assert (Hall : firstn 10 (all_matches rows q) = all_matches rows q).
    { apply firstn_all2. rewrite length_firstn in Hlen. lia. }
    rewrite Hall. destruct (data_in rows s Hs) as [i Hi].
    apply (drop_duplicates_complete _ (i, s)).
    unfold matches in Hm. rewrite !orb_true_iff in Hm. rewrite !in_app_iff, !in_select.
    cbn [snd]. tauto.
Qed.

(** Rows 0 and 3 hold the same values: row 3 is not listed. *)
Lemma search_lists_values_once_witness :
  exists res, search_songs search_catalogue "love" = Some res
    /\ index res = [0]%nat
    /\ ForallOrdPairs (fun r r' => same_values (snd r) (snd r') = false) res.
Proof.
  eexists. split; [vm_compute; reflexivity|]. split; [reflexivity|].
  eapply (proj1 (search_lists_values_once search_catalogue "love" _ eq_refl _)).
  Unshelve. vm_compute. reflexivity.
Defined.

(** ** The genres of the catalogue *)

Lemma ascii_compare_trans (a b c : ascii) (o : comparison) :
  Ascii.compare a b = o -> Ascii.compare b c = o -> Ascii.compare a c = o.
Proof.
  unfold Ascii.compare. intros H1 H2. destruct o.
  - apply N.compare_eq_iff in H1, H2. apply N.compare_eq_iff. congruence.
  - exact (N.lt_trans _ _ _ H1 H2).
  - apply N.compare_gt_iff in H1, H2. apply N.compare_gt_iff. lia.
Qed.

Lemma ascii_compare_eq (a b : ascii) : Ascii.compare a b = Eq <-> a = b.
Proof.
  split; [apply Ascii.compare_eq_iff|]. intros ->. unfold Ascii.compare.
  apply N.compare_refl.
Qed.

Lemma string_compare_lt_trans (s t u : string) :
  String.compare s t = Lt -> String.compare t u = Lt -> String.compare s u = Lt.
Proof.
  revert t u. induction s as [|a s IH]; intros [|b t] [|c u]; simpl; try congruence.
  destruct (Ascii.compare a b) eqn:Eab; try discriminate;
    destruct (Ascii.compare b c) eqn:Ebc; try discriminate; intros H1 H2.
  - apply ascii_compare_eq in Eab, Ebc. subst. 
    replace (Ascii.compare c c) with Eq by (symmetry; now apply ascii_compare_eq).
    eapply IH; eassumption.
  - apply ascii_compare_eq in Eab. subst. now rewrite Ebc.
  - apply ascii_compare_eq in Ebc. subst. now rewrite Eab.
  - now rewrite (ascii_compare_trans a b c Lt Eab Ebc).
Qed.

Lemma string_compare_refl (s : string) : String.compare s s = Eq.
Proof.
  induction s as [|a s IH]; simpl; [reflexivity|].
  now replace (Ascii.compare a a) with Eq by (symmetry; now apply ascii_compare_eq).
Qed.

Lemma string_leb_cases (s t : string) :
  String.leb s t = true <-> s = t \/ String.ltb s t = true.
Proof.
  unfold String.leb, String.ltb. destruct (String.compare s t) eqn:E.
  - apply String.compare_eq_iff in E. tauto.
  - tauto.
  - split; [discriminate|]. intros [->|H]; [|discriminate].
    rewrite string_compare_refl in E. discriminate.
Qed.

Lemma string_ltb_trans (s t u : string) :
  String.ltb s t = true -> String.ltb t u = true -> String.ltb s u = true.
Proof.
  unfold String.ltb. intros H1 H2.
  destruct (String.compare s t) eqn:E1; try discriminate.
  destruct (String.compare t u) eqn:E2; try discriminate.
  now rewrite (string_compare_lt_trans s t u E1 E2).
Qed.

Lemma string_leb_trans (s t u : string) :
  String.leb s t = true -> String.leb t u = true -> String.leb s u = true.
Proof.
  rewrite !string_leb_cases. intros [->|H1] [->|H2]; auto.
  right. eapply string_ltb_trans; eassumption.
Qed.

Lemma string_leb_false (s t : string) : String.leb s t = false -> String.leb t s = true.
Proof. destruct (String.leb_total s t) as [H|H]; congruence. Qed.

Lemma insert_string_perm x l : Permutation (insert_string x l) (x :: l).
Proof.
  induction l as [|y l IH]; simpl; [reflexivity|].
  destruct (String.leb x y); [reflexivity|].
  rewrite IH. apply perm_swap.
Qed.

Lemma sorted_perm l : Permutation (sorted l) l.
Proof.
  induction l as [|x l IH]; simpl; [reflexivity|].
  rewrite insert_string_perm. now constructor.
Qed.

Lemma insert_string_sorted x l :
  StronglySorted (fun a b => String.leb a b = true) l ->
  StronglySorted (fun a b => String.leb a b = true) (insert_string x l).
Proof.
  induction 1 as [|y l Hl IH Hy]; simpl; [repeat constructor|].
  destruct (String.leb x y) eqn:E.
  - constructor; [now constructor|]. constructor; [assumption|].
    eapply Forall_impl; [|exact Hy]. intros a Ha. eapply string_leb_trans; eassumption.
  - constructor; [assumption|].
    eapply Permutation_Forall; [symmetry; apply insert_string_perm|].
    constructor; [now apply string_leb_false | assumption].
Qed.

Lemma sorted_sorted l : StronglySorted (fun a b => String.leb a b = true) (sorted l).
Proof.
  induction l as [|x l IH]; simpl; [constructor | now apply insert_string_sorted].
Qed.

Lemma NoDup_unique l : NoDup (unique l).
Proof.
  induction l as [|x l IH]; simpl; constructor.
  - rewrite filter_In. intros [_ H]. now rewrite String.eqb_refl in H.
  - now apply NoDup_filter.
Qed.

Lemma StronglySorted_strict (l : list string) :
  NoDup l -> StronglySorted (fun a b => String.leb a b = true) l ->
  StronglySorted (fun a b => String.ltb a b = true) l.
Proof.
  intros Hnd Hs. induction Hs as [|a l Hl IH Ha]; constructor.
  - apply IH. now apply NoDup_cons_iff in Hnd.
  - apply NoDup_cons_iff in Hnd. destruct Hnd as [Hnin _].
    apply Forall_forall. intros x Hx. rewrite Forall_forall in Ha.
    specialize (Ha x Hx). apply string_leb_cases in Ha. destruct Ha as [->|Ha]; [contradiction | assumption].
Qed.

(** X17. The list of genres of [get_available_genres] is in strictly
    ascending order of code points, so that no genre is listed twice, and
    it holds exactly the genres of the rows of the catalogue. *)
Theorem genres_sorted_and_complete (rows : list Song) :
  StronglySorted (fun a b => String.ltb a b = true) (genres (get_available_genres rows))
  /\ forall g, In g (genres (get_available_genres rows))
               <-> exists s, In s rows /\ playlist_genre s = g.
Proof.
  unfold get_available_genres. cbn [genres]. rewrite genres_of_data. split.
  - apply StronglySorted_strict; [|apply sorted_sorted].
    eapply Permutation_NoDup; [symmetry; apply sorted_perm | apply NoDup_unique].
  - intros g. split.
    + intros H. eapply Permutation_in in H; [|apply sorted_perm].
      apply in_unique, in_map_iff in H. destruct H as [s [E Hs]]. eauto.
    + intros [s [Hs <-]]. eapply Permutation_in; [symmetry; apply sorted_perm|].
      apply in_unique, in_map, Hs.
Qed.

Lemma insert_count_perm x l : Permutation (insert_count x l) (x :: l).
Proof.
  induction l as [|y l IH]; simpl; [reflexivity|].
  destruct (snd y <=? snd x)%nat; [reflexivity|].
  rewrite IH. apply perm_swap.
Qed.

Lemma value_counts_perm l :
  Permutation (value_counts l) (map (fun x => (x, count_occ string_dec l x)) (unique l)).
Proof.
  unfold value_counts. induction (map _ (unique l)) as [|x m IH]; simpl; [reflexivity|].
  rewrite insert_count_perm. now constructor.
Qed.

Lemma insert_count_sorted x l :
  StronglySorted (fun a b => (snd b <= snd a)%nat) l ->
  StronglySorted (fun a b => (snd b <= snd a)%nat) (insert_count x l).
Proof.
  induction 1 as [|y l Hl IH Hy]; simpl; [repeat constructor|].
  destruct (snd y <=? snd x)%nat eqn:E.
  - apply Nat.leb_le in E. constructor; [now constructor|]. constructor; [assumption|].
    eapply Forall_impl; [|exact Hy]. intros a Ha. simpl in *. lia.
  - apply Nat.leb_gt in E. constructor; [assumption|].
    eapply Permutation_Forall; [symmetry; apply insert_count_perm|].
    constructor; [lia | assumption].
Qed.

Lemma value_counts_sorted l :
  StronglySorted (fun a b => (snd b <= snd a)%nat) (value_counts l).
Proof.
  unfold value_counts. induction (map _ (unique l)) as [|x m IH]; simpl;
    [constructor | now apply insert_count_sorted].
Qed.

(** The counts of the members of a duplicate-free list that covers [l] add
    up to the length of [l]. *)
Lemma count_occ_sum (l u : list string) :
  NoDup u -> incl l u ->
  list_sum (map (count_occ string_dec l) u) = List.length l.
Proof.
  assert (Hcons : forall a m, list_sum (a :: m) = (a + list_sum m)%nat) by reflexivity.
  intros Hu. induction l as [|x l IH]; intros Hin.
  - clear Hu Hin. induction u as [|y u IHu]; simpl; [reflexivity | exact IHu].
  - assert (Hx : In x u) by (apply Hin; now left).
    assert (Hl : incl l u) by (intros y Hy; apply Hin; now right).
    specialize (IH Hl). cbn [List.length]. rewrite <- IH. clear IH Hin Hl.
    induction u as [|y u IHu]; [destruct Hx|].
    apply NoDup_cons_iff in Hu. destruct Hu as [Hy Hu].
    rewrite !map_cons, !Hcons.
    destruct (string_dec x y) as [E|Hne].
    + subst y. rewrite count_occ_cons_eq by reflexivity.
      assert (E : map (count_occ string_dec (x :: l)) u = map (count_occ string_dec l) u).
      { apply map_ext_in. intros z Hz. apply count_occ_cons_neq. intros ->. contradiction. }
      rewrite E. lia.
    + rewrite count_occ_cons_neq by assumption.
      destruct Hx as [->|Hx]; [contradiction|]. rewrite (IHu Hu Hx). lia.
Qed.

Lemma count_occ_genre rows g :
  count_occ string_dec (map playlist_genre rows) g = songs_of_genre rows g.
Proof.
  unfold songs_of_genre. induction rows as [|s rows IH]; simpl; [reflexivity|].
  destruct (string_dec (playlist_genre s) g) as [->|Hne].
  - rewrite String.eqb_refl. simpl. now rewrite IH.
  - apply String.eqb_neq in Hne. now rewrite Hne.
Qed.

(** X18. The counts of [get_available_genres] have one entry for each
    listed genre; the entry of a genre holds the number of rows of that
    genre, which is positive; the entries come in non-increasing order of
    count; and the counts add up to the number of rows of the catalogue. *)
Theorem genre_counts_consistent (rows : list Song) :
  Permutation (map fst (counts (get_available_genres rows)))
    (genres (get_available_genres rows))
  /\ (forall g c, In (g, c) (counts (get_available_genres rows)) ->
        c = songs_of_genre rows g /\ (0 < c)%nat)
  /\ StronglySorted (fun a b => (snd b <= snd a)%nat) (counts (get_available_genres rows))
  /\ list_sum (map snd (counts (get_available_genres rows))) = List.length rows.
Proof.
  unfold get_available_genres. cbn [genres counts]. rewrite genres_of_data.
  set (l := map playlist_genre rows).
  pose proof (value_counts_perm l) as Hp. split; [|split; [|split]].
  - rewrite (Permutation_map fst Hp), map_map. cbn [fst]. rewrite map_id.
    symmetry. apply sorted_perm.
  - intros g c Hin. eapply Permutation_in in Hin; [|exact Hp].
    apply in_map_iff in Hin. destruct Hin as [x [E Hx]]. injection E as -> <-.
    apply (proj1 (in_unique _ _)) in Hx. split.
    + apply count_occ_genre.
    + apply (count_occ_In string_dec) in Hx. lia.
  - apply value_counts_sorted.
  - rewrite (Permutation_map snd Hp). 
    assert (Hs : forall a b : list nat, Permutation a b -> list_sum a = list_sum b).
    { induction 1; simpl; lia. }
    rewrite map_map. cbn [snd].
    rewrite count_occ_sum; [unfold l; apply length_map | apply NoDup_unique |].
    intros x Hx. now apply in_unique.
Qed.

(** ** The endpoints *)

Lemma slice_last {A} (l : list A) (k : Z) :
  0 < k -> rev (slice_from l (- k)) = firstn (Z.to_nat k) (rev l).
Proof.
  intros Hk. unfold slice_from, slice, slice_bound, len.
  set (n := List.length l).
  replace (Z.of_nat n <? 0) with false by (symmetry; apply Z.ltb_ge; lia).
  replace (- k <? 0) with true by (symmetry; apply Z.ltb_lt; lia).
  rewrite Z.min_id, firstn_rev. fold n. f_equal.
  rewrite firstn_all2 by (rewrite length_skipn; fold n; lia).
  f_equal. lia.
Qed.



Lemma for_each_at_index {A} (a : list A) (idxs : list nat) :
  (forall idx, In idx idxs -> (idx < List.length a)%nat) ->
  exists values,
    for_each (at_index a) idxs = Ok values
    /\ Forall2 (fun idx x => nth_error a idx = Some x) idxs values.
Proof.
  induction idxs as [|idx idxs IH]; intros H; [exists []; split; [reflexivity | constructor]|].
  destruct IH as [values [E HF]]; [intros i Hi; apply H; now right|].
  destruct (nth_error a idx) as [x|] eqn:Ex;
    [|apply nth_error_None in Ex; specialize (H idx (or_introl eq_refl)); lia].
  exists (x :: values). cbn [for_each]. unfold at_index at 1. rewrite Ex. cbn [bind].
  rewrite E. cbn [bind]. split; [reflexivity | now constructor].
Qed.

(** The five best indices and their scores. *)
Lemma runtime_top_five {number} (le : number -> number -> bool) (scores : list number)
    (order : list nat) :
  sorts le scores order ->
  rev (slice_from order (- 5)) = firstn 5 (rev order)
  /\ exists values,
       for_each (at_index scores) (firstn 5 (rev order)) = Ok values
       /\ Forall2 (fun idx x => nth_error scores idx = Some x) (firstn 5 (rev order)) values.
Proof.
  intros [Hp _]. split; [exact (slice_last order 5 ltac:(lia))|].
  apply for_each_at_index. intros idx Hidx. apply In_firstn, in_rev in Hidx.
  eapply Permutation_in in Hidx; [|exact Hp]. now apply in_seq in Hidx.
Qed.

(** X19. For a request that holds the eight features, [predict_fn]
    raises what [scaler.transform] or [cosine_similarity] raises; when they
    return and the sort keeps the promise of [np.argsort] on the scores, it
    returns the indices of five rows of the score array (of all rows when
    there are fewer), no row twice, with the scores computed for them, in
    non-increasing order of score, and no row that is left out has a score
    above that of a row that is returned. *)
Theorem predict_top_five
    (number : Type) (le : number -> number -> bool)
    (cosine_similarity : list (list number) -> list (list number) -> exc (list (list number)))
    (argsort : list number -> list nat)
    (Scaler : Type) (transform : Scaler -> list (list Q) -> exc (list (list number)))
    (input_data : Event) (model : list (list number)) (scaler : Scaler) (x : list Q) :
  input_features input_data = Ok x ->
  let result := Runtime.predict_fn cosine_similarity argsort transform input_data (model, scaler) in
  (forall e, transform scaler [x] = Raise e -> result = Raise e)
  /\ (forall scaled e,
        transform scaler [x] = Ok scaled -> cosine_similarity scaled model = Raise e ->
        result = Raise e)
  /\ (forall scaled scores others,
        transform scaler [x] = Ok scaled ->
        cosine_similarity scaled model = Ok (scores :: others) ->
        sorts le scores (argsort scores) ->
        exists top_indices top_similarities,
          result = Ok (top_indices, top_similarities)
          /\ List.length top_indices = Nat.min 5 (List.length scores)
          /\ NoDup top_indices
          /\ Forall2 (fun idx s => nth_error scores idx = Some s) top_indices top_similarities
          /\ StronglySorted (fun a b => le b a = true) top_similarities
          /\ forall i j s t,
               In i top_indices -> ~ In j top_indices ->
               nth_error scores i = Some s -> nth_error scores j = Some t ->
               le t s = true).
Proof.
  intros Hx result. unfold result, Runtime.predict_fn. rewrite Hx. cbn [bind].
  split; [|split].
  - intros e ->. reflexivity.
  - intros scaled e -> He. cbn [bind]. now rewrite He.
  - intros scaled scores others -> Hs Hsc. cbn [bind]. rewrite Hs.
    cbn [bind at_index nth_error].
    assert (Htop : rev (slice_from (argsort scores) (- 5)) = firstn 5 (rev (argsort scores)))
      by exact (slice_last (argsort scores) 5 ltac:(lia)).
    rewrite Htop. clear Htop.
    pose proof (sorts_descending _ _ _ Hsc) as Hd.
    destruct Hsc as [Hp _].
    assert (Hp' : Permutation (rev (argsort scores)) (seq 0 (List.length scores))).
    { now rewrite <- Permutation_rev. }
    set (ranked := rev (argsort scores)) in *.
    destruct (for_each_at_index scores (firstn 5 ranked)) as [values [E HF]].
    { intros idx Hidx. apply In_firstn in Hidx.
      eapply Permutation_in in Hidx; [|exact Hp']. now apply in_seq in Hidx. }
    rewrite E. cbn [bind]. exists (firstn 5 ranked), values.
    rewrite <- (firstn_skipn 5 ranked) in Hd.
    apply StronglySorted_app_inv in Hd. destruct Hd as [Hfront [_ Hcross]].
    split; [reflexivity|]. split; [|split; [|split; [exact HF|split]]].
    + rewrite length_firstn, (Permutation_length Hp'), length_seq. reflexivity.
    + assert (Hnd : NoDup ranked).
      { eapply Permutation_NoDup; [symmetry; exact Hp' | apply seq_NoDup]. }
      rewrite <- (firstn_skipn 5 ranked) in Hnd. now apply NoDup_app_remove_r in Hnd.
    + eapply (StronglySorted_Forall2 (descending le scores)); [|exact HF|exact Hfront].
      intros i i' s s' Hd Hi Hi'. now apply (Hd _ _ Hi Hi').
    + intros i j s t Hi Hnj Hsi Htj.
      assert (Hj : In j (skipn 5 ranked)).
      { assert (H : In j ranked).
        { eapply Permutation_in; [symmetry; exact Hp'|]. apply in_seq.
          assert (nth_error scores j <> None) by congruence.
          apply nth_error_Some in H. lia. }
        rewrite <- (firstn_skipn 5 ranked) in H. apply in_app_iff in H.
        destruct H; [contradiction | assumption]. }
      exact (Hcross i j Hi Hj s t Hsi Htj).
Qed.

(** The features of the last row of a catalogue of four: all four rows
    come back. *)
Lemma predict_top_five_witness :
  exists top_indices top_similarities,
    Runtime.predict_fn exact_cosine_similarity argsort exact_transform
      (event_of (features (nth 3 floor_catalogue no_song)))
      (exact_fit_transform (map features floor_catalogue), fit (map features floor_catalogue))
    = Ok (top_indices, top_similarities)
    /\ List.length top_indices = 4%nat.
Proof.
  destruct (predict_top_five sqrt_quot score_leb exact_cosine_similarity argsort
              ScalerState exact_transform
              (event_of (features (nth 3 floor_catalogue no_song)))
              (exact_fit_transform (map features floor_catalogue))
              (fit (map features floor_catalogue))
              (features (nth 3 floor_catalogue no_song)) eq_refl) as [_ [_ H]].
  destruct (H _ _ [] eq_refl ltac:(vm_compute; reflexivity) (exact_argsort_sorts _))
    as [top [sims [E [Hlen _]]]].
  exists top, sims. split; [exact E|]. rewrite Hlen. vm_compute. reflexivity.
Defined.



(** X20. The endpoint leaves nothing out of its ranking. When the
    library calls return the scores of at least one row and the sort keeps
    the promise of [np.argsort] on them, the first index [predict_fn] returns is
    a row whose computed score no other row exceeds, and a row whose
    computed score is strictly above that of every other row is that first
    index, where [get_recommendations] would leave it out. *)
Theorem best_row_first_at_endpoint
    (number : Type) (le : number -> number -> bool)
    (cosine_similarity : list (list number) -> list (list number) -> exc (list (list number)))
    (argsort : list number -> list nat)
    (Scaler : Type) (transform : Scaler -> list (list Q) -> exc (list (list number)))
    (input_data : Event) (model : list (list number)) (scaler : Scaler) (x : list Q)
    (scaled : list (list number)) (scores : list number) (others : list (list number)) :
  input_features input_data = Ok x ->
  transform scaler [x] = Ok scaled ->
  cosine_similarity scaled model = Ok (scores :: others) ->
  sorts le scores (argsort scores) ->
  scores <> [] ->
  exists first rest top_similarities,
    Runtime.predict_fn cosine_similarity argsort transform input_data (model, scaler)
    = Ok (first :: rest, top_similarities)
    /\ (forall i s t, i <> first ->
          nth_error scores i = Some s -> nth_error scores first = Some t -> le s t = true)
    /\ forall j, (j < List.length scores)%nat ->
         (forall i s t, i <> j ->
            nth_error scores j = Some s -> nth_error scores i = Some t -> le s t = false) ->
         first = j.
Proof.
  intros Hx Ht Hc Hsorts Hne. unfold Runtime.predict_fn.
  rewrite Hx. cbn [bind]. rewrite Ht. cbn [bind]. rewrite Hc. cbn [bind at_index nth_error].
  destruct (runtime_top_five le scores (argsort scores) Hsorts)
    as [Htop [values [E _]]].
  rewrite Htop, E. cbn [bind].
  destruct (ranking_head le scores (argsort scores) Hsorts Hne)
    as [first [rest [Er [_ [_ Hbest]]]]].
  rewrite Er. exists first, (firstn 4 rest), values. split; [reflexivity|].
  split; [exact Hbest|]. intros j Hj Hstrict.
  destruct (strict_best_heads le scores (argsort scores) j Hsorts Hj Hstrict)
    as [t [Et _]].
  rewrite Er in Et. now injection Et.
Qed.

(** The features of the last row of the catalogue: that row comes first. *)
Lemma best_row_first_at_endpoint_witness :
  exists rest top_similarities,
    Runtime.predict_fn exact_cosine_similarity argsort exact_transform
      (event_of (features (row_at floor_catalogue 3)))
      (exact_fit_transform (map features floor_catalogue), fit (map features floor_catalogue))
    = Ok (3%nat :: rest, top_similarities).
Proof.
  destruct (best_row_first_at_endpoint sqrt_quot score_leb exact_cosine_similarity argsort
              ScalerState exact_transform
              (event_of (features (row_at floor_catalogue 3)))
              (exact_fit_transform (map features floor_catalogue))
              (fit (map features floor_catalogue))
              (features (row_at floor_catalogue 3))
              _ (scores_of floor_catalogue 3) []
              eq_refl eq_refl ltac:(vm_compute; reflexivity)
              (exact_argsort_sorts _) ltac:(discriminate))
    as [first [rest [sims [E [_ Hbest]]]]].
  exists rest, sims. rewrite E. f_equal. f_equal. f_equal. apply Hbest; [simpl; lia|].
  intros i s t Hne Hs Hi. vm_compute in Hs. injection Hs as <-.
  destruct i as [|[|[|[|i]]]]; [| | |contradiction|];
    vm_compute in Hi; try (injection Hi as <-; vm_compute; reflexivity).
  destruct i; discriminate Hi.
Defined.




Lemma combine_values {A} (a : list A) (idxs : list nat) (values : list A) :
  Forall2 (fun idx x => nth_error a idx = Some x) idxs values ->
  Forall (fun p => nth_error a (fst p) = Some (snd p)) (combine idxs values).
Proof. induction 1; simpl; constructor; assumption. Qed.

Lemma combine_fst_values {A B} (P : A -> B -> Prop) (l : list A) (l' : list B) :
  Forall2 P l l' -> map fst (combine l l') = l.
Proof. induction 1; simpl; [reflexivity | now f_equal]. Qed.

(** The loop of [lambda_handler] over indices in range. *)
Lemma suggestions_eq {number} (metadata : DataFrame) (scores : list number)
    (pairs : list (nat * number)) :
  Forall (fun p => nth_error scores (fst p) = Some (snd p)) pairs ->
  (forall p, In p pairs -> (fst p < List.length metadata)%nat) ->
  exists recs,
    for_each (fun p =>
                song <- at_index metadata (fst p) ;;
                Ok {| Runtime.suggested_track := Runtime.read_text (track_name (snd song));
                      Runtime.suggested_artist := Runtime.read_text (track_artist (snd song));
                      Runtime.suggested_album := Runtime.read_text (track_album_name (snd song));
                      Runtime.suggested_popularity := track_popularity (snd song);
                      Runtime.suggested_genre := Runtime.read_text (playlist_genre (snd song));
                      Runtime.suggested_score := snd p |}) pairs
    = Ok recs
    /\ map Some recs = map (suggestion metadata scores) (map fst pairs).
Proof.
  induction 1 as [|p pairs Hp HF IH]; intros Hr; [now exists []|].
  destruct IH as [recs [E Hrecs]]; [intros q Hq; apply Hr; now right|].
  specialize (Hr p (or_introl eq_refl)).
  destruct (nth_error metadata (fst p)) as [song|] eqn:Es; [|apply nth_error_None in Es; lia].
  cbn [for_each]. unfold at_index at 1. rewrite Es. cbn [bind]. rewrite E. cbn [bind].
  eexists. split; [reflexivity|]. cbn [map]. rewrite Hrecs. f_equal.
  unfold suggestion. now rewrite Es, Hp.
Qed.

(** X21. [lambda_handler] answers with status 200 or 500. The status is
    500, with the text of the exception, when the files cannot be loaded,
    when the event lacks one of the eight features, and when
    [scaler.transform] or [cosine_similarity] raises. When they return one
    score per row of the metadata, whose text columns are text, and the
    sort keeps the promise of [np.argsort] on the scores, the status is 200 and the body holds the dictionaries of
    the five rows first in the ranking (of all rows when there are fewer),
    best first, each with the score computed for it. *)
Theorem lambda_handler_status
    (text_column : list string -> bool)
    (number : Type) (le : number -> number -> bool)
    (cosine_similarity : list (list number) -> list (list number) -> exc (list (list number)))
    (argsort : list number -> list nat)
    (Scaler : Type) (transform : Scaler -> list (list Q) -> exc (list (list number)))
    (loaded : exc (list (list number) * Scaler * DataFrame)) (event : Event) :
  let response := Runtime.lambda_handler cosine_similarity argsort transform loaded event in
  (Runtime.statusCode response = 200 \/ Runtime.statusCode response = 500)
  /\ (forall e, loaded = Raise e -> response = failure e)
  /\ forall model scaler metadata,
       loaded = Ok (model, scaler, metadata) ->
       (forall e, input_features event = Raise e -> response = failure e)
       /\ forall x,
            input_features event = Ok x ->
            (forall e, transform scaler [x] = Raise e -> response = failure e)
            /\ forall scaled,
                 transform scaler [x] = Ok scaled ->
                 (forall e, cosine_similarity scaled model = Raise e -> response = failure e)
                 /\ forall scores others,
                      cosine_similarity scaled model = Ok (scores :: others) ->
                      List.length scores = List.length metadata ->
                      sorts le scores (argsort scores) ->
                      text_columns text_column metadata = true ->
                      exists recommendations,
                        response = {| Runtime.statusCode := 200;
                                      Runtime.body := Runtime.Suggestions recommendations |}
                        /\ map Some recommendations
                           = map (suggestion metadata scores) (firstn 5 (rev (argsort scores)))
                        /\ List.length recommendations = Nat.min 5 (List.length metadata).
Proof.
  intros response. split; [|split].
  - unfold response, Runtime.lambda_handler. destruct (bind loaded _); [now left | now right].
  - intros e ->. reflexivity.
  - intros model scaler metadata ->. unfold response, Runtime.lambda_handler. cbn [bind].
    split; [now intros e ->|]. intros x ->. cbn [bind].
    split; [now intros e ->|]. intros scaled ->. cbn [bind].
    split; [now intros e ->|]. intros scores others -> Hlen Hsorts _.
    cbn [bind at_index nth_error].
    destruct (runtime_top_five le scores (argsort scores) Hsorts)
      as [Htop [values [E HF]]].
    rewrite Htop, E. cbn [bind].
    destruct (suggestions_eq metadata scores (combine (firstn 5 (rev (argsort scores))) values))
      as [recs [Er Hrecs]].
    + now apply combine_values.
    + intros p Hp. apply (in_map fst) in Hp. rewrite (combine_fst_values _ _ _ HF) in Hp.
      apply In_firstn, in_rev in Hp.
      apply (sorts_in_range le scores) in Hp; [lia | exact Hsorts].
    + rewrite Er. exists recs. split; [reflexivity|].
      rewrite (combine_fst_values _ _ _ HF) in Hrecs. split; [exact Hrecs|].
      apply (f_equal (@List.length _)) in Hrecs. rewrite !length_map in Hrecs.
      rewrite Hrecs, length_firstn, length_rev.
      destruct Hsorts as [Hp _]. apply Permutation_length in Hp.
      rewrite Hp, length_seq, Hlen. reflexivity.
Qed.

(** The features of the last row of a catalogue of four rows: status 200
    and four dictionaries. *)
Lemma lambda_handler_status_witness :
  exists recommendations,
    Runtime.lambda_handler exact_cosine_similarity argsort exact_transform
      (Ok (exact_fit_transform (map features floor_catalogue),
           fit (map features floor_catalogue), data floor_catalogue))
      (event_of (features (row_at floor_catalogue 3)))
    = {| Runtime.statusCode := 200; Runtime.body := Runtime.Suggestions recommendations |}
    /\ List.length recommendations = 4%nat.
Proof.
  destruct (lambda_handler_status text_cells sqrt_quot score_leb exact_cosine_similarity argsort
              ScalerState exact_transform
              (Ok (exact_fit_transform (map features floor_catalogue),
                   fit (map features floor_catalogue), data floor_catalogue))
              (event_of (features (row_at floor_catalogue 3)))) as [_ [_ H]].
  destruct (H _ _ _ eq_refl) as [_ Hx].
  destruct (Hx _ eq_refl) as [_ Ht].
  destruct (Ht _ eq_refl) as [_ Hc].
  destruct (Hc (scores_of floor_catalogue 3) [] ltac:(vm_compute; reflexivity) eq_refl
              (exact_argsort_sorts _) eq_refl) as [recs [E [_ Hlen]]].
  exists recs. split; [exact E | exact Hlen].
Defined.


(** ** The genre selected in the application *)

Lemma contains_space_cons (c : ascii) (s : string) :
  Str.contains " " (String c s) = Ascii.eqb c " " || Str.contains " " s.
Proof.
  cbn [Str.contains String.prefix].
  destruct (ascii_dec " " c) as [<-|Hc].
  - now destruct s.
  - destruct (Ascii.eqb_spec c " ") as [->|_]; [contradiction | reflexivity].
Qed.

Lemma first_word_app (a b : string) :
  first_word (a ++ String " " b) = first_word a.
Proof.
  induction a as [|c a IH]; [reflexivity|]. cbn [first_word append].
  destruct (Ascii.eqb c " "); [reflexivity | now rewrite IH].
Qed.

Lemma first_word_id (g : string) : first_word g = g <-> Str.contains " " g = false.
Proof.
  induction g as [|c g IH]; [split; reflexivity|].
  rewrite contains_space_cons, orb_false_iff. cbn [first_word].
  destruct (Ascii.eqb c " ").
  - split; [discriminate | intros [H _]; discriminate].
  - rewrite <- IH. split.
    + intros E. injection E as E. now split.
    + intros [_ E]. now rewrite E.
Qed.

Lemma contains_space_app (a b : string) : Str.contains " " (a ++ String " " b) = true.
Proof.
  induction a as [|c a IH]; cbn [append]; rewrite contains_space_cons;
    [reflexivity | rewrite IH; apply orb_true_r].
Qed.

Lemma actual_genre_option (g : string) (n : nat) :
  actual_genre (genre_option g n) = Some (first_word g).
Proof.
  unfold actual_genre, genre_option.
  change (" (" ++ str_of_nat n ++ " songs)")%string
    with (String " " ("(" ++ str_of_nat n ++ " songs)"))%string.
  replace (String.eqb (g ++ String " " ("(" ++ str_of_nat n ++ " songs)")) "All") with false.
  - cbn [negb]. now rewrite first_word_app.
  - symmetry. apply String.eqb_neq. intros E.
    pose proof (contains_space_app g ("(" ++ str_of_nat n ++ " songs)")) as H.
    rewrite E in H. discriminate.
Qed.

(** X22. The genre the application filters by, taken back from the label
    of the selection box, is the first word of the genre: it is the genre
    itself exactly when the name of the genre has no space, and for a name
    of several words (as "hip hop") it is the first of them. *)
Theorem genre_option_round_trip (g : string) (n : nat) :
  actual_genre (genre_option g n) = Some (first_word g)
  /\ (actual_genre (genre_option g n) = Some g <-> Str.contains " " g = false).
Proof.
  rewrite actual_genre_option. split; [reflexivity|]. rewrite <- first_word_id.
  split; [intros E; now injection E | intros E; now rewrite E].
Qed.

(** X23. The random songs of the application for a selected genre: for a
    count that is not negative and a genre whose first word is not empty,
    every song [get_random_songs] returns for the genre taken from the
    label has, without regard to case, the first word of the genre as its
    genre. For a genre of several words these are the songs of another
    genre, or none. *)
Theorem selected_genre_random_songs (rows : list Song) (g : string) (count : nat)
    (n p : Z) (st : RandomState) (d : SongInfo) :
  0 <= n -> first_word g <> ""%string ->
  In d (fst (get_random_songs rows n p (actual_genre (genre_option g count)) st)) ->
  Str.lower (genre d) = Str.lower (first_word g).
Proof.
  intros Hn Hw. rewrite actual_genre_option.
  destruct (random_songs_sample rows n p (Some (first_word g)) st Hn) as [picked [_ [Hs E]]].
  rewrite E. unfold song_dicts. intros Hd. apply in_map_iff in Hd.
  destruct Hd as [r [<- Hr]]. destruct Hs as [_ [Hincl _]]. apply Hincl in Hr.
  apply in_random_songs_filter in Hr. destruct Hr as [_ [_ Hg]].
  now apply Hg.
Qed.

(** The label of "Indian Pop" selects the songs of a genre "indian", of
    which there is none; the label of "pop" selects "Happy". *)
Lemma selected_genre_random_songs_witness :
  Str.lower (genre (song_info (nth 1 genre_catalogue no_song))) = Str.lower (first_word "pop")
  /\ fst (get_random_songs genre_catalogue 5 0 (actual_genre (genre_option "Indian Pop" 1)) zeros)
     = [].
Proof.
  split; [|reflexivity].
  apply (selected_genre_random_songs genre_catalogue "pop" 1 5 0 zeros).
  - lia.
  - discriminate.
  - vm_compute. left. reflexivity.
Defined.

(** ** The Spotify information of a song *)

Lemma get_dict key d default :
  Spotify.get (Spotify.JDict d) key default
  = Ok (match Spotify.assoc key d with Some v => v | None => default end).
Proof. unfold Spotify.get. now destruct (Spotify.assoc key d). Qed.

(** X24. [get_song_info] for a track that the search finds. When the
    album of the track has an empty list of images, the lookup of the first
    image raises and the method returns [None]: the preview, the link and
    the URI of the track are lost with the album art. When the album has an
    image, or the track has no album entry at all, the information is
    returned, the album art being the URL of the first image, or nothing. *)
Theorem album_art_needs_an_image (search : string -> exc Spotify.json)
    (track_name artist_name : string) (track : list (string * Spotify.json)) :
  Spotify.found search track_name artist_name track -> Spotify.plain_urls track ->
  (forall album,
     Spotify.assoc "album" track = Some (Spotify.JDict album) ->
     Spotify.assoc "images" album = Some (Spotify.JList []) ->
     Spotify.get_song_info (Some search) track_name artist_name = None)
  /\ (forall album image more,
        Spotify.assoc "album" track = Some (Spotify.JDict album) ->
        Spotify.assoc "images" album
        = Some (Spotify.JList (Spotify.JDict image :: more)) ->
        exists info,
          Spotify.get_song_info (Some search) track_name artist_name = Some info
          /\ Spotify.album_art info = Spotify.value_of "url" image
          /\ Spotify.preview_url info = Spotify.value_of "preview_url" track
          /\ Spotify.uri info = Spotify.value_of "uri" track)
  /\ (Spotify.assoc "album" track = None ->
      exists info,
        Spotify.get_song_info (Some search) track_name artist_name = Some info
        /\ Spotify.album_art info = Spotify.JNull
        /\ Spotify.preview_url info = Spotify.value_of "preview_url" track
        /\ Spotify.uri info = Spotify.value_of "uri" track).
Proof.
  intros [results [tracks [others [Hs [Ht Hi]]]]] Hurls.
  assert (Hext : exists urls,
             Spotify.get (Spotify.JDict track) "external_urls" (Spotify.JDict [])
             = Ok (Spotify.JDict urls)).
  { rewrite get_dict. destruct Hurls as [->|[urls ->]]; eauto. }
  destruct Hext as [urls Hext].
  unfold Spotify.get_song_info. rewrite Hs. cbn [bind]. rewrite Ht. cbn [bind]. rewrite Hi.
  cbn [bind Spotify.truthy Spotify.first_item]. rewrite (get_dict "preview_url"). cbn [bind].
  rewrite Hext. cbn [bind]. rewrite (get_dict "spotify"). cbn [bind].
  rewrite (get_dict "uri"). cbn [bind]. rewrite (get_dict "album").
  split; [|split].
  - intros album -> Himg. cbn [bind]. rewrite get_dict, Himg. reflexivity.
  - intros album image more -> Himg. cbn [bind]. rewrite get_dict, Himg.
    cbn [bind Spotify.first_item]. rewrite !get_dict. cbn [bind].
    eexists. split; [reflexivity|]. repeat split.
  - intros ->. cbn [bind]. rewrite get_dict. cbn [Spotify.assoc bind Spotify.first_item].
    rewrite !get_dict. cbn [bind Spotify.assoc].
    eexists. split; [reflexivity|]. repeat split.
Qed.

(** A track with a URI, whose album has no image: nothing is returned. *)
Lemma album_art_needs_an_image_witness :
  Spotify.get_song_info (Some (Spotify.one_track Spotify.bare_track)) "Song" "Artist" = None.
Proof.
  refine (proj1 (album_art_needs_an_image (Spotify.one_track Spotify.bare_track)
                   "Song" "Artist" Spotify.bare_track _ _)
            [("images", Spotify.JList [])]%string eq_refl eq_refl).
  - unfold Spotify.found, Spotify.one_track. eexists. eexists. eexists. repeat split.
  - left. reflexivity.
Defined.

(** ** Songs added to the dataset *)




